(** * MetaSIP project model: merge engine, signatures, version ranges and
    SIP generation (metasip/Project.py)

    The development embeds the parts of [Project.py] that reconcile freshly
    parsed declarations with the curated model ([HeaderDirectory._mergeCode]),
    compute comparison signatures ([signature], [sigAccess], [_expandType]),
    format generation ranges ([Project.versionRange]) and write SIP output
    ([Code.sip], [_IndentFile], [Project.generateModule]).

    Python strings are modelled by [string]; a character is a code point
    below 256.  A Python call that raises is modelled by [None]. *)

From Stdlib Require Import ZArith Ascii String List Bool Lia DecimalString.
From Stdlib Require DecimalPos DecimalN.
From stdpp Require Import base option list strings gmap.

(** ** Python string primitives *)

Module Py.

(** [str.isspace] on one character (code points below 256). *)
Definition isspace (c : ascii) : bool :=
  let n := N_of_ascii c in
  ((9 <=? n) && (n <=? 13) || (28 <=? n) && (n <=? 32)
   || (n =? 133) || (n =? 160))%N.

(** [sep.join(items)]. *)
Fixpoint join (sep : string) (items : list string) : string :=
  match items with
  | [] => ""
  | [x] => x
  | x :: rest => x +:+ sep +:+ join sep rest
  end.

(** [s.split()]: the maximal runs of non-whitespace characters.  [cur] is
    the word being read, in reverse. *)
Definition flush (cur : list ascii) (acc : list string) : list string :=
  match cur with
  | [] => acc
  | _ => string_of_list_ascii (rev cur) :: acc
  end.

Fixpoint split_go (s : string) (cur : list ascii) : list string :=
  match s with
  | EmptyString => flush cur []
  | String c s' =>
      if isspace c then flush cur (split_go s' [])
      else split_go s' (c :: cur)
  end.

Definition split (s : string) : list string := split_go s [].

(** [s.split(sep)] for a one-character separator: empty fields are kept and
    the result always has at least one field. *)
Fixpoint split_on_go (sep : ascii) (s : string) (cur : list ascii)
  : list string :=
  match s with
  | EmptyString => [string_of_list_ascii (rev cur)]
  | String c s' =>
      if Ascii.eqb c sep
      then string_of_list_ascii (rev cur) :: split_on_go sep s' []
      else split_on_go sep s' (c :: cur)
  end.

Definition split_on (sep : ascii) (s : string) : list string :=
  split_on_go sep s [].

(** [s.startswith(p)]. *)
Definition startswith (p s : string) : bool := String.prefix p s.

(** [sub in s]. *)
Fixpoint contains (sub s : string) : bool :=
  startswith sub s ||
  match s with
  | EmptyString => false
  | String _ s' => contains sub s'
  end.

(** [s.replace(old, new)] for a non-empty [old]: occurrences are replaced
    from the left and do not overlap.  [skip] counts the characters of a
    replaced occurrence that are still to be dropped. *)
Fixpoint replace_go (old new : string) (skip : nat) (s : string) : string :=
  match s with
  | EmptyString => ""
  | String c s' =>
      match skip with
      | S k => replace_go old new k s'
      | O =>
          if startswith old s
          then new +:+ replace_go old new (String.length old - 1) s'
          else String c (replace_go old new 0 s')
      end
  end.

Definition replace (old new s : string) : string := replace_go old new 0 s.

(** [fmt % arg] for a string [arg].  The conversions handled are [%s] and
    [%%]; Python requires that the single argument is used exactly once, so
    a format with no [%s] or with two of them raises, as does a [%] at the
    end of the format.  [pending] is set when the previous character is a
    [%] that starts a conversion.  Conversions carrying flags, a width or
    another type character are not produced for C++ types and are treated
    as raising. *)
Fixpoint percent_go (fmt arg : string) (used pending : bool)
  : option string :=
  match fmt with
  | EmptyString => if pending then None else if used then Some "" else None
  | String c rest =>
      if pending then
        if Ascii.eqb c "%" then
          r ← percent_go rest arg used false; Some (String "%" r)
        else if Ascii.eqb c "s" then
          if used then None
          else r ← percent_go rest arg true false; Some (arg +:+ r)
        else None
      else if Ascii.eqb c "%" then percent_go rest arg used true
      else r ← percent_go rest arg used false; Some (String c r)
  end.

Definition percent (fmt arg : string) : option string :=
  percent_go fmt arg false false.

(** [s.strip()]. *)
Fixpoint lstrip (s : string) : string :=
  match s with
  | EmptyString => ""
  | String c s' => if isspace c then lstrip s' else s
  end.

Definition rev_string (s : string) : string :=
  string_of_list_ascii (rev (list_ascii_of_string s)).

Definition strip (s : string) : string :=
  rev_string (lstrip (rev_string (lstrip s))).

(** [s[-1]]: the last character, raising on the empty string. *)
Fixpoint last_char (s : string) : option ascii :=
  match s with
  | EmptyString => None
  | String c EmptyString => Some c
  | String _ s' => last_char s'
  end.

(** [s.find(c)] and [s.rfind(c)] for a character [c]: the first and the
    last position of [c], [None] standing for [-1]. *)
Fixpoint find (c : ascii) (s : string) : option nat :=
  match s with
  | EmptyString => None
  | String x s' => if Ascii.eqb x c then Some 0 else S <$> find c s'
  end.

Fixpoint rfind (c : ascii) (s : string) : option nat :=
  match s with
  | EmptyString => None
  | String x s' =>
      match rfind c s' with
      | Some i => Some (S i)
      | None => if Ascii.eqb x c then Some 0 else None
      end
  end.

(** [s[i:j]] for [0 <= i <= j]. *)
Definition slice (i j : nat) (s : string) : string :=
  String.substring i (j - i) s.

(** The value of a decimal digit. *)
Definition digit (c : ascii) : option Z :=
  let n := N_of_ascii c in
  if ((48 <=? n) && (n <=? 57))%N then Some (Z.of_N n - 48)%Z else None.

(** [int(s)]: surrounding whitespace, an optional sign, then decimal digits
    in which single underscores may separate digits. *)
Fixpoint int_digits (s : string) (acc : Z) (after_digit : bool) : option Z :=
  match s with
  | EmptyString => if after_digit then Some acc else None
  | String c s' =>
      match digit c with
      | Some d => int_digits s' (10 * acc + d)%Z true
      | None =>
          if Ascii.eqb c "_" && after_digit then int_digits s' acc false
          else None
      end
  end.

Definition int (s : string) : option Z :=
  match strip s with
  | String "+" ds => int_digits ds 0%Z false
  | String "-" ds => Z.opp <$> int_digits ds 0%Z false
  | ds => int_digits ds 0%Z false
  end.

(** [str(n)] for a non-negative integer. *)
Definition str (n : N) : string := NilEmpty.string_of_uint (N.to_uint n).

(** [l[i]]: a negative index counts from the end; out of range raises. *)
Definition getitem {A} (l : list A) (i : Z) : option A :=
  if (0 <=? i)%Z then l !! Z.to_nat i
  else if (0 <=? Z.of_nat (length l) + i)%Z
       then l !! Z.to_nat (Z.of_nat (length l) + i)
       else None.

(** [s.split(sep)] for a separator of one character or more. *)
Fixpoint split_str_go (sep : string) (skip : nat) (s : string)
    (cur : list ascii) : list string :=
  match s with
  | EmptyString => [string_of_list_ascii (rev cur)]
  | String c s' =>
      match skip with
      | S k => split_str_go sep k s' cur
      | O =>
          if startswith sep s
          then string_of_list_ascii (rev cur)
               :: split_str_go sep (String.length sep - 1) s' []
          else split_str_go sep 0 s' (c :: cur)
      end
  end.

Definition split_str (sep s : string) : list string :=
  split_str_go sep 0 s [].

End Py.

(** ** The element model *)

(** The attributes every code element inherits from [ProjectElement] and
    [Code]. *)
Record CodeBase := mkCodeBase {
  platforms : string;
  features : string;
  annos : string;
  status : string;
  sgen : string;
  egen : string
}.

(** [Argument]: its status and generations are always empty. *)
Record Argument := mkArgument {
  arg_type : string;
  arg_name : string;
  arg_unnamed : bool;
  arg_default : string;
  arg_pytype : string;
  arg_annos : string
}.

(** The attributes of [Callable]. *)
Record Callable := mkCallable {
  name : string;
  rtype : string;
  pytype : string;
  pyargs : string;
  args : list Argument;
  docstring : string;
  methcode : string
}.

(** [EnumValue]. *)
Record EnumValue := mkEnumValue {
  ev_name : string;
  ev_annos : string;
  ev_status : string;
  ev_sgen : string;
  ev_egen : string
}.

(** The attributes of [Class] other than its content. *)
Record ClassData := mkClassData {
  class_name : string;
  bases : string;
  struct : bool;
  class_access : string;
  pybases : string;
  class_docstring : string;
  typeheadercode : string;
  typecode : string;
  convtotypecode : string;
  subclasscode : string;
  gctraversecode : string;
  gcclearcode : string;
  bigetbufcode : string;
  birelbufcode : string;
  bireadbufcode : string;
  biwritebufcode : string;
  bisegcountcode : string;
  bicharbufcode : string;
  picklecode : string
}.

(** The declarations that hold no nested declarations, one constructor for
    each concrete class of [Project.py] ([Variable_] is the class
    [Variable]). *)
Inductive Decl :=
| Function (c : Callable)
| OperatorFunction (c : Callable)
| Constructor (c : Callable) (access : string) (explicit : bool)
| Destructor (dname access : string) (virtual : bool)
    (dmethcode dvirtcode : string)
| OperatorCast (c : Callable) (access : string) (const : bool)
| Method (c : Callable) (access : string)
    (virtual const static abstract : bool) (virtcode : string)
| OperatorMethod (c : Callable) (access : string)
    (virtual const abstract : bool) (virtcode : string)
| Enum (ename access : string) (values : list EnumValue)
| Variable_ (vname vtype : string) (static : bool) (access : string)
    (accesscode getcode setcode : string)
| Typedef (tname ttype : string)
| OpaqueClass (oname access : string)
| ManualCode (precis access body mdocstring mmethcode : string).

Set Warnings "-register-all".

(** A code element.  [Class] and [Namespace] carry their [content]; the
    [container] back reference of the source is not represented. *)
Inductive Code :=
| Class (b : CodeBase) (c : ClassData) (content : list Code)
| Namespace (b : CodeBase) (nname ntypeheadercode : string)
    (content : list Code)
| Leaf (b : CodeBase) (d : Decl).

(** The concrete class of an element, as compared by [type(x) is type(y)]. *)
Inductive Kind :=
| KClass | KNamespace | KFunction | KOperatorFunction | KConstructor
| KDestructor | KOperatorCast | KMethod | KOperatorMethod | KEnum
| KVariable | KTypedef | KOpaqueClass | KManualCode.

#[global] Instance Kind_eq_dec : EqDecision Kind.
Proof. solve_decision. Defined.

Definition decl_kind (d : Decl) : Kind :=
  match d with
  | Function _ => KFunction
  | OperatorFunction _ => KOperatorFunction
  | Constructor _ _ _ => KConstructor
  | Destructor _ _ _ _ _ => KDestructor
  | OperatorCast _ _ _ => KOperatorCast
  | Method _ _ _ _ _ _ _ => KMethod
  | OperatorMethod _ _ _ _ _ _ => KOperatorMethod
  | Enum _ _ _ => KEnum
  | Variable_ _ _ _ _ _ _ _ => KVariable
  | Typedef _ _ => KTypedef
  | OpaqueClass _ _ => KOpaqueClass
  | ManualCode _ _ _ _ _ => KManualCode
  end.

Definition type_of (c : Code) : Kind :=
  match c with
  | Class _ _ _ => KClass
  | Namespace _ _ _ _ => KNamespace
  | Leaf _ d => decl_kind d
  end.

Definition base (c : Code) : CodeBase :=
  match c with
  | Class b _ _ | Namespace b _ _ _ | Leaf b _ => b
  end.

(** [x.content] of a [Class] or [Namespace]. *)
Definition content_of (c : Code) : list Code :=
  match c with
  | Class _ _ l | Namespace _ _ _ l => l
  | Leaf _ _ => []
  end.

Definition set_base (b : CodeBase) (c : Code) : Code :=
  match c with
  | Class _ d l => Class b d l
  | Namespace _ n t l => Namespace b n t l
  | Leaf _ d => Leaf b d
  end.

(** The assignments [x.sgen = g] and [x.egen = g]. *)
Definition set_sgen (g : string) (c : Code) : Code :=
  let b := base c in
  set_base (mkCodeBase (platforms b) (features b) (annos b) (status b)
                       g (egen b)) c.

Definition set_egen (g : string) (c : Code) : Code :=
  let b := base c in
  set_base (mkCodeBase (platforms b) (features b) (annos b) (status b)
                       (sgen b) g) c.

(** [ProjectElement.isCurrent]. *)
Definition isCurrent (c : Code) : bool := String.eqb (egen (base c)) "".

(** [isinstance(x, ManualCode)]. *)
Definition isManualCode (c : Code) : bool :=
  bool_decide (type_of c = KManualCode).

(** [HeaderFile]. *)
Record HeaderFile := mkHeaderFile {
  hf_id : option N;
  hf_name : string;
  md5 : string;
  parse : string;
  exportedheadercode : string;
  moduleheadercode : string;
  modulecode : string;
  preinitcode : string;
  initcode : string;
  postinitcode : string;
  hf_status : string;
  hf_sgen : string;
  hf_egen : string;
  hf_content : list Code
}.

(** ** Signatures *)

(** [ProjectElement.sipAnnos]. *)
Definition sipAnnos (annos : string) : string :=
  if String.eqb annos "" then "" else " /" +:+ annos +:+ "/".

(** [Access.sigAccess]. *)
Definition sigAccess (access : string) : string :=
  let s := match Py.split access with
           | w :: _ => w
           | [] => ""
           end in
  if String.eqb s "signals" then "protected"
  else if String.eqb s "public" then ""
  else s.

(** The first loop of [_ignoreNamespaces]: the first ignored namespace that
    starts the type is removed from it. *)
Fixpoint strip_namespace (ins : list string) (typ : string) : string :=
  match ins with
  | [] => typ
  | n :: rest =>
      if Py.startswith (n +:+ "::") typ
      then Py.slice (String.length (n +:+ "::")) (String.length typ) typ
      else strip_namespace rest typ
  end.

(** [_ignoreNamespaces(typ)], [ins] being [project.ignorednamespaces.split()].
    A recursive call is made on a text shorter than [typ], so the depth of
    the recursion stays below the [fuel] that [_ignoreNamespaces] gives. *)
Fixpoint ignoreNamespaces_go (fuel : nat) (ins : list string) (typ : string)
  : string :=
  let typ := strip_namespace ins typ in
  match fuel, Py.find "<" typ, Py.rfind ">" typ with
  | S fuel', Some t_start, Some t_end =>
      if (0 <? t_start) && (t_start <? t_end) then
        let xt := (fun t_arg => ignoreNamespaces_go fuel' ins (Py.strip t_arg))
                    <$> Py.split_on "," (Py.slice (t_start + 1) t_end typ) in
        Py.slice 0 (t_start + 1) typ +:+ Py.join ", " xt
        +:+ Py.slice t_end (String.length typ) typ
      else typ
  | _, _, _ => typ
  end.

Definition _ignoreNamespaces (ins : list string) (typ : string) : string :=
  ignoreNamespaces_go (String.length typ) ins typ.

(** [_expandType(typ, name, ignore_namespaces)].  [ignore] is [None] for
    [ignore_namespaces=False] and, for [ignore_namespaces=True], the value
    of [project.ignorednamespaces]. *)
Definition _expandType (typ name : string) (ignore : option string)
  : option string :=
  if String.eqb typ "" then Some ""
  else
    let typ :=
      match ignore with
      | Some ignorednamespaces =>
          let ins := Py.split ignorednamespaces in
          if Py.startswith "const " typ
          then "const " +:+ _ignoreNamespaces ins
                              (Py.slice 6 (String.length typ) typ)
          else _ignoreNamespaces ins typ
      | None => typ
      end in
    let typ := Py.replace "long int" "long" typ in
    if Py.contains "%s" typ then Py.percent typ name
    else if String.eqb name "" then Some typ
    else
      c ← Py.last_char typ;
      Some ((if Py.contains (String c "") "&*" then typ else typ +:+ " ")
            +:+ name).

(** [Argument.signature]. *)
Definition arg_signature (a : Argument) : option string :=
  s ← _expandType (arg_type a) "" None;
  Some (if String.eqb (arg_default a) "" then s
        else s +:+ " = " +:+ arg_default a).

(** [", ".join([a.signature() for a in self.args])]. *)
Definition args_signature (l : list Argument) : option string :=
  Py.join ", " <$> mapM arg_signature l.

(** [Callable.signature]. *)
Definition callable_signature (c : Callable) : option string :=
  r ← _expandType (rtype c) "" None;
  a ← args_signature (args c);
  Some (r +:+ name c +:+ "(" +:+ a +:+ ")").

(** [ClassCallable.signature]. *)
Definition classcallable_signature (c : Callable) (access : string)
  : option string :=
  s ← callable_signature c; Some (s +:+ sigAccess access).

(** The [signature] method of each leaf class.  [Enum], [Variable],
    [Typedef], [OpaqueClass] and [ManualCode] go through [Code.signature],
    which returns [self.user()]. *)
Definition decl_signature (annos : string) (d : Decl) : option string :=
  match d with
  | Function c => callable_signature c
  | OperatorFunction c =>
      r ← _expandType (rtype c) "" None;
      a ← args_signature (args c);
      Some (r +:+ "operator" +:+ name c +:+ "(" +:+ a +:+ ")")
  | Constructor c access explicit =>
      s ← classcallable_signature c access;
      Some (if explicit then "explicit " +:+ s else s)
  | Destructor n access virtual _ _ =>
      let s := n +:+ sigAccess access in
      Some (if virtual then "virtual " +:+ s else s)
  | OperatorCast c access const =>
      s ← classcallable_signature c access;
      Some (("operator " +:+ s) +:+ (if const then " const" else ""))
  | Method c access virtual const static abstract _ =>
      r ← _expandType (rtype c) "" None;
      a ← args_signature (args c);
      Some ((((((if virtual then "virtual " else "")
                +:+ (if static then "static " else ""))
               +:+ (r +:+ name c +:+ "(" +:+ a +:+ ")"))
              +:+ (if const then " const" else ""))
             +:+ (if abstract then " = 0" else ""))
            +:+ sigAccess access)
  | OperatorMethod c access virtual const abstract _ =>
      r ← _expandType (rtype c) "" None;
      a ← args_signature (args c);
      Some (((((if virtual then "virtual " else "")
               +:+ (r +:+ "operator" +:+ name c +:+ "(" +:+ a +:+ ")"))
              +:+ (if const then " const" else ""))
             +:+ (if abstract then " = 0" else ""))
            +:+ sigAccess access)
  | Enum n access _ =>
      Some (("enum" +:+ (if String.eqb n "" then "" else " " +:+ n))
            +:+ sigAccess access)
  | Variable_ n t static access _ _ _ =>
      e ← _expandType t n None;
      let s := e +:+ sipAnnos annos in
      Some ((if static then "static " +:+ s else s) +:+ sigAccess access)
  | Typedef n t =>
      e ← _expandType t n None;
      Some ("typedef " +:+ e +:+ sipAnnos annos)
  | OpaqueClass n access =>
      Some (("class " +:+ n +:+ sipAnnos annos) +:+ sigAccess access)
  | ManualCode precis access _ _ _ => Some (precis +:+ sigAccess access)
  end.

(** [Class.signature]. *)
Definition class_signature (c : ClassData) : string :=
  ((((if struct c then "struct" else "class")
     +:+ (if String.eqb (class_name c) "" then "" else " " +:+ class_name c))
    +:+ (if String.eqb (bases c) "" then "" else " : " +:+ bases c))
   +:+ sigAccess (class_access c)).

(** [x.signature()] by dynamic dispatch. *)
Definition signature (c : Code) : option string :=
  match c with
  | Class _ d _ => Some (class_signature d)
  | Namespace _ n _ _ => Some ("namespace " +:+ n)
  | Leaf b d => decl_signature (annos b) d
  end.





(** ** The project *)

(** The attributes of [Project] read or written by the functions below.
    [dirty] is the flag reached through [IDirty(project).dirty];
    [generation] is the number of the current generation, which
    [addVersion] sets to [len(self.versions)]. *)
Record Project := mkProject {
  rootmodule : string;
  outputdir : string;
  prj_platforms : string;
  prj_features : string;
  sipcomments : string;
  externalmodules : string;
  versions : list string;
  generation : N;
  dirty : bool;
  diagnostic : option string
}.

Definition set_dirty (d : bool) (p : Project) : Project :=
  mkProject (rootmodule p) (outputdir p) (prj_platforms p) (prj_features p)
            (sipcomments p) (externalmodules p) (versions p) (generation p)
            d (diagnostic p).

(** [Project.addVersion]. *)
Definition addVersion (vers : string) (p : Project) : Project :=
  let vs := versions p ++ [vers] in
  mkProject (rootmodule p) (outputdir p) (prj_platforms p) (prj_features p)
            (sipcomments p) (externalmodules p) vs (N.of_nat (length vs))
            true (diagnostic p).

(** The statements [if s != '': s += " "] and [s += word] by which a word
    is added to a list kept as a string. *)
Definition add_word (s word : string) : string :=
  (if String.eqb s "" then s else s +:+ " ") +:+ word.

(** [Project.addPlatform]. *)
Definition addPlatform (plat : string) (p : Project) : Project :=
  mkProject (rootmodule p) (outputdir p) (add_word (prj_platforms p) plat)
            (prj_features p) (sipcomments p) (externalmodules p) (versions p)
            (generation p) true (diagnostic p).

(** [Project.addFeature]. *)
Definition addFeature (feat : string) (p : Project) : Project :=
  mkProject (rootmodule p) (outputdir p) (prj_platforms p)
            (add_word (prj_features p) feat) (sipcomments p)
            (externalmodules p) (versions p) (generation p) true
            (diagnostic p).

(** [Project.addExternalModule]. *)
Definition addExternalModule (xm : string) (p : Project) : Project :=
  mkProject (rootmodule p) (outputdir p) (prj_platforms p) (prj_features p)
            (sipcomments p) (add_word (externalmodules p) xm) (versions p)
            (generation p) true (diagnostic p).

(** ** The merge engine *)

(** The test [type(dsi) is type(ssi) and dsi.signature() == ssi.signature()];
    the signatures are computed only when the classes agree. *)
Definition matches (dsi ssi : Code) : option bool :=
  if bool_decide (type_of dsi = type_of ssi) then
    d ← signature dsi; s ← signature ssi; Some (String.eqb d s)
  else Some false.

(** The scan [for ssi in ssc: if ...: break / else: ssi = None], together
    with [ssc.remove(ssi)]: the first matching item and the list without
    it, or [None] when no item matches. *)
Fixpoint find_match (dsi : Code) (ssc : list Code)
  : option (option (Code * list Code)) :=
  match ssc with
  | [] => Some None
  | ssi :: rest =>
      m ← matches dsi ssi;
      if m : bool then Some (Some (ssi, rest))
      else
        r ← find_match dsi rest;
        Some (match r with
              | Some (found, rest') => Some (found, ssi :: rest')
              | None => None
              end)
  end.

Section MergeLoop.

(** What the body of the loop does to one existing item and to the list of
    parsed items. *)
Variable merge_one : Code -> list Code -> option (Code * list Code).

(** The loop [for dsi in dsc.content] of [_mergeCode]: the updated items
    and the parsed items that are left. *)
Fixpoint merge_existing (content ssc : list Code)
  : option (list Code * list Code) :=
  match content with
  | [] => Some ([], ssc)
  | dsi :: rest =>
      r ← merge_one dsi ssc;
      q ← merge_existing rest r.2;
      Some (r.1 :: q.1, q.2)
  end.

End MergeLoop.

(** The final loop of [_mergeCode]: what is left of the parsed items gets
    the current generation as its start and is appended. *)
Definition append_new (gen : N) (content ssc : list Code) : list Code :=
  content ++ (set_sgen (Py.str gen) <$> ssc).

(** The body of the loop of [_mergeCode] for the existing item [dsi],
    including the recursive call for a [Class] or a [Namespace]. *)
Fixpoint merge_item (gen : N) (dsi : Code) (ssc : list Code) {struct dsi}
  : option (Code * list Code) :=
  if negb (isCurrent dsi) then Some (dsi, ssc)
  else if isManualCode dsi then Some (dsi, ssc)
  else
    r ← find_match dsi ssc;
    match r with
    | None => Some (set_egen (Py.str gen) dsi, ssc)
    | Some (ssi, ssc') =>
        match dsi with
        | Class b c content =>
            q ← merge_existing (merge_item gen) content (content_of ssi);
            Some (Class b c (append_new gen q.1 q.2), ssc')
        | Namespace b n t content =>
            q ← merge_existing (merge_item gen) content (content_of ssi);
            Some (Namespace b n t (append_new gen q.1 q.2), ssc')
        | Leaf _ _ => Some (dsi, ssc')
        end
    end.

(** [HeaderDirectory._mergeCode(dsc, ssc)] on the content of [dsc]: the new
    content of [dsc]. *)
Definition _mergeCode (gen : N) (content ssc : list Code)
  : option (list Code) :=
  q ← merge_existing (merge_item gen) content ssc;
  Some (append_new gen q.1 q.2).

Definition set_hf_content (l : list Code) (hf : HeaderFile) : HeaderFile :=
  mkHeaderFile (hf_id hf) (hf_name hf) (md5 hf) (parse hf)
    (exportedheadercode hf) (moduleheadercode hf) (modulecode hf)
    (preinitcode hf) (initcode hf) (postinitcode hf)
    (hf_status hf) (hf_sgen hf) (hf_egen hf) l.

(** [HeaderDirectory.addParsedHeaderFile(hf, phf)]: the merge, then the
    project is marked dirty. *)
Definition addParsedHeaderFile (prj : Project) (hf : HeaderFile)
    (phf : list Code) : option (Project * HeaderFile) :=
  content ← _mergeCode (generation prj) (hf_content hf) phf;
  Some (set_dirty true prj, set_hf_content content hf).

(** The recursive call on the content of a matched class or namespace. *)
Definition merge_content (gen : N) (dsi ssi : Code) : option Code :=
  match dsi with
  | Class b c content =>
      q ← merge_existing (merge_item gen) content (content_of ssi);
      Some (Class b c (append_new gen q.1 q.2))
  | Namespace b n t content =>
      q ← merge_existing (merge_item gen) content (content_of ssi);
      Some (Namespace b n t (append_new gen q.1 q.2))
  | Leaf _ _ => Some dsi
  end.

(** The four ways in which the loop treats an existing item. *)
Inductive merge_case (gen : N) (dsi : Code) (ssc : list Code)
  : Code -> list Code -> Prop :=
| case_retired :
    isCurrent dsi = false -> merge_case gen dsi ssc dsi ssc
| case_manual :
    isCurrent dsi = true -> isManualCode dsi = true ->
    merge_case gen dsi ssc dsi ssc
| case_missing :
    isCurrent dsi = true -> isManualCode dsi = false ->
    find_match dsi ssc = Some None ->
    merge_case gen dsi ssc (set_egen (Py.str gen) dsi) ssc
| case_found ssi ssc' dsi' :
    isCurrent dsi = true -> isManualCode dsi = false ->
    find_match dsi ssc = Some (Some (ssi, ssc')) ->
    merge_content gen dsi ssi = Some dsi' ->
    merge_case gen dsi ssc dsi' ssc'.

(** A sequence of merges into the same child list, each with its
    generation and its parsed items. *)
Fixpoint merge_passes (passes : list (N * list Code)) (content : list Code)
  : option (list Code) :=
  match passes with
  | [] => Some content
  | pass :: rest =>
      content' ← _mergeCode pass.1 content pass.2;
      merge_passes rest content'
  end.

(** The element reached from a child list by a path of positions: the
    position of a child, then positions in the content of that child. *)
Fixpoint lookup_path (p : list nat) (l : list Code) : option Code :=
  match p with
  | [] => None
  | i :: p' =>
      c ← l !! i;
      match p' with
      | [] => Some c
      | _ => lookup_path p' (content_of c)
      end
  end.

(** Every signature in a tree of code elements is defined. *)
Fixpoint signatures_defined (c : Code) : bool :=
  match c with
  | Class _ _ l | Namespace _ _ _ l => forallb signatures_defined l
  | Leaf b d =>
      match decl_signature (annos b) d with
      | Some _ => true
      | None => false
      end
  end.

Definition all_defined (l : list Code) : Prop :=
  Forall (fun c => signatures_defined c = true) l.

(** Going through the existing children in order, every current child that
    is not manual code finds, among the parsed items [ss], an item of its
    class and signature whose content in turn brings nothing new to the
    content of the child; the parsed items [rem] are left at the end. *)
Inductive matched_leaving : list Code -> list Code -> list Code -> Prop :=
| matched_nil ss : matched_leaving [] ss ss
| matched_skip d ds ss rem :
    isCurrent d = false \/ isManualCode d = true ->
    matched_leaving ds ss rem -> matched_leaving (d :: ds) ss rem
| matched_found d s ds ss ss' rem :
    isCurrent d = true -> isManualCode d = false ->
    find_match d ss = Some (Some (s, ss')) ->
    matched_leaving (content_of d) (content_of s) [] ->
    matched_leaving ds ss' rem -> matched_leaving (d :: ds) ss rem.

(** A parsed tree that brings nothing new: every current child that is not
    manual code finds its counterpart, at every level, and no parsed item
    is left over. *)
Definition unchanged_tree (content ssc : list Code) : Prop :=
  matched_leaving content ssc [].

(** A tree as the parser makes it: every element is current, none is manual
    code, and every signature is defined. *)
Fixpoint freshly_parsed (c : Code) : bool :=
  isCurrent c && negb (isManualCode c) &&
  match c with
  | Class _ _ l | Namespace _ _ _ l => forallb freshly_parsed l
  | Leaf b d =>
      match decl_signature (annos b) d with
      | Some _ => true
      | None => false
      end
  end.

Definition all_fresh (l : list Code) : Prop :=
  Forall (fun c => freshly_parsed c = true) l.

(** ** Scanning a header file *)

(** The states of the loop of [_scanHeaderFile] that reads the source:
    ["copy"], ["ccmnt"] and ["cppcmnt"]. *)
Inductive ScanState := Copy | CComment | CppComment.

(** The loop [for ch in src] of [_scanHeaderFile]: the characters that are
    passed to [m.update], in order.  [prev] is [None] before the first
    character. *)
Fixpoint hashed (state : ScanState) (prev : option ascii) (src : string)
  : string :=
  match src with
  | EmptyString => ""
  | String ch rest =>
      match state with
      | CComment =>
          hashed (if Ascii.eqb ch "/" && bool_decide (prev = Some "*"%char)
                  then Copy else CComment) (Some ch) rest
      | CppComment =>
          hashed (if Ascii.eqb ch "010" then Copy else CppComment)
                 (Some ch) rest
      | Copy =>
          if Ascii.eqb ch "*" && bool_decide (prev = Some "/"%char)
          then hashed CComment (Some ch) rest
          else if Ascii.eqb ch "/" && bool_decide (prev = Some "/"%char)
          then hashed CppComment (Some ch) rest
          else
            match prev with
            | Some p => String p (hashed Copy (Some ch) rest)
            | None => hashed Copy (Some ch) rest
            end
      end
  end.

(** The text whose MD5 digest [_scanHeaderFile] takes as the signature of
    a header file. *)
Definition hashed_text (src : string) : string := hashed Copy None src.

(** ** Version ranges *)

(** [self.versions[int(g) - 1]]. *)
Definition version_label (prj : Project) (g : string) : option string :=
  i ← Py.int g; Py.getitem (versions prj) (i - 1)%Z.

(** [Project.versionRange]. *)
Definition versionRange (prj : Project) (sgen egen : string)
  : option string :=
  if String.eqb sgen "" then
    if String.eqb egen "" then Some ""
    else e ← version_label prj egen; Some ("- " +:+ e)
  else if String.eqb egen "" then
    s ← version_label prj sgen; Some (s +:+ " -")
  else
    s ← version_label prj sgen;
    e ← version_label prj egen;
    Some (s +:+ " - " +:+ e).

(** The number that [int] reads from the digits [d] after [acc]. *)
Fixpoint uint_value (d : Decimal.uint) (acc : Z) : Z :=
  match d with
  | Decimal.Nil => acc
  | Decimal.D0 d => uint_value d (10 * acc)
  | Decimal.D1 d => uint_value d (10 * acc + 1)
  | Decimal.D2 d => uint_value d (10 * acc + 2)
  | Decimal.D3 d => uint_value d (10 * acc + 3)
  | Decimal.D4 d => uint_value d (10 * acc + 4)
  | Decimal.D5 d => uint_value d (10 * acc + 5)
  | Decimal.D6 d => uint_value d (10 * acc + 6)
  | Decimal.D7 d => uint_value d (10 * acc + 7)
  | Decimal.D8 d => uint_value d (10 * acc + 8)
  | Decimal.D9 d => uint_value d (10 * acc + 9)
  end%Z.

(** ** The indenting file writer *)

Definition nl : string := String "010" "".
Definition dquote : string := String "034" "".

(** [_IndentFile]: [out] is the text passed so far to the underlying file
    object. *)
Record IndentFile := mkIndentFile {
  f_name : string;
  out : string;
  f_indent : Z;
  nrindents : Z;
  indentnext : bool;
  blank_pending : bool;
  suppressblank : bool
}.

(** [_IndentFile.__init__] once [open(fname, "w")] has succeeded. *)
Definition new_file (fname : string) (indent : Z) : IndentFile :=
  mkIndentFile fname "" indent 0 true false false.

(** [" " * n]: empty when [n] is not positive. *)
Definition spaces (n : Z) : string :=
  string_of_list_ascii (repeat " "%char (Z.to_nat n)).

Definition raw_write (data : string) (f : IndentFile) : IndentFile :=
  mkIndentFile (f_name f) (out f +:+ data) (f_indent f) (nrindents f)
               (indentnext f) (blank_pending f) (suppressblank f).

Definition set_indentnext (v : bool) (f : IndentFile) : IndentFile :=
  mkIndentFile (f_name f) (out f) (f_indent f) (nrindents f)
               v (blank_pending f) (suppressblank f).

Definition set_blank (v : bool) (f : IndentFile) : IndentFile :=
  mkIndentFile (f_name f) (out f) (f_indent f) (nrindents f)
               (indentnext f) v (suppressblank f).

Definition set_suppressblank (v : bool) (f : IndentFile) : IndentFile :=
  mkIndentFile (f_name f) (out f) (f_indent f) (nrindents f)
               (indentnext f) (blank_pending f) v.

(** The indentation written in front of a line. *)
Definition write_pad (indent : bool) (f : IndentFile) : IndentFile :=
  if indent && indentnext f
  then raw_write (spaces (f_indent f * nrindents f)) f
  else f.

(** The loop over [lines[:-1]] followed by the treatment of [lines[-1]]. *)
Fixpoint write_lines (lines : list string) (indent : bool) (f : IndentFile)
  : IndentFile :=
  match lines with
  | [] => f
  | [l] =>
      if String.eqb l "" then set_indentnext true f
      else set_indentnext false (raw_write l (write_pad indent f))
  | l :: rest =>
      write_lines rest indent
        (set_indentnext true (raw_write (l +:+ nl) (write_pad indent f)))
  end.

(** [_IndentFile.write(data, indent)]. *)
Definition write (data : string) (indent : bool) (f : IndentFile)
  : IndentFile :=
  if String.eqb data "" then f
  else
    let f := if blank_pending f then set_blank false (raw_write nl f)
             else f in
    set_suppressblank false (write_lines (Py.split_on "010" data) indent f).

(** [_IndentFile.blank]. *)
Definition blank (f : IndentFile) : IndentFile :=
  if suppressblank f then f else set_blank true f.

(** [f += n] and [f -= n]. *)
Definition iadd (n : Z) (f : IndentFile) : IndentFile :=
  mkIndentFile (f_name f) (out f) (f_indent f) (nrindents f + n)
               (indentnext f) (blank_pending f) true.

Definition isub (n : Z) (f : IndentFile) : IndentFile :=
  mkIndentFile (f_name f) (out f) (f_indent f) (nrindents f - n)
               (indentnext f) false false.

(** [_writeCodeSIP]. *)
Definition _writeCodeSIP (directive code : string) (indent : bool)
    (f : IndentFile) : IndentFile :=
  blank (write ("%End" +:+ nl) false
          (isub 1 (write (code +:+ nl) indent
                    (iadd 1 (write (directive +:+ nl) false f))))).

(** The blank line that a pending [blank()] puts in front of a text. *)
Definition lead (f : IndentFile) (text : string) : string :=
  if blank_pending f && negb (String.eqb text "") then nl else "".

(** The lines [ls], each after [pad] and ended by a newline. *)
Definition lines_text (pad : string) (ls : list string) : string :=
  foldr (fun l acc => pad +:+ l +:+ nl +:+ acc) "" ls.

(** [g] is [f] after more text has been written to it and its level of
    indentation has been moved by [n]. *)
Definition written_after (n : Z) (f g : IndentFile) : Prop :=
  (exists text, out g = out f +:+ text) /\
  nrindents g = (nrindents f + n)%Z /\
  f_indent g = f_indent f /\ f_name g = f_name f.

(** ** SIP output *)

(** [Module]. *)
Record Module_ := mkModule {
  mod_name : string;
  outputdirsuffix : string;
  mod_version : string;
  imports : string;
  directives : string;
  mod_content : list HeaderFile
}.

Section Sip.

(** The project, reached in the source through the global [project]. *)
Variable prj : Project.

(** The [sip] method of the concrete class of a child, which writes the
    declaration itself: [sip_child latest_sip hf c f] is
    [c.sip(f, hf, latest_sip)]. *)
Variable sip_child :
  bool -> HeaderFile -> Code -> IndentFile -> option IndentFile.

(** The conditionals opened in front of a child and closed after it. *)
Definition open_if (cond : string) (f : IndentFile) : IndentFile :=
  write ("%If (" +:+ cond +:+ ")" +:+ nl) false f.

Definition close_if (f : IndentFile) : IndentFile :=
  write ("%End" +:+ nl) false f.

(** The body of the loop of [Code.sip] for a child whose status is empty. *)
Definition sip_wrapped (latest_sip : bool) (hf : HeaderFile) (c : Code)
    (f : IndentFile) : option IndentFile :=
  let b := base c in
  vrange ← versionRange prj (sgen b) (egen b);
  let f := if String.eqb vrange "" then f else open_if vrange f in
  let f := if String.eqb (platforms b) "" then f
           else open_if (Py.join " || " (Py.split (platforms b))) f in
  let f := if String.eqb (features b) "" then f
           else open_if (Py.join " || " (Py.split (features b))) f in
  f ← sip_child latest_sip hf c f;
  let f := if String.eqb (features b) "" then f else close_if f in
  let f := if String.eqb (platforms b) "" then f else close_if f in
  let f := if String.eqb vrange "" then f else close_if f in
  Some f.

(** [Code.sip(f, hf, latest_sip)] on the content of a container. *)
Fixpoint Code_sip (latest_sip : bool) (hf : HeaderFile) (content : list Code)
    (f : IndentFile) : option IndentFile :=
  match content with
  | [] => Some f
  | c :: rest =>
      if String.eqb (status (base c)) "" then
        f ← sip_wrapped latest_sip hf c f;
        Code_sip latest_sip hf rest f
      else Code_sip latest_sip hf rest f
  end.

(** [c.access] when [isinstance(c, Access)]. *)
Definition access_of (c : Code) : option string :=
  match c with
  | Class _ d _ => Some (class_access d)
  | Namespace _ _ _ _ => None
  | Leaf _ d =>
      match d with
      | Function _ | OperatorFunction _ | Typedef _ _ => None
      | Constructor _ a _ | Destructor _ a _ _ _ | OperatorCast _ a _
      | Method _ a _ _ _ _ _ | OperatorMethod _ a _ _ _ _ | Enum _ a _
      | Variable_ _ _ _ a _ _ _ | OpaqueClass _ a
      | ManualCode _ a _ _ _ => Some a
      end
  end.

(** The access specifier that the loop of [Class.sip] writes in front of a
    child whose access differs from the current one: the new current access
    and the file. *)
Definition access_label (c : Code) (access : string) (f : IndentFile)
  : string * IndentFile :=
  match access_of c with
  | Some a =>
      if String.eqb access a then (access, f)
      else (a, iadd 1 (write ((if String.eqb a "" then "public" else a)
                               +:+ ":" +:+ nl) true (blank (isub 1 f))))
  | None => (access, f)
  end.

(** The loop [for c in self.content] of [Class.sip], which wraps a child as
    [Code.sip] does: the current access and the file at the end. *)
Fixpoint Class_sip_content (latest_sip : bool) (hf : HeaderFile)
    (content : list Code) (access : string) (f : IndentFile)
  : option (string * IndentFile) :=
  match content with
  | [] => Some (access, f)
  | c :: rest =>
      if String.eqb (status (base c)) "" then
        let r := access_label c access f in
        f ← sip_wrapped latest_sip hf c r.2;
        Class_sip_content latest_sip hf rest r.1 f
      else Class_sip_content latest_sip hf rest access f
  end.

(** [isinstance(c, Function) or isinstance(c, OperatorFunction) or
    isinstance(c, Variable) or isinstance(c, Enum)]. *)
Definition module_level (c : Code) : bool :=
  match type_of c with
  | KFunction | KOperatorFunction | KVariable | KEnum => true
  | _ => false
  end.

(** The first loop of [HeaderFile.sip]: a [%ModuleCode] block for the first
    child with an empty status that is implemented at the module level. *)
Fixpoint module_code (hf : HeaderFile) (content : list Code) (f : IndentFile)
  : option IndentFile :=
  match content with
  | [] => Some f
  | c :: rest =>
      if String.eqb (status (base c)) "" && module_level c then
        vrange ← versionRange prj (hf_sgen hf) (hf_egen hf);
        let f := if String.eqb vrange "" then f else open_if vrange f in
        let f := write ("%ModuleCode" +:+ nl +:+ "#include <" +:+ hf_name hf
                        +:+ ">" +:+ nl +:+ "%End" +:+ nl) true f in
        let f := if String.eqb vrange "" then f else close_if f in
        Some (blank f)
      else module_code hf rest f
  end.

Definition write_code_if (directive code : string) (f : IndentFile)
  : IndentFile :=
  if String.eqb code "" then f else _writeCodeSIP directive code false f.

(** [HeaderFile.sip(f, latest_sip)]. *)
Definition HeaderFile_sip (latest_sip : bool) (hf : HeaderFile)
    (f : IndentFile) : option IndentFile :=
  if String.eqb (hf_status hf) "" then
    f ← module_code hf (hf_content hf) f;
    f ← Code_sip latest_sip hf (hf_content hf) f;
    let f := blank f in
    let f := write_code_if "%ExportedHeaderCode" (exportedheadercode hf) f in
    let f := write_code_if "%ModuleHeaderCode" (moduleheadercode hf) f in
    let f := write_code_if "%ModuleCode" (modulecode hf) f in
    let f := write_code_if "%PreInitialisationCode" (preinitcode hf) f in
    let f := write_code_if "%InitialisationCode" (initcode hf) f in
    let f := write_code_if "%PostInitialisationCode" (postinitcode hf) f in
    Some f
  else Some f.

End Sip.

(** ** The [sip] methods *)

(** [_writeDocstringSIP], [_writeMethCodeSIP] and [_writeVirtCodeSIP]. *)
Definition _writeDocstringSIP (docstring : string) (f : IndentFile)
  : IndentFile :=
  if String.eqb docstring "" then f
  else _writeCodeSIP "%Docstring" docstring false f.

Definition _writeMethCodeSIP (code : string) (f : IndentFile) : IndentFile :=
  if String.eqb code "" then f else _writeCodeSIP "%MethodCode" code true f.

Definition _writeVirtCodeSIP (code : string) (f : IndentFile) : IndentFile :=
  if String.eqb code "" then f
  else _writeCodeSIP "%VirtualCatcherCode" code true f.

(** The statement [if s[-1] not in "&*": s += " "], which raises on an
    empty [s]; and the same followed by [s += name]. *)
Definition spaced (s : string) : option string :=
  c ← Py.last_char s;
  Some (if Py.contains (String c "") "&*" then s else s +:+ " ").

Definition add_name (s name : string) : option string :=
  s ← spaced s; Some (s +:+ name).

Section SipMethods.

(** The project, and its attribute [ignorednamespaces], which the source
    reaches through the global [project]. *)
Variable prj : Project.
Variable ignorednamespaces : string.

(** The argument [ignore_namespaces] of [_expandType]. *)
Definition ignoring (ignore_namespaces : bool) : option string :=
  if ignore_namespaces then Some ignorednamespaces else None.

(** [Argument.sip(latest_sip, ignore_namespaces)], which does not read
    [latest_sip]. *)
Definition Argument_sip (ignore_namespaces : bool) (a : Argument)
  : option string :=
  s ← (if String.eqb (arg_pytype a) ""
       then _expandType (arg_type a) "" (ignoring ignore_namespaces)
       else Some (arg_pytype a));
  s ← (if String.eqb (arg_name a) "" then Some s else add_name s (arg_name a));
  let s := s +:+ sipAnnos (arg_annos a) in
  Some (if String.eqb (arg_default a) "" then s
        else s +:+ " = "
             +:+ _ignoreNamespaces (Py.split ignorednamespaces)
                                   (arg_default a)).

(** [Argument.user]. *)
Definition Argument_user (a : Argument) : option string :=
  s ← _expandType (arg_type a) "" None;
  s ← (if String.eqb (arg_name a) "" then Some s else add_name s (arg_name a));
  Some (if String.eqb (arg_default a) "" then s
        else s +:+ " = " +:+ arg_default a).

(** [Callable.returnType(ignore_namespaces)]. *)
Definition returnType (ignore_namespaces : bool) (c : Callable)
  : option string :=
  if negb (String.eqb (pytype c) "") then spaced (pytype c)
  else if negb (String.eqb (rtype c) "") then
    s ← _expandType (rtype c) "" (ignoring ignore_namespaces); spaced s
  else Some "".

(** [Callable.hasPyArgs]. *)
Definition hasPyArgs (c : Callable) : bool :=
  existsb (fun a =>
             negb (String.eqb (arg_pytype a) "")
             && (negb (String.eqb (arg_pytype a) "SIP_SIGNAL"
                       || String.eqb (arg_pytype a) "SIP_SLOT")
                 || negb (String.eqb (arg_type a) "const char *")))
          (args c).

(** The Python signature, or the arguments as [Argument.sip] gives them. *)
Definition sip_args (c : Callable) : option string :=
  if negb (String.eqb (pyargs c) "") then Some (pyargs c)
  else
    l ← mapM (Argument_sip true) (args c);
    Some ("(" +:+ Py.join ", " l +:+ ")").

(** [", ".join([a.user() for a in self.args])]. *)
Definition user_args (c : Callable) : option string :=
  Py.join ", " <$> mapM Argument_user (args c).

(** The C++ signature that follows the Python one. *)
Definition cpp_signature (c : Callable) : option string :=
  r ← _expandType (rtype c) "" (Some ignorednamespaces);
  a ← user_args c;
  Some (" [" +:+ r +:+ " (" +:+ a +:+ ")]").

(** [Callable.sip], with [callname] for [self.name] or for
    ["operator" + self.name]. *)
Definition Callable_sip (annos callname : string) (c : Callable)
    (f : IndentFile) : option IndentFile :=
  r ← returnType true c;
  let f := write (r +:+ callname) true f in
  a ← sip_args c;
  let f := write a true f in
  Some (write (sipAnnos annos) true f).

(** The text that [Method.sip] and [OperatorMethod.sip] build. *)
Definition method_text (annos callname access : string) (c : Callable)
    (virtual const static abstract : bool) : option string :=
  r ← returnType true c;
  a ← sip_args c;
  let s := (if virtual then "virtual " else "")
           +:+ (if static then "static " else "")
           +:+ r +:+ callname +:+ a
           +:+ (if const then " const" else "")
           +:+ (if abstract then " = 0" else "")
           +:+ sipAnnos annos in
  if (virtual || Py.startswith "protected" access
      || String.eqb (methcode c) "")
     && (negb (String.eqb (pytype c) "") || negb (String.eqb (pyargs c) "")
         || hasPyArgs c)
  then x ← cpp_signature c; Some (s +:+ x)
  else Some s.

(** The loop over the values of [Enum.sip]. *)
Fixpoint Enum_values (values : list EnumValue) (f : IndentFile)
  : option IndentFile :=
  match values with
  | [] => Some f
  | e :: rest =>
      if negb (String.eqb (ev_status e) "") then Enum_values rest f
      else
        vrange ← versionRange prj (ev_sgen e) (ev_egen e);
        let f := if String.eqb vrange "" then f else open_if vrange f in
        let f := write (ev_name e +:+ sipAnnos (ev_annos e) +:+ "," +:+ nl)
                       true f in
        let f := if String.eqb vrange "" then f else close_if f in
        Enum_values rest f
  end.

(** The code of a variable, after the brace that the first of them opens
    when [need_brace] is set. *)
Definition variable_code (directive code : string)
    (r : bool * IndentFile) : bool * IndentFile :=
  if String.eqb code "" then r
  else
    (false,
     _writeCodeSIP directive code true
       (if r.1 then write (" {" +:+ nl) false r.2 else r.2)).

(** The [sip] method of the classes that hold no code elements. *)
Definition Decl_sip (latest_sip : bool) (hf : HeaderFile) (b : CodeBase)
    (d : Decl) (f : IndentFile) : option IndentFile :=
  match d with
  | Function c =>
      f ← Callable_sip (annos b) (name c) c f;
      let f := write (";" +:+ nl) true f in
      Some (_writeMethCodeSIP (methcode c)
              (_writeDocstringSIP (docstring c) f))
  | OperatorFunction c =>
      f ← Callable_sip (annos b) ("operator" +:+ name c) c f;
      let f := write (";" +:+ nl) true f in
      Some (_writeMethCodeSIP (methcode c) f)
  | Constructor c access explicit =>
      let f := if explicit then write "explicit " true f else f in
      f ← Callable_sip (annos b) (name c) c f;
      f ← (if negb (String.eqb (pyargs c) "") || hasPyArgs c
           then a ← user_args c; Some (write (" [(" +:+ a +:+ ")]") true f)
           else Some f);
      let f := write (";" +:+ nl) true f in
      Some (_writeMethCodeSIP (methcode c)
              (_writeDocstringSIP (docstring c) f))
  | Destructor n access virtual dmethcode dvirtcode =>
      let f := if virtual then write "virtual " true f else f in
      let f := write ("~" +:+ n +:+ "()" +:+ sipAnnos (annos b) +:+ ";" +:+ nl)
                     true f in
      Some (_writeVirtCodeSIP dvirtcode (_writeMethCodeSIP dmethcode f))
  | OperatorCast c access const =>
      let f := write "operator " true f in
      f ← Callable_sip (annos b) (name c) c f;
      let f := if const then write " const" true f else f in
      let f := write (";" +:+ nl) true f in
      Some (_writeMethCodeSIP (methcode c) f)
  | Method c access virtual const static abstract virtcode =>
      s ← method_text (annos b) (name c) access c virtual const static
            abstract;
      let f := write (s +:+ ";" +:+ nl) true f in
      Some (_writeVirtCodeSIP virtcode
              (_writeMethCodeSIP (methcode c)
                 (_writeDocstringSIP (docstring c) f)))
  | OperatorMethod c access virtual const abstract virtcode =>
      s ← method_text (annos b) ("operator" +:+ name c) access c virtual
            const false abstract;
      let f := write (s +:+ ";" +:+ nl) true f in
      Some (_writeVirtCodeSIP virtcode (_writeMethCodeSIP (methcode c) f))
  | Enum n access values =>
      let f := write "enum" true (blank f) in
      let f := if String.eqb n "" then f else write (" " +:+ n) true f in
      let f := iadd 1 (write (sipAnnos (annos b) +:+ nl +:+ "{" +:+ nl)
                             true f) in
      f ← Enum_values values f;
      Some (blank (write ("};" +:+ nl) true (isub 1 f)))
  | Variable_ n t static access accesscode getcode setcode =>
      s ← _expandType t n (Some ignorednamespaces);
      let s := if static then "static " +:+ s else s in
      let f := write (s +:+ sipAnnos (annos b)) true f in
      let f := if latest_sip then f else write (";" +:+ nl) false f in
      let r := variable_code "%SetCode" setcode
                 (variable_code "%GetCode" getcode
                    (variable_code "%AccessCode" accesscode (latest_sip, f))) in
      Some (if latest_sip
            then write (";" +:+ nl) false
                   (if r.1 then r.2 else write "}" true r.2)
            else r.2)
  | Typedef n t =>
      e ← _expandType t n (Some ignorednamespaces);
      Some (write ("typedef " +:+ e +:+ sipAnnos (annos b) +:+ ";" +:+ nl)
                  true f)
  | OpaqueClass n access =>
      Some (write ("class " +:+ n +:+ sipAnnos (annos b) +:+ ";" +:+ nl)
                  true f)
  | ManualCode precis access body mdocstring mmethcode =>
      let f :=
        if negb (String.eqb body "")
        then write ("// " +:+ precis +:+ nl +:+ body +:+ nl) false f
        else if Py.startswith "%" precis then write (precis +:+ nl) false f
        else write (precis +:+ ";" +:+ nl) true f in
      Some (_writeMethCodeSIP mmethcode (_writeDocstringSIP mdocstring f))
  end.

(** The [%TypeHeaderCode] block of a class or of a namespace. *)
Definition type_header (typeheadercode : string) (hf : HeaderFile)
    (f : IndentFile) : IndentFile :=
  let f := write ("%TypeHeaderCode" +:+ nl) false f in
  let f := if negb (String.eqb typeheadercode "")
           then write (typeheadercode +:+ nl) false f
           else write ("#include <" +:+ hf_name hf +:+ ">" +:+ nl) false f in
  blank (write ("%End" +:+ nl) false f).

(** One base class as [Class.sip] writes it. *)
Definition base_class (b : string) : option string :=
  match Py.split b with
  | [acc; cls] =>
      let cls := _ignoreNamespaces (Py.split ignorednamespaces) cls in
      Some (if String.eqb acc "public" then cls else acc +:+ " " +:+ cls)
  | _ => None
  end.

(** The base classes of the first line of a class. *)
Definition bases_text (c : ClassData) : option string :=
  if negb (String.eqb (pybases c) "") then
    Some (if negb (String.eqb (pybases c) "None")
          then " : " +:+ Py.join ", " (Py.split (pybases c)) else "")
  else if negb (String.eqb (bases c) "") then
    l ← mapM base_class (Py.split_str ", " (bases c));
    Some (" : " +:+ Py.join ", " l)
  else Some "".

Definition write_code (directive code : string) (indent : bool)
    (f : IndentFile) : IndentFile :=
  if String.eqb code "" then f else _writeCodeSIP directive code indent f.

(** What [Class.sip] writes before the content of the class. *)
Definition Class_head (hf : HeaderFile) (b : CodeBase) (c : ClassData)
    (f : IndentFile) : option IndentFile :=
  bstr ← bases_text c;
  let f := write ((if struct c then "struct " else "class ")
                  +:+ class_name c +:+ bstr +:+ sipAnnos (annos b)
                  +:+ nl +:+ "{" +:+ nl) true (blank f) in
  let f := _writeDocstringSIP (class_docstring c) f in
  let f := type_header (typeheadercode c) hf f in
  let f := write_code "%TypeCode" (typecode c) false f in
  let f := write_code "%ConvertToTypeCode" (convtotypecode c) false f in
  let f := write_code "%ConvertToSubClassCode" (subclasscode c) true f in
  let f := write_code "%GCTraverseCode" (gctraversecode c) true f in
  let f := write_code "%GCClearCode" (gcclearcode c) true f in
  let f := write_code "%BIGetBufferCode" (bigetbufcode c) true f in
  let f := write_code "%BIReleaseBufferCode" (birelbufcode c) true f in
  let f := write_code "%BIGetReadBufferCode" (bireadbufcode c) true f in
  let f := write_code "%BIGetWriteBufferCode" (biwritebufcode c) true f in
  let f := write_code "%BIGetSegCountCode" (bisegcountcode c) true f in
  let f := write_code "%BIGetCharBufferCode" (bicharbufcode c) true f in
  let f := write_code "%PickleCode" (picklecode c) true f in
  Some (iadd 1 f).

(** [c.sip(f, hf, latest_sip)] by dynamic dispatch. *)
Fixpoint sip (latest_sip : bool) (hf : HeaderFile) (c : Code) (f : IndentFile)
    {struct c} : option IndentFile :=
  match c with
  | Leaf b d => Decl_sip latest_sip hf b d f
  | Namespace b n typeheadercode content =>
      if negb (String.eqb (status b) "") then Some f
      else if bool_decide (n ∈ Py.split ignorednamespaces)
      then Code_sip prj sip latest_sip hf content f
      else
        let f := write ("namespace " +:+ n +:+ nl +:+ "{" +:+ nl) true
                       (blank f) in
        let f := iadd 1 (type_header typeheadercode hf f) in
        f ← Code_sip prj sip latest_sip hf content f;
        Some (blank (write ("};" +:+ nl) true (isub 1 f)))
  | Class b c content =>
      if negb (String.eqb (status b) "") then Some f
      else
        f ← Class_head hf b c f;
        r ← Class_sip_content prj sip latest_sip hf content
              (if struct c then "" else "private") f;
        Some (blank (write ("};" +:+ nl) true (isub 1 r.2)))
  end.

End SipMethods.

(** The [%If] line written for a tag, and the [%End] line that closes it;
    nothing is written for an empty tag. *)
Definition if_text (tag cond : string) : string :=
  if String.eqb tag "" then "" else "%If (" +:+ cond +:+ ")" +:+ nl.

Definition end_text (tag : string) : string :=
  if String.eqb tag "" then "" else "%End" +:+ nl.

(** The lines in front of a child: generation range, then platforms, then
    features; and the lines after it, in the opposite order. *)
Definition opening (vrange : string) (b : CodeBase) : string :=
  if_text vrange vrange
  +:+ if_text (platforms b) (Py.join " || " (Py.split (platforms b)))
  +:+ if_text (features b) (Py.join " || " (Py.split (features b))).

Definition closing (vrange : string) (b : CodeBase) : string :=
  end_text (features b) +:+ end_text (platforms b) +:+ end_text vrange.

(** ** Module generation *)

(** The state [generateModule] works on: the project, the files of the
    output tree with their text, and the number of times the clock has been
    read. *)
Record GenState := mkGenState {
  gs_prj : Project;
  gs_files : gmap string string;
  gs_clock : nat
}.

Definition set_outputdir (od : string) (p : Project) : Project :=
  mkProject (rootmodule p) od (prj_platforms p) (prj_features p)
            (sipcomments p) (externalmodules p) (versions p) (generation p)
            (dirty p) (diagnostic p).

Definition set_diagnostic (d : string) (p : Project) : Project :=
  mkProject (rootmodule p) (outputdir p) (prj_platforms p) (prj_features p)
            (sipcomments p) (externalmodules p) (versions p) (generation p)
            (dirty p) (Some d).

(** [f.close()] for the file opened as [fname]: the text written is the
    content of the file. *)
Definition close_file (fname : string) (f : IndentFile) (st : GenState)
  : GenState :=
  mkGenState (gs_prj st) (<[fname := out f]> (gs_files st)) (gs_clock st).

Section Generate.

Variable sip_child :
  bool -> HeaderFile -> Code -> IndentFile -> option IndentFile.

(** [os.path.abspath], [os.path.join], [os.path.basename] and the first
    component of [os.path.splitext], which depend on the platform and on
    the working directory. *)
Variable abspath : string -> string.
Variable path_join : string -> string -> string.
Variable basename : string -> string.
Variable splitext_root : string -> string.

(** [asctime k] is what the [k]-th call of [time.asctime()] returns. *)
Variable asctime : nat -> string.

(** [open_error files fname] is the detail of the [IOError] that
    [open(fname, "w")] raises, if it raises. *)
Variable open_error : gmap string string -> string -> option string.

(** [_createIndentFile(prj, fname, indent)]: a successful [open] creates
    the file, or empties it. *)
Definition _createIndentFile (st : GenState) (fname : string) (indent : Z)
  : GenState * option IndentFile :=
  match open_error (gs_files st) fname with
  | Some detail =>
      (mkGenState
         (set_diagnostic ("Unable to create file " +:+ fname +:+ ": "
                          +:+ detail) (gs_prj st))
         (gs_files st) (gs_clock st),
       None)
  | None =>
      (mkGenState (gs_prj st) (<[fname := ""]> (gs_files st)) (gs_clock st),
       Some (new_file fname indent))
  end.

(** The name of the file [_createSIPFile] creates below [od]. *)
Definition sip_fname (m : Module_) (hf : option HeaderFile) : string :=
  match hf with
  | None => mod_name m +:+ "mod"
  | Some h => splitext_root (basename (hf_name h))
  end +:+ ".sip".

Definition sip_pname (od : string) (m : Module_) (hf : option HeaderFile)
  : string :=
  path_join (if String.eqb (outputdirsuffix m) "" then od
             else path_join od (outputdirsuffix m))
            (sip_fname m hf).

(** The standard header that [_createSIPFile] writes to a new file; [now]
    is what [time.asctime()] returns. *)
Definition sip_boilerplate (p : Project) (m : Module_)
    (hf : option HeaderFile) (now : string) (f : IndentFile) : IndentFile :=
  let f := write ("// " +:+ sip_fname m hf +:+ " generated by MetaSIP on "
                  +:+ now +:+ nl +:+ "//" +:+ nl
                  +:+ "// This file is part of the " +:+ mod_name m
                  +:+ " Python extension module." +:+ nl) true f in
  let f := if String.eqb (sipcomments p) "" then f
           else write ("//" +:+ nl +:+ sipcomments p +:+ nl) true f in
  blank (write nl true f).

(** The text of the standard header. *)
Definition boilerplate_text (p : Project) (m : Module_)
    (hf : option HeaderFile) (now : string) : string :=
  "// " +:+ sip_fname m hf +:+ " generated by MetaSIP on " +:+ now +:+ nl
  +:+ "//" +:+ nl
  +:+ "// This file is part of the " +:+ mod_name m
  +:+ " Python extension module." +:+ nl
  +:+ (if String.eqb (sipcomments p) "" then ""
       else "//" +:+ nl +:+ sipcomments p +:+ nl)
  +:+ nl.

(** [Project._createSIPFile(od, mod, hf)].  The directories made by
    [os.makedirs], whose errors the source ignores, are not represented. *)
Definition _createSIPFile (st : GenState) (od : string) (m : Module_)
    (hf : option HeaderFile) : GenState * option IndentFile :=
  let r := _createIndentFile st (sip_pname od m hf) 4 in
  match r.2 with
  | Some f =>
      (mkGenState (gs_prj r.1) (gs_files r.1) (S (gs_clock r.1)),
       Some (sip_boilerplate (gs_prj r.1) m hf (asctime (gs_clock r.1)) f))
  | None => r
  end.

(** The loop [for hf in mod.content] of [generateModule].  The second
    component is [None] when the function has returned [False], and the
    list [hfnames] otherwise.  [f.name] is assigned by [__init__] only, so
    it is read from the file as it was created. *)
Fixpoint generate_headers (od : string) (m : Module_) (latest_sip : bool)
    (hfs : list HeaderFile) (st : GenState)
  : option (GenState * option (list string)) :=
  match hfs with
  | [] => Some (st, Some [])
  | hf :: rest =>
      let r := _createSIPFile st od m (Some hf) in
      match r.2 with
      | None => Some (r.1, None)
      | Some f =>
          g ← HeaderFile_sip (gs_prj r.1) sip_child latest_sip hf f;
          q ← generate_headers od m latest_sip rest
                (close_file (f_name f) g r.1);
          Some (q.1, match q.2 with
                     | Some hfnames => Some (basename (f_name f) :: hfnames)
                     | None => None
                     end)
      end
  end.

(** The [%Import] lines: the file and whether the module is still a top
    level one. *)
Fixpoint write_imports (external ms : list string) (top : bool)
    (f : IndentFile) : IndentFile * bool :=
  match ms with
  | [] => (f, top)
  | m :: rest =>
      write_imports external rest
        (if bool_decide (m ∈ external) then top else false)
        (write ("%Import " +:+ m +:+ "/" +:+ m +:+ "mod.sip" +:+ nl) true f)
  end.

Fixpoint write_each (pre : string) (items : list string) (f : IndentFile)
  : IndentFile :=
  match items with
  | [] => f
  | x :: rest => write_each pre rest (write (pre +:+ x +:+ nl) true f)
  end.

(** What [generateModule] writes to the file of the module itself. *)
Definition write_module (p : Project) (m : Module_) (latest_sip : bool)
    (hfnames : list string) (f : IndentFile) : IndentFile :=
  let rname := if String.eqb (rootmodule p) "" then ""
               else rootmodule p +:+ "." in
  let version := if String.eqb (mod_version m) "" then ""
                 else ", version=" +:+ mod_version m in
  let f :=
    if latest_sip
    then write ("%Module(name=" +:+ rname +:+ mod_name m
                +:+ ", keyword_arguments=" +:+ dquote +:+ "Optional"
                +:+ dquote +:+ version +:+ ")" +:+ nl +:+ nl) true f
    else write ("%Module " +:+ rname +:+ mod_name m +:+ " 0" +:+ nl +:+ nl)
               true f in
  let r := if String.eqb (imports m) "" then (f, true)
           else
             let r := write_imports (Py.split (externalmodules p))
                                    (Py.split (imports m)) true f in
             (write nl true r.1, r.2) in
  let f := r.1 in
  let f :=
    if r.2 : bool then
      let f := if bool_decide (length (versions p) = 0) then f
               else write ("%Timeline {" +:+ Py.join " " (versions p) +:+ "}"
                           +:+ nl +:+ nl) true f in
      let f := if String.eqb (prj_platforms p) "" then f
               else write ("%Platforms {" +:+ prj_platforms p +:+ "}"
                           +:+ nl +:+ nl) true f in
      if String.eqb (prj_features p) "" then f
      else write nl true
             (write_each "%Feature " (Py.split (prj_features p)) f)
    else f in
  let f := if String.eqb (directives m) "" then f
           else write (nl +:+ nl) true (write (directives m) true f) in
  write_each "%Include " hfnames f.

(** The first statements of [generateModule]: the output directory is
    remembered in the project when [saveod] is set. *)
Definition start_state (st : GenState) (od : string) (saveod : bool)
  : GenState :=
  if saveod && negb (String.eqb (outputdir (gs_prj st)) (abspath od))
  then mkGenState (set_outputdir (abspath od) (gs_prj st)) (gs_files st)
                  (gs_clock st)
  else st.

(** [Project.generateModule(ui, mod, od, saveod, latest_sip)]: the value
    returned and the state left.  The calls of [Logger.log] are not
    represented. *)
Definition generateModule (st : GenState) (m : Module_) (od : string)
    (saveod latest_sip : bool) : option (bool * GenState) :=
  q ← generate_headers (abspath od) m latest_sip (mod_content m)
        (start_state st od saveod);
  match q.2 with
  | None => Some (false, q.1)
  | Some hfnames =>
      let r := _createSIPFile q.1 (abspath od) m None in
      match r.2 with
      | None => Some (false, r.1)
      | Some f =>
          Some (true,
                close_file (f_name f)
                  (write_module (gs_prj r.1) m latest_sip hfnames f) r.1)
      end
  end.

(** The text of the file that is generated for the header [hf] when the
    clock has been read [k] times before. *)
Definition header_text (p : Project) (od : string) (m : Module_)
    (latest_sip : bool) (k : nat) (hf : HeaderFile) : option string :=
  out <$> HeaderFile_sip p sip_child latest_sip hf
            (sip_boilerplate p m (Some hf) (asctime k)
                             (new_file (sip_pname od m (Some hf)) 4)).

(** The text of the file that is generated for the module itself. *)
Definition module_text (p : Project) (od : string) (m : Module_)
    (latest_sip : bool) (k : nat) : string :=
  out (write_module p m latest_sip
         ((fun hf => basename (sip_pname od m (Some hf))) <$> mod_content m)
         (sip_boilerplate p m None (asctime k)
                          (new_file (sip_pname od m None) 4))).

(** The writing of every header of a list completes, whatever the file it
    is written to. *)
Definition renders (latest_sip : bool) (p : Project) (hfs : list HeaderFile)
  : Prop :=
  forall (hf : HeaderFile) (f : IndentFile),
    hf ∈ hfs -> is_Some (HeaderFile_sip p sip_child latest_sip hf f).

End Generate.

(** The output files of a module: one for each of its headers and one,
    [None], for the module itself. *)
Definition is_output (m : Module_) (hf : option HeaderFile) : Prop :=
  match hf with
  | None => True
  | Some h => h ∈ mod_content m
  end.

(** ** Examples *)

(** A child and a project for the examples: generations [2] to [3], two
    platforms and one feature. *)
Definition example_project : Project :=
  mkProject "" "" "win mac" "ssl" "" "" ["1.0"; "2.0"; "3.0"] 3 false None.

Definition example_child : Code :=
  Leaf (mkCodeBase "win mac" "ssl" "" "" "2" "3")
       (Function (mkCallable "f" "void" "" "" [] "" "")).

Definition example_header : HeaderFile :=
  mkHeaderFile None "f.h" "" "" "" "" "" "" "" "" "" "" "" [example_child].

Definition example_sip_child (latest_sip : bool) (hf : HeaderFile) (c : Code)
    (f : IndentFile) : option IndentFile :=
  Some (write ("void f();" +:+ nl) true f).

(** An environment for the examples: POSIX-like path functions, a fixed
    clock, and a file system in which [/out/b.sip] cannot be created when
    [locked] is set. *)
Definition example_abspath (p : string) : string := p.

Definition example_join (a b : string) : string := a +:+ "/" +:+ b.

Definition example_basename (p : string) : string :=
  default "" (last (Py.split_on "/" p)).

Definition example_splitext_root (p : string) : string :=
  match Py.split_on "." p with
  | [x] => x
  | l => Py.join "." (removelast l)
  end.

Definition example_asctime (k : nat) : string := "Thu Jan  1 00:00:00 1970".

Definition example_open_error (locked : bool) (files : gmap string string)
    (fname : string) : option string :=
  if locked && String.eqb fname "/out/b.sip"
  then Some "[Errno 13] Permission denied"
  else None.

Definition example_plain_header (n : string) : HeaderFile :=
  mkHeaderFile None n "" "" "" "" "" "" "" "" "" "" ""
    [Leaf (mkCodeBase "" "" "" "" "" "")
          (Function (mkCallable "f" "void" "" "" [] "" ""))].

Definition example_module : Module_ :=
  mkModule "core" "" "" "" ""
           [example_plain_header "a.h"; example_plain_header "b.h"].

Definition example_state : GenState :=
  mkGenState example_project ∅ 0.

Definition example_generate (locked : bool) : option (bool * GenState) :=
  generateModule example_sip_child example_abspath example_join
    example_basename example_splitext_root example_asctime
    (example_open_error locked) example_state example_module "/out"
    true true.

(** A class with two methods that came in with generation 1, and a newly
    parsed version of it in which the method [gone] is missing. *)
Definition example_method (n sg st : string) : Code :=
  Leaf (mkCodeBase "" "" "" st sg "")
       (Method (mkCallable n "void" "" "" [] "" "") "public"
               false false false false "").

Definition example_class_data : ClassData :=
  mkClassData "A" "" false "" "" "" "" "" "" "" "" "" "" "" "" "" "" "" "".

Definition example_class (b : CodeBase) (content : list Code) : Code :=
  Class b example_class_data content.

Definition example_existing : list Code :=
  [example_class (mkCodeBase "" "" "" "" "1" "")
     [example_method "keep" "1" ""; example_method "gone" "1" ""]].

Definition example_parsed : list Code :=
  [example_class (mkCodeBase "" "" "" "unknown" "" "")
     [example_method "keep" "" "unknown"]].

(** A header whose class is parsed again exactly as it is known. *)
Definition example_known_header : HeaderFile :=
  mkHeaderFile None "a.h" "" "" "" "" "" "" "" "" "" "" ""
    [example_class (mkCodeBase "" "" "" "" "1" "")
                   [example_method "keep" "1" ""]].

(** A module whose only header is ignored. *)
Definition example_ignored_module : Module_ :=
  mkModule "core" "" "" "" ""
    [mkHeaderFile None "a.h" "" "" "" "" "" "" "" "" "ignored" "" ""
       [example_child]].

(** * Properties *)

(** ** Strings *)

Lemma append_nil_l (s : string) : "" +:+ s = s.
Proof. reflexivity. Qed.

Lemma append_cons (c : ascii) (s t : string) :
  String c s +:+ t = String c (s +:+ t).
Proof. reflexivity. Qed.

Lemma append_empty_r (s : string) : s +:+ "" = s.
Proof.
  induction s as [|c s IH]; [done |].
  by rewrite append_cons, IH.
Qed.

Lemma append_inj_l (p s t : string) : p +:+ s = p +:+ t -> s = t.
Proof.
  induction p as [|c p IH]; [done |].
  rewrite !append_cons. intros H. injection H as H. by apply IH.
Qed.

Lemma append_assoc (s t u : string) : (s +:+ t) +:+ u = s +:+ (t +:+ u).
Proof.
  induction s as [|c s IH]; [done |].
  by rewrite !append_cons, IH.
Qed.

Lemma eqb_empty_false (s : string) : s <> "" -> String.eqb s "" = false.
Proof. intros H. by apply String.eqb_neq. Qed.

(** ** Argument signatures *)

(** The signature of an argument reads its type and its default only. *)
Lemma arg_signature_fields (a1 a2 : Argument) :
  arg_type a1 = arg_type a2 -> arg_default a1 = arg_default a2 ->
  arg_signature a1 = arg_signature a2.
Proof. unfold arg_signature. by intros -> ->. Qed.





(** ** Version ranges *)

(** C7: with the generation list ["1.0"; "2.0"; "3.0"], no endpoint gives
    the empty string, an end of ["2"] gives ["- 2.0"], a start of ["1"] gives
    ["1.0 -"], a start of ["2"] with an end of ["3"] gives ["2.0 - 3.0"], and
    the endpoint written [n + 1] selects the label at index [n]. *)
Theorem versionRange_three_generations (p : Project) :
  versions p = ["1.0"; "2.0"; "3.0"] ->
  versionRange p "" "" = Some "" /\
  versionRange p "" "2" = Some "- 2.0" /\
  versionRange p "1" "" = Some "1.0 -" /\
  versionRange p "2" "3" = Some "2.0 - 3.0" /\
  (forall (n : nat) (label : string),
      versions p !! n = Some label ->
      version_label p (Py.str (N.of_nat (S n))) = Some label /\
      versionRange p "" (Py.str (N.of_nat (S n))) = Some ("- " +:+ label) /\
      versionRange p (Py.str (N.of_nat (S n))) "" = Some (label +:+ " -")).
Proof.
  intros Hv. unfold versionRange, version_label. rewrite Hv.
  do 4 (split; [reflexivity |]).
  intros n label Hn.
  destruct n as [|[|[|n]]]; try discriminate Hn;
    injection Hn as <-; repeat split; reflexivity.
Qed.

Lemma versionRange_three_generations_witness :
  versionRange (mkProject "" "" "" "" "" "" ["1.0"; "2.0"; "3.0"] 3 false None)
               "2" "3" = Some "2.0 - 3.0".
Proof.
  apply (versionRange_three_generations
           (mkProject "" "" "" "" "" "" ["1.0"; "2.0"; "3.0"] 3 false None)).
  reflexivity.
Defined.

(** ** Access in signatures *)

Lemma sigAccess_public (access : string) (rest : list string) :
  Py.split access = "public" :: rest -> sigAccess access = "".
Proof. unfold sigAccess. by intros ->. Qed.

Lemma sigAccess_signals (access : string) (rest : list string) :
  Py.split access = "signals" :: rest -> sigAccess access = "protected".
Proof. unfold sigAccess. by intros ->. Qed.

(** Two methods that differ at most in their access, their inherited
    attributes and their virtual catcher code have the same signature when
    their accesses contribute the same text. *)
Lemma method_signature_access (c : Callable) (a1 a2 : string)
    (virtual const static abstract : bool) (vc1 vc2 : string)
    (b1 b2 : CodeBase) :
  sigAccess a1 = sigAccess a2 ->
  signature (Leaf b1 (Method c a1 virtual const static abstract vc1))
  = signature (Leaf b2 (Method c a2 virtual const static abstract vc2)).
Proof. cbn. by intros ->. Qed.

Lemma matches_equal_signature (x y : Code) :
  type_of x = type_of y -> signature x = signature y ->
  is_Some (signature x) -> matches x y = Some true.
Proof.
  intros Hk Hs [s Hx]. unfold matches.
  rewrite bool_decide_eq_true_2 by done.
  rewrite <- Hs, Hx. cbn. by rewrite String.eqb_refl.
Qed.

Lemma find_match_head (x y : Code) (l : list Code) :
  matches x y = Some true -> find_match x (y :: l) = Some (Some (y, l)).
Proof. cbn. by intros ->. Qed.

(** C10: an access whose first word is [public] adds nothing to a
    signature, as the empty access does, and one whose first word is
    [signals] adds [protected]; so two methods that are otherwise identical,
    one under [public] and one with the empty access, or one under [signals]
    and one under [protected], have equal signatures and the merge matches
    them. *)
Theorem sigAccess_normalises_methods (c : Callable) (access : string)
    (rest : list string) (virtual const static abstract : bool)
    (vc1 vc2 : string) (b1 b2 : CodeBase) :
  let m1 := Leaf b1 (Method c access virtual const static abstract vc1) in
  let m2 other := Leaf b2 (Method c other virtual const static abstract vc2) in
  (Py.split access = "public" :: rest ->
   sigAccess access = "" /\ sigAccess "" = "" /\
   signature m1 = signature (m2 "") /\
   (is_Some (signature m1) ->
    matches m1 (m2 "") = Some true /\
    forall ssc, find_match m1 (m2 "" :: ssc) = Some (Some (m2 "", ssc)))) /\
  (Py.split access = "signals" :: rest ->
   sigAccess access = "protected" /\ sigAccess "protected" = "protected" /\
   signature m1 = signature (m2 "protected") /\
   (is_Some (signature m1) ->
    matches m1 (m2 "protected") = Some true /\
    forall ssc, find_match m1 (m2 "protected" :: ssc)
                = Some (Some (m2 "protected", ssc)))).
Proof.
  intros m1 m2. split; intros Hw.
  - pose proof (sigAccess_public _ _ Hw) as Ha.
    assert (signature m1 = signature (m2 "")) as Hs
      by (apply method_signature_access; by rewrite Ha).
    split; [done |]. split; [reflexivity |].
    split; [done |]. intros Hsome.
    assert (matches m1 (m2 "") = Some true) as Hm
      by (by apply matches_equal_signature).
    split; [done |]. intros ssc. by apply find_match_head.
  - pose proof (sigAccess_signals _ _ Hw) as Ha.
    assert (signature m1 = signature (m2 "protected")) as Hs
      by (apply method_signature_access; by rewrite Ha).
    split; [done |]. split; [reflexivity |].
    split; [done |]. intros Hsome.
    assert (matches m1 (m2 "protected") = Some true) as Hm
      by (by apply matches_equal_signature).
    split; [done |]. intros ssc. by apply find_match_head.
Qed.

Lemma sigAccess_normalises_methods_witness :
  let c := mkCallable "size" "int" "" "" [] "" "" in
  let b := mkCodeBase "" "" "" "" "" "" in
  matches (Leaf b (Method c "public slots" false true false false ""))
          (Leaf b (Method c "" false true false false "")) = Some true /\
  matches (Leaf b (Method c "signals" false true false false ""))
          (Leaf b (Method c "protected" false true false false ""))
  = Some true.
Proof.
  intros c b. split.
  - destruct (sigAccess_normalises_methods c "public slots" ["slots"]
                false true false false "" "" b b) as [Hpublic _].
    destruct (Hpublic eq_refl) as (_ & _ & _ & Hm).
    apply Hm. by eexists.
  - destruct (sigAccess_normalises_methods c "signals" []
                false true false false "" "" b b) as [_ Hsignals].
    destruct (Hsignals eq_refl) as (_ & _ & _ & Hm).
    apply Hm. by eexists.
Defined.

(** ** The indenting file writer *)

Lemma string_of_list_ascii_snoc (l : list ascii) (c : ascii) (s : string) :
  string_of_list_ascii (l ++ [c]) +:+ s = string_of_list_ascii l +:+ String c s.
Proof.
  induction l as [|a l IH]; [done |].
  cbn [app string_of_list_ascii]. by rewrite !append_cons, IH.
Qed.

Lemma split_on_go_cons (sep : ascii) (s : string) (cur : list ascii) :
  exists x l, Py.split_on_go sep s cur = x :: l.
Proof.
  revert cur. induction s as [|c s IH]; intros cur; cbn.
  - by eexists _, _.
  - destruct (Ascii.eqb c sep); [by eexists _, _ | apply IH].
Qed.

Lemma write_lines_cons (a x : string) (l : list string) (indent : bool)
    (f : IndentFile) :
  write_lines (a :: x :: l) indent f
  = write_lines (x :: l) indent
      (set_indentnext true (raw_write (a +:+ nl) (write_pad indent f))).
Proof. reflexivity. Qed.

(** Without indentation the lines of a text are written back as they are. *)
Lemma write_lines_unindented (s : string) (cur : list ascii) (f : IndentFile) :
  let f' := write_lines (Py.split_on_go "010" s cur) false f in
  out f' = out f +:+ string_of_list_ascii (rev cur) +:+ s /\
  blank_pending f' = blank_pending f /\ nrindents f' = nrindents f /\
  f_indent f' = f_indent f /\ f_name f' = f_name f.
Proof.
  revert cur f. induction s as [|c s IH]; intros cur f.
  - cbn. rewrite append_empty_r.
    destruct (String.eqb_spec (string_of_list_ascii (rev cur)) "") as [E|E].
    + rewrite E. cbn. by rewrite append_empty_r.
    + done.
  - cbn [Py.split_on_go]. destruct (Ascii.eqb_spec c "010") as [->|Hc].
    + destruct (split_on_go_cons "010" s []) as (x & l & Hx).
      specialize (IH [] (set_indentnext true
        (raw_write (string_of_list_ascii (rev cur) +:+ nl)
                   (write_pad false f)))).
      rewrite Hx in IH |- *. rewrite write_lines_cons.
      destruct IH as (Ho & Hb & Hn & Hi & Hf).
      rewrite Ho, Hb, Hn, Hi, Hf. cbn.
      by rewrite !append_assoc.
    + specialize (IH (c :: cur) f). cbn [rev] in IH.
      destruct IH as (Ho & Hb & Hn & Hi & Hf).
      rewrite Ho, Hb, Hn, Hi, Hf.
      by rewrite string_of_list_ascii_snoc.
Qed.

(** [write(text, False)] appends the text, after a pending blank line. *)
Lemma write_unindented (text : string) (f : IndentFile) :
  let f' := write text false f in
  out f' = out f +:+ lead f text +:+ text /\
  blank_pending f' = blank_pending f && String.eqb text "".
Proof.
  unfold write, lead.
  destruct (String.eqb_spec text "") as [->|Ht].
  - cbn. rewrite andb_false_r, andb_true_r. by rewrite !append_empty_r.
  - rewrite andb_true_r, andb_false_r. unfold Py.split_on.
    destruct (blank_pending f) eqn:Hb.
    + destruct (write_lines_unindented text [] (set_blank false (raw_write nl f)))
        as (Ho & Hb' & _).
      cbn in Ho, Hb' |- *. rewrite Ho. split; [|done].
      by rewrite !append_assoc.
    + destruct (write_lines_unindented text [] f) as (Ho & Hb' & _).
      cbn in Ho, Hb' |- *. rewrite Ho, Hb'. done.
Qed.

(** ** Conditionals around a child *)

Lemma lead_chain (f f' f'' : IndentFile) (t1 t2 : string) :
  out f' = out f +:+ lead f t1 +:+ t1 ->
  blank_pending f' = blank_pending f && String.eqb t1 "" ->
  out f'' = out f' +:+ lead f' t2 +:+ t2 ->
  blank_pending f'' = blank_pending f' && String.eqb t2 "" ->
  out f'' = out f +:+ lead f (t1 +:+ t2) +:+ (t1 +:+ t2) /\
  blank_pending f'' = blank_pending f && String.eqb (t1 +:+ t2) "".
Proof.
  unfold lead. intros Ho1 Hb1 Ho2 Hb2. rewrite Ho2, Hb2, Hb1, Ho1.
  destruct (blank_pending f), t1 as [|c1 t1], t2 as [|c2 t2]; cbn;
    rewrite ?append_empty_r, ?append_assoc, ?append_nil_l, ?append_cons;
    done.
Qed.

Lemma open_if_out (tag cond : string) (f : IndentFile) :
  let f' := if String.eqb tag "" then f else open_if cond f in
  out f' = out f +:+ lead f (if_text tag cond) +:+ if_text tag cond /\
  blank_pending f' = blank_pending f && String.eqb (if_text tag cond) "".
Proof.
  unfold if_text, open_if. destruct (String.eqb tag "").
  - unfold lead. cbn. by rewrite andb_false_r, andb_true_r, !append_empty_r.
  - apply write_unindented.
Qed.

Lemma close_if_out (tag : string) (f : IndentFile) :
  let f' := if String.eqb tag "" then f else close_if f in
  out f' = out f +:+ lead f (end_text tag) +:+ end_text tag /\
  blank_pending f' = blank_pending f && String.eqb (end_text tag) "".
Proof.
  unfold end_text, close_if. destruct (String.eqb tag "").
  - unfold lead. cbn. by rewrite andb_false_r, andb_true_r, !append_empty_r.
  - apply write_unindented.
Qed.

Section SipFacts.

Context (prj : Project)
        (sip_child :
           bool -> HeaderFile -> Code -> IndentFile -> option IndentFile)
        (latest_sip : bool) (hf : HeaderFile).

#[local] Abbreviation wrapped := (sip_wrapped prj sip_child latest_sip hf).
#[local] Abbreviation code_sip := (Code_sip prj sip_child latest_sip hf).
#[local] Abbreviation class_sip :=
  (Class_sip_content prj sip_child latest_sip hf).

Lemma Code_sip_app (pre post : list Code) (f : IndentFile) :
  code_sip (pre ++ post) f = code_sip pre f ≫= code_sip post.
Proof.
  revert f. induction pre as [|c pre IH]; intros f; [done |].
  cbn [app Code_sip]. destruct (String.eqb (status (base c)) ""); [|apply IH].
  destruct (wrapped c f) as [f'|]; [|done].
  cbn. apply IH.
Qed.

Lemma Class_sip_content_app (pre post : list Code) (access : string)
    (f : IndentFile) :
  class_sip (pre ++ post) access f
  = class_sip pre access f ≫= fun r => class_sip post r.1 r.2.
Proof.
  revert access f. induction pre as [|c pre IH]; intros access f; [done |].
  cbn [app Class_sip_content].
  destruct (String.eqb (status (base c)) ""); [|apply IH].
  destruct (wrapped c (access_label c access f).2) as [f'|]; [|done].
  cbn. apply IH.
Qed.

(** What the wrapping of a child writes around the output of the child. *)
Lemma sip_wrapped_out (c : Code) (f0 : IndentFile) (vrange : string) :
  versionRange prj (sgen (base c)) (egen (base c)) = Some vrange ->
  exists f1,
    out f1 = out f0 +:+ lead f0 (opening vrange (base c))
             +:+ opening vrange (base c) /\
    (sip_child latest_sip hf c f1 = None -> wrapped c f0 = None) /\
    forall f2, sip_child latest_sip hf c f1 = Some f2 ->
      exists f3,
        wrapped c f0 = Some f3 /\
        out f3 = out f2 +:+ lead f2 (closing vrange (base c))
                 +:+ closing vrange (base c).
Proof.
  intros Hv. unfold sip_wrapped. rewrite Hv. cbn [mbind option_bind].
  set (b := base c).
  set (g1 := if String.eqb vrange "" then f0 else open_if vrange f0).
  set (g2 := if String.eqb (platforms b) "" then g1
             else open_if (Py.join " || " (Py.split (platforms b))) g1).
  set (g3 := if String.eqb (features b) "" then g2
             else open_if (Py.join " || " (Py.split (features b))) g2).
  exists g3.
  destruct (open_if_out vrange vrange f0) as [Ho1 Hb1].
  destruct (open_if_out (platforms b)
              (Py.join " || " (Py.split (platforms b))) g1) as [Ho2 Hb2].
  destruct (open_if_out (features b)
              (Py.join " || " (Py.split (features b))) g2) as [Ho3 Hb3].
  destruct (lead_chain _ _ _ _ _ Ho1 Hb1 Ho2 Hb2) as [Ho12 Hb12].
  destruct (lead_chain _ _ _ _ _ Ho12 Hb12 Ho3 Hb3) as [Ho123 _].
  split; [|split].
  - unfold opening. fold b.
    etrans; [exact Ho123 | by rewrite !append_assoc].
  - by intros ->.
  - intros f2 ->. cbn [option_bind].
    set (h1 := if String.eqb (features b) "" then f2 else close_if f2).
    set (h2 := if String.eqb (platforms b) "" then h1 else close_if h1).
    set (h3 := if String.eqb vrange "" then h2 else close_if h2).
    exists h3. split; [done |].
    destruct (close_if_out (features b) f2) as [Hc1 Hd1].
    destruct (close_if_out (platforms b) h1) as [Hc2 Hd2].
    destruct (close_if_out vrange h2) as [Hc3 Hd3].
    destruct (lead_chain _ _ _ _ _ Hc1 Hd1 Hc2 Hd2) as [Hc12 Hd12].
    destruct (lead_chain _ _ _ _ _ Hc12 Hd12 Hc3 Hd3) as [Hc123 _].
    unfold closing. fold b.
    etrans; [exact Hc123 | by rewrite !append_assoc].
Qed.

(** C8: a child with an empty status is written between the [%If] lines for
    its generation range, its platforms and its features, in this order, and
    the matching [%End] lines in the opposite order; the pair of an empty tag
    is left out, and the platforms or features of a tag are joined by
    [" || "] inside one [%If].  This holds for the children written by
    [Code.sip] and for the members written by [Class.sip]. *)
Theorem Code_sip_nests_conditionals (c : Code) (vrange : string) :
  status (base c) = "" ->
  versionRange prj (sgen (base c)) (egen (base c)) = Some vrange ->
  (forall pre post f f0,
      code_sip pre f = Some f0 ->
      exists f1,
        out f1 = out f0 +:+ lead f0 (opening vrange (base c))
                 +:+ opening vrange (base c) /\
        (sip_child latest_sip hf c f1 = None ->
         code_sip (pre ++ c :: post) f = None) /\
        forall f2, sip_child latest_sip hf c f1 = Some f2 ->
          exists f3,
            out f3 = out f2 +:+ lead f2 (closing vrange (base c))
                     +:+ closing vrange (base c) /\
            code_sip (pre ++ c :: post) f = code_sip post f3) /\
  (forall pre post access f access0 f0,
      class_sip pre access f = Some (access0, f0) ->
      let g0 := (access_label c access0 f0).2 in
      exists f1,
        out f1 = out g0 +:+ lead g0 (opening vrange (base c))
                 +:+ opening vrange (base c) /\
        (sip_child latest_sip hf c f1 = None ->
         class_sip (pre ++ c :: post) access f = None) /\
        forall f2, sip_child latest_sip hf c f1 = Some f2 ->
          exists f3,
            out f3 = out f2 +:+ lead f2 (closing vrange (base c))
                     +:+ closing vrange (base c) /\
            class_sip (pre ++ c :: post) access f
            = class_sip post (access_label c access0 f0).1 f3).
Proof.
  intros Hst Hv. split.
  - intros pre post f f0 Hpre.
    rewrite Code_sip_app, Hpre. cbn [mbind option_bind Code_sip].
    rewrite Hst. cbn [String.eqb].
    destruct (sip_wrapped_out c f0 vrange Hv) as (f1 & Ho & Hnone & Hsome).
    exists f1. split; [done |]. split.
    + intros H. by rewrite (Hnone H).
    + intros f2 H. destruct (Hsome f2 H) as (f3 & -> & Ho3). by exists f3.
  - intros pre post access f access0 f0 Hpre g0.
    rewrite Class_sip_content_app, Hpre.
    cbn [mbind option_bind Class_sip_content fst snd].
    rewrite Hst. cbn [String.eqb]. fold g0.
    destruct (sip_wrapped_out c g0 vrange Hv) as (f1 & Ho & Hnone & Hsome).
    exists f1. split; [done |]. split.
    + intros H. by rewrite (Hnone H).
    + intros f2 H. destruct (Hsome f2 H) as (f3 & -> & Ho3). by exists f3.
Qed.

End SipFacts.

(** The example child is written inside exactly three nested pairs. *)
Example Code_sip_three_pairs :
  out <$> Code_sip example_project example_sip_child true example_header
            [example_child] (new_file "f.sip" 4)
  = Some ("%If (2.0 - 3.0)" +:+ nl +:+ "%If (win || mac)" +:+ nl
          +:+ "%If (ssl)" +:+ nl +:+ "void f();" +:+ nl
          +:+ "%End" +:+ nl +:+ "%End" +:+ nl +:+ "%End" +:+ nl).
Proof. reflexivity. Qed.

(** A public method of a class is wrapped in the same way, after the label
    of its access. *)
Example Class_sip_three_pairs :
  (fun r => out r.2)
    <$> Class_sip_content example_project example_sip_child true
          example_header
          [Leaf (mkCodeBase "win mac" "ssl" "" "" "2" "3")
                (Method (mkCallable "f" "void" "" "" [] "" "") "public"
                        false false false false "")]
          "private" (iadd 1 (new_file "f.sip" 4))
  = Some (nl +:+ "public:" +:+ nl
          +:+ "%If (2.0 - 3.0)" +:+ nl +:+ "%If (win || mac)" +:+ nl
          +:+ "%If (ssl)" +:+ nl +:+ "    void f();" +:+ nl
          +:+ "%End" +:+ nl +:+ "%End" +:+ nl +:+ "%End" +:+ nl).
Proof. reflexivity. Qed.

(** With empty tags no conditional is written. *)
Example Code_sip_no_pair :
  out <$> Code_sip example_project example_sip_child true example_header
            [Leaf (mkCodeBase "" "" "" "" "" "")
                  (Function (mkCallable "f" "void" "" "" [] "" ""))]
            (new_file "f.sip" 4)
  = Some ("void f();" +:+ nl).
Proof. reflexivity. Qed.

Lemma Code_sip_nests_conditionals_witness :
  exists f1,
    out f1 = "%If (2.0 - 3.0)" +:+ nl +:+ "%If (win || mac)" +:+ nl
             +:+ "%If (ssl)" +:+ nl.
Proof.
  destruct (Code_sip_nests_conditionals example_project example_sip_child
              true example_header example_child "2.0 - 3.0"
              eq_refl eq_refl) as [Hcode _].
  destruct (Hcode [] [] (new_file "f.sip" 4) (new_file "f.sip" 4) eq_refl)
    as (f1 & Ho & _).
  exists f1. exact Ho.
Defined.

(** ** Module generation *)

Lemma write_pad_name (indent : bool) (f : IndentFile) :
  f_name (write_pad indent f) = f_name f.
Proof. unfold write_pad. by destruct (indent && indentnext f). Qed.

Lemma write_lines_name (lines : list string) (indent : bool) (f : IndentFile) :
  f_name (write_lines lines indent f) = f_name f.
Proof.
  revert f. induction lines as [|a l IH]; intros f; [done |].
  destruct l as [|x l].
  - cbn. destruct (String.eqb a ""); cbn; [done | apply write_pad_name].
  - rewrite write_lines_cons, IH. cbn. apply write_pad_name.
Qed.

Lemma write_name (data : string) (indent : bool) (f : IndentFile) :
  f_name (write data indent f) = f_name f.
Proof.
  unfold write. destruct (String.eqb data ""); [done |].
  cbn. rewrite write_lines_name. by destruct (blank_pending f).
Qed.

Lemma blank_name (f : IndentFile) : f_name (blank f) = f_name f.
Proof. unfold blank. by destruct (suppressblank f). Qed.

Section GenerateFacts.

Context (sip_child :
           bool -> HeaderFile -> Code -> IndentFile -> option IndentFile)
        (abspath : string -> string)
        (path_join : string -> string -> string)
        (basename splitext_root : string -> string)
        (asctime : nat -> string)
        (open_error : gmap string string -> string -> option string).

#[local] Abbreviation pname := (sip_pname path_join basename splitext_root).
#[local] Abbreviation createSIPFile :=
  (_createSIPFile path_join basename splitext_root asctime open_error).
#[local] Abbreviation headers :=
  (generate_headers sip_child path_join basename splitext_root asctime
                    open_error).
#[local] Abbreviation generate :=
  (generateModule sip_child abspath path_join basename splitext_root asctime
                  open_error).

(** A failed creation leaves the files alone and yields no file. *)
Lemma createSIPFile_error (st : GenState) (od : string) (m : Module_)
    (hf : option HeaderFile) (detail : string) :
  open_error (gs_files st) (pname od m hf) = Some detail ->
  (createSIPFile st od m hf).2 = None /\
  gs_files (createSIPFile st od m hf).1 = gs_files st.
Proof.
  intros H. unfold _createSIPFile, _createIndentFile. by rewrite H.
Qed.

(** A successful creation yields the file under its path name. *)
Lemma createSIPFile_created (st : GenState) (od : string) (m : Module_)
    (hf : option HeaderFile) :
  open_error (gs_files st) (pname od m hf) = None ->
  exists f,
    (createSIPFile st od m hf).2 = Some f /\
    f_name f = pname od m hf /\
    gs_prj (createSIPFile st od m hf).1 = gs_prj st /\
    gs_files (createSIPFile st od m hf).1
    = <[pname od m hf := ""]> (gs_files st).
Proof.
  intros H. unfold _createSIPFile, _createIndentFile. rewrite H.
  cbn [fst snd gs_prj gs_files gs_clock].
  eexists. split; [done |]. split; [|done].
  unfold sip_boilerplate. rewrite blank_name, write_name.
  destruct (String.eqb (sipcomments (gs_prj st)) "");
    by rewrite !write_name.
Qed.

Lemma createSIPFile_cases (st : GenState) (od : string) (m : Module_)
    (hf : option HeaderFile) :
  (createSIPFile st od m hf).2 = None <->
  is_Some (open_error (gs_files st) (pname od m hf)).
Proof.
  destruct (open_error (gs_files st) (pname od m hf)) as [d|] eqn:E.
  - split; [by eexists |]. intros _. by eapply createSIPFile_error.
  - destruct (createSIPFile_created st od m hf E) as (f & Hf & _).
    rewrite Hf. split; [done |]. by intros [? ?].
Qed.

Lemma headers_cons (od : string) (m : Module_) (latest_sip : bool)
    (hf : HeaderFile) (rest : list HeaderFile) (st : GenState) :
  headers od m latest_sip (hf :: rest) st
  = match (createSIPFile st od m (Some hf)).2 with
    | None => Some ((createSIPFile st od m (Some hf)).1, None)
    | Some f =>
        g ← HeaderFile_sip (gs_prj (createSIPFile st od m (Some hf)).1)
              sip_child latest_sip hf f;
        q ← headers od m latest_sip rest
              (close_file (f_name f) g (createSIPFile st od m (Some hf)).1);
        Some (q.1, match q.2 with
                   | Some hfnames => Some (basename (f_name f) :: hfnames)
                   | None => None
                   end)
    end.
Proof. reflexivity. Qed.






Lemma generate_unfold (st : GenState) (m : Module_) (od : string)
    (saveod latest_sip : bool) :
  generate st m od saveod latest_sip
  = q ← headers (abspath od) m latest_sip (mod_content m)
          (start_state abspath st od saveod);
    match q.2 with
    | None => Some (false, q.1)
    | Some hfnames =>
        let r := createSIPFile q.1 (abspath od) m None in
        match r.2 with
        | None => Some (false, r.1)
        | Some f =>
            Some (true,
                  close_file (f_name f)
                    (write_module (gs_prj r.1) m latest_sip hfnames f) r.1)
        end
    end.
Proof. reflexivity. Qed.





(** The state and the file after a successful creation. *)
Lemma createSIPFile_created_eq (st : GenState) (od : string) (m : Module_)
    (hf : option HeaderFile) :
  open_error (gs_files st) (pname od m hf) = None ->
  createSIPFile st od m hf
  = (mkGenState (gs_prj st) (<[pname od m hf := ""]> (gs_files st))
                (S (gs_clock st)),
     Some (sip_boilerplate basename splitext_root (gs_prj st) m hf
             (asctime (gs_clock st)) (new_file (pname od m hf) 4))).
Proof.
  intros H. unfold _createSIPFile, _createIndentFile. by rewrite H.
Qed.


End GenerateFacts.

Lemma example_renders (p : Project) :
  renders example_sip_child true p (mod_content example_module).
Proof.
  intros hf f Hin.
  repeat (apply elem_of_cons in Hin as [->|Hin]; [by eexists |]).
  by apply elem_of_nil in Hin.
Qed.


(** ** The merge engine *)

(** Induction over code elements that reaches the content of classes and
    namespaces. *)
Lemma Code_nested_ind (P : Code -> Prop) :
  (forall b c l, Forall P l -> P (Class b c l)) ->
  (forall b n t l, Forall P l -> P (Namespace b n t l)) ->
  (forall b d, P (Leaf b d)) ->
  forall c, P c.
Proof.
  intros Hclass Hns Hleaf. fix IH 1. intros [b c l|b n t l|b d].
  - apply Hclass. induction l as [|x l IHl]; constructor; [apply IH | exact IHl].
  - apply Hns. induction l as [|x l IHl]; constructor; [apply IH | exact IHl].
  - apply Hleaf.
Qed.

Lemma merge_item_unfold (gen : N) (dsi : Code) (ssc : list Code) :
  merge_item gen dsi ssc
  = if negb (isCurrent dsi) then Some (dsi, ssc)
    else if isManualCode dsi then Some (dsi, ssc)
    else
      r ← find_match dsi ssc;
      match r with
      | None => Some (set_egen (Py.str gen) dsi, ssc)
      | Some (ssi, ssc') => d ← merge_content gen dsi ssi; Some (d, ssc')
      end.
Proof.
  destruct dsi as [b c l|b n t l|b d]; cbn [merge_item merge_content];
    destruct (negb _); try done; destruct (isManualCode _); try done;
    destruct (find_match _ ssc) as [[[ssi ssc']|]|]; try done;
    cbn [mbind option_bind];
    by destruct (merge_existing _ _ _).
Qed.

Lemma merge_content_mergeCode (gen : N) (dsi ssi dsi' : Code) :
  merge_content gen dsi ssi = Some dsi' ->
  base dsi' = base dsi /\ type_of dsi' = type_of dsi /\
  (type_of dsi = KClass \/ type_of dsi = KNamespace ->
   _mergeCode gen (content_of dsi) (content_of ssi)
   = Some (content_of dsi')) /\
  (type_of dsi <> KClass -> type_of dsi <> KNamespace -> dsi' = dsi).
Proof.
  unfold _mergeCode.
  destruct dsi as [b c l|b n t l|b d]; cbn [merge_content content_of].
  - destruct (merge_existing _ _ _) as [q|]; [|done]. cbn.
    intros [= <-]. by repeat split.
  - destruct (merge_existing _ _ _) as [q|]; [|done]. cbn.
    intros [= <-]. by repeat split.
  - intros [= <-]. repeat split; try done. by intros [?|?]; destruct d.
Qed.

(** What the scan for a match returns. *)
Lemma find_match_found (dsi ssi : Code) (ssc rest : list Code) :
  find_match dsi ssc = Some (Some (ssi, rest)) ->
  exists pre post,
    ssc = pre ++ ssi :: post /\ rest = pre ++ post /\
    matches dsi ssi = Some true /\
    Forall (fun x => matches dsi x = Some false) pre.
Proof.
  revert rest. induction ssc as [|x ssc IH]; intros rest; [done |].
  cbn [find_match]. destruct (matches dsi x) as [[|]|] eqn:Hm; cbn; [| |done].
  - intros [= <- <-]. by exists [], ssc.
  - destruct (find_match dsi ssc) as [[[found rest']|]|]; cbn; [|done|done].
    intros [= <- <-].
    destruct (IH rest' eq_refl) as (pre & post & -> & -> & Hmatch & Hpre).
    exists (x :: pre), post. repeat split; try done. by constructor.
Qed.

Lemma find_match_none (dsi : Code) (ssc : list Code) :
  find_match dsi ssc = Some None <->
  Forall (fun x => matches dsi x = Some false) ssc.
Proof.
  induction ssc as [|x ssc IH]; [done |]. cbn [find_match]. split.
  - destruct (matches dsi x) as [[|]|] eqn:Hm; cbn; [done| |done].
    destruct (find_match dsi ssc) as [[[found rest']|]|]; cbn; [done| |done].
    intros _. constructor; [done | by apply IH].
  - intros H. apply Forall_cons in H as [-> H]. cbn.
    apply IH in H. by rewrite H.
Qed.

Lemma find_match_no_candidate (dsi : Code) (ssc : list Code) :
  is_Some (find_match dsi ssc) ->
  (forall ssi, ssi ∈ ssc -> matches dsi ssi <> Some true) ->
  find_match dsi ssc = Some None.
Proof.
  induction ssc as [|x ssc IH]; [done |]. cbn [find_match]. intros Hsome Hno.
  destruct (matches dsi x) as [[|]|] eqn:Hm; cbn in *.
  - exfalso. apply (Hno x); [left | done].
  - rewrite IH; [done | |].
    + destruct (find_match dsi ssc); [by eexists | by destruct Hsome].
    + intros ssi Hin. apply Hno. by right.
  - by destruct Hsome.
Qed.

Lemma find_match_total (dsi : Code) (ssc : list Code) :
  (forall ssi, ssi ∈ ssc -> is_Some (matches dsi ssi)) ->
  is_Some (find_match dsi ssc).
Proof.
  induction ssc as [|x ssc IH]; intros H; [by eexists |]. cbn [find_match].
  destruct (H x) as [m ->]; [left |]. cbn. destruct m; [by eexists |].
  destruct IH as [r ->]; [intros ssi Hin; apply H; by right |].
  by eexists.
Qed.

(** The attributes [set_sgen] and [set_egen] leave alone. *)
Lemma set_egen_base (g : string) (c : Code) :
  egen (base (set_egen g c)) = g /\ sgen (base (set_egen g c)) = sgen (base c) /\
  type_of (set_egen g c) = type_of c /\
  content_of (set_egen g c) = content_of c /\
  signature (set_egen g c) = signature c.
Proof. by destruct c. Qed.

Lemma set_sgen_base (g : string) (c : Code) :
  sgen (base (set_sgen g c)) = g /\ egen (base (set_sgen g c)) = egen (base c) /\
  type_of (set_sgen g c) = type_of c /\
  content_of (set_sgen g c) = content_of c /\
  signature (set_sgen g c) = signature c.
Proof. by destruct c. Qed.

Lemma merge_item_case (gen : N) (dsi dsi' : Code) (ssc ssc' : list Code) :
  merge_item gen dsi ssc = Some (dsi', ssc') <->
  merge_case gen dsi ssc dsi' ssc'.
Proof.
  rewrite merge_item_unfold. split.
  - destruct (isCurrent dsi) eqn:Hc; cbn [negb];
      [|intros [= <- <-]; by constructor].
    destruct (isManualCode dsi) eqn:Hm; [intros [= <- <-]; by constructor |].
    destruct (find_match dsi ssc) as [[[ssi rest]|]|] eqn:Hf; cbn; [| |done].
    + destruct (merge_content gen dsi ssi) as [d|] eqn:Hd; cbn; [|done].
      intros [= <- <-]. by econstructor.
    + intros [= <- <-]. by constructor.
  - intros [Hc|Hc Hm|Hc Hm Hf|ssi rest d Hc Hm Hf Hd]; rewrite Hc; cbn [negb];
      try done; rewrite Hm; try done; rewrite Hf; cbn; [done |].
    by rewrite Hd.
Qed.

Section MergeLoopFacts.

Context (f : Code -> list Code -> option (Code * list Code)).

Lemma merge_existing_cons (d : Code) (ds ssc : list Code) :
  merge_existing f (d :: ds) ssc
  = r ← f d ssc; q ← merge_existing f ds r.2; Some (r.1 :: q.1, q.2).
Proof. reflexivity. Qed.

Lemma merge_existing_length (ds ssc ds' rem : list Code) :
  merge_existing f ds ssc = Some (ds', rem) -> length ds' = length ds.
Proof.
  revert ssc ds'. induction ds as [|d ds IH]; intros ssc ds'.
  - by intros [= <- <-].
  - rewrite merge_existing_cons.
    destruct (f d ssc) as [[d' s1]|]; cbn; [|done].
    destruct (merge_existing f ds s1) as [[ds1 r1]|] eqn:E; cbn; [|done].
    intros [= <- <-]. cbn. f_equal. by eapply IH.
Qed.

(** The loop reaches every existing item, in order, with the parsed items
    that the items before it have left. *)
Lemma merge_existing_split (pre post : list Code) (d : Code)
    (ssc ds' rem : list Code) :
  merge_existing f (pre ++ d :: post) ssc = Some (ds', rem) ->
  exists pre' s1 d' s2 post',
    merge_existing f pre ssc = Some (pre', s1) /\
    f d s1 = Some (d', s2) /\
    merge_existing f post s2 = Some (post', rem) /\
    ds' = pre' ++ d' :: post' /\ length pre' = length pre.
Proof.
  revert ssc ds'. induction pre as [|x pre IH]; intros ssc ds'.
  - cbn [app]. rewrite merge_existing_cons.
    destruct (f d ssc) as [[d' s2]|] eqn:Hd; cbn; [|done].
    destruct (merge_existing f post s2) as [[post' r]|] eqn:E; cbn; [|done].
    intros [= <- <-]. by exists [], ssc, d', s2, post'.
  - cbn [app]. rewrite !merge_existing_cons.
    destruct (f x ssc) as [[x' s0]|] eqn:Hx; cbn; [|done].
    destruct (merge_existing f (pre ++ d :: post) s0) as [[l r]|] eqn:E; cbn;
      [|done].
    intros [= <- <-].
    destruct (IH _ _ E) as (pre' & s1 & d' & s2 & post' & Hpre & Hd & Hpost
                            & -> & Hlen).
    exists (x' :: pre'), s1, d', s2, post'.
    rewrite Hpre. cbn. by rewrite Hlen.
Qed.

End MergeLoopFacts.

(** An existing item consumes at most the parsed item it matches. *)
Lemma merge_case_consumes (gen : N) (dsi dsi' : Code) (ssc ssc' : list Code) :
  merge_case gen dsi ssc dsi' ssc' ->
  ssc' = ssc \/
  exists pre ssi post,
    ssc = pre ++ ssi :: post /\ ssc' = pre ++ post /\
    isCurrent dsi = true /\ isManualCode dsi = false /\
    matches dsi ssi = Some true.
Proof.
  intros [Hc|Hc Hm|Hc Hm Hf|ssi rest d Hc Hm Hf Hd]; try by left.
  right. apply find_match_found in Hf as (pre & post & -> & -> & Hmatch & _).
  by exists pre, ssi, post.
Qed.

(** The parsed items that are left keep their relative order. *)
Lemma merge_existing_sublist (gen : N) (ds ssc ds' rem : list Code) :
  merge_existing (merge_item gen) ds ssc = Some (ds', rem) ->
  sublist rem ssc.
Proof.
  revert ssc ds'. induction ds as [|d ds IH]; intros ssc ds'.
  - by intros [= <- <-].
  - rewrite merge_existing_cons.
    destruct (merge_item gen d ssc) as [[d' s1]|] eqn:Hd; cbn; [|done].
    destruct (merge_existing _ ds s1) as [[ds1 r1]|] eqn:E; cbn; [|done].
    intros [= <- <-]. apply IH in E. etrans; [exact E |].
    apply merge_item_case, merge_case_consumes in Hd
      as [->|(pre & ssi & post & -> & -> & _)]; [done |].
    apply sublist_app; [done |]. by apply sublist_cons.
Qed.

(** A parsed item is left unless a current item that is not manual code
    matches it. *)
Lemma merge_existing_consumed (gen : N) (ds ssc ds' rem : list Code)
    (ssi : Code) :
  merge_existing (merge_item gen) ds ssc = Some (ds', rem) ->
  ssi ∈ ssc ->
  ssi ∈ rem \/
  exists dsi, dsi ∈ ds /\ isCurrent dsi = true /\ isManualCode dsi = false /\
              matches dsi ssi = Some true.
Proof.
  revert ssc ds'. induction ds as [|d ds IH]; intros ssc ds'.
  - intros [= <- <-]. by left.
  - rewrite merge_existing_cons.
    destruct (merge_item gen d ssc) as [[d' s1]|] eqn:Hd; cbn; [|done].
    destruct (merge_existing _ ds s1) as [[ds1 r1]|] eqn:E; cbn; [|done].
    intros [= <- <-] Hin.
    assert (ssi ∈ s1 \/ (isCurrent d = true /\ isManualCode d = false /\
                          matches d ssi = Some true)) as [Hin1|Hmatch].
    { apply merge_item_case, merge_case_consumes in Hd
        as [->|(pre & x & post & -> & -> & Hc & Hm & Hx)]; [by left |].
      apply elem_of_app in Hin as [Hin|Hin];
        [left; apply elem_of_app; by left |].
      apply elem_of_cons in Hin as [->|Hin]; [by right |].
      left. apply elem_of_app. by right. }
    + destruct (IH _ _ E Hin1) as [Hrem|(dsi & Hdsi & H)]; [by left |].
      right. exists dsi. split; [by right | done].
    + right. exists d. split; [left | done].
Qed.

Lemma signatures_defined_signature (c : Code) :
  signatures_defined c = true -> is_Some (signature c).
Proof.
  destruct c as [b c l|b n t l|b d]; cbn; [by eexists | by eexists |].
  by destruct (decl_signature (annos b) d); [eexists |].
Qed.

Lemma signatures_defined_content (c : Code) :
  signatures_defined c = true -> all_defined (content_of c).
Proof.
  unfold all_defined.
  destruct c as [b c l|b n t l|b d]; cbn; [| |by constructor];
    rewrite forallb_forall, Forall_forall; intros H x Hx;
    by apply H, list_elem_of_In.
Qed.

Lemma all_defined_matches (dsi : Code) (ssc : list Code) :
  signatures_defined dsi = true -> all_defined ssc ->
  forall ssi, ssi ∈ ssc -> is_Some (matches dsi ssi).
Proof.
  intros Hd Hs ssi Hin. unfold matches.
  destruct (bool_decide _); [|by eexists].
  destruct (signatures_defined_signature _ Hd) as [x ->].
  eapply Forall_forall in Hs; [|exact Hin].
  destruct (signatures_defined_signature _ Hs) as [y ->]. by eexists.
Qed.

Lemma merge_case_defined (gen : N) (dsi dsi' : Code) (ssc ssc' : list Code) :
  merge_case gen dsi ssc dsi' ssc' -> all_defined ssc -> all_defined ssc'.
Proof.
  intros H Hs. apply merge_case_consumes in H
    as [->|(pre & x & post & -> & -> & _)]; [done |].
  unfold all_defined in *. rewrite Forall_app in Hs |- *.
  destruct Hs as [Hpre Hpost]. by apply Forall_cons in Hpost as [_ Hpost].
Qed.

Lemma merge_existing_total (gen : N) (ds ssc : list Code) :
  Forall (fun d => forall ssc, all_defined ssc ->
                               is_Some (merge_item gen d ssc)) ds ->
  all_defined ssc ->
  is_Some (merge_existing (merge_item gen) ds ssc).
Proof.
  revert ssc. induction ds as [|d ds IH]; intros ssc Hds Hs; [by eexists |].
  apply Forall_cons in Hds as [Hd Hds]. rewrite merge_existing_cons.
  destruct (Hd ssc Hs) as [[d' s1] Hitem]. rewrite Hitem. cbn.
  destruct (IH s1 Hds) as [q ->]; [|by eexists].
  apply merge_item_case in Hitem. by eapply merge_case_defined.
Qed.

(** The merge of an item raises nothing when all signatures are defined. *)
Lemma merge_item_total (gen : N) (dsi : Code) :
  signatures_defined dsi = true ->
  forall ssc, all_defined ssc -> is_Some (merge_item gen dsi ssc).
Proof.
  induction dsi as [b c l IH|b n t l IH|b d] using Code_nested_ind;
    intros Hd ssc Hs; rewrite merge_item_unfold;
    (destruct (negb _); [by eexists |]);
    (destruct (isManualCode _); [by eexists |]);
    (destruct (find_match_total _ ssc (all_defined_matches _ _ Hd Hs))
       as [r Hr]; rewrite Hr; cbn);
    (destruct r as [[ssi rest]|]; [|by eexists]).
  1,2: apply find_match_found in Hr as (pre & post & -> & _);
    destruct (merge_existing_total gen l (content_of ssi)) as [q Hq];
    [ apply signatures_defined_content in Hd;
      apply Forall_forall; intros x Hx;
      eapply Forall_forall in IH; [|exact Hx];
      eapply Forall_forall in Hd; [|exact Hx]; by apply IH
    | apply signatures_defined_content;
      eapply Forall_forall in Hs; [exact Hs |];
      apply elem_of_app; right; left
    | cbn [merge_content]; rewrite Hq; by eexists ].
  by eexists.
Qed.

Lemma mergeCode_total (gen : N) (content ssc : list Code) :
  all_defined content -> all_defined ssc ->
  is_Some (_mergeCode gen content ssc).
Proof.
  intros Hc Hs. unfold _mergeCode.
  destruct (merge_existing_total gen content ssc) as [q ->]; [|done|by eexists].
  eapply Forall_impl; [exact Hc |]. intros d Hd. by apply merge_item_total.
Qed.

(** [str] of a generation number is never the empty string, so an element
    whose end generation is set by the merge is no longer current. *)
Lemma str_nonempty (n : N) : Py.str n <> "".
Proof.
  unfold Py.str. destruct n as [|p]; [done |]. cbn [N.to_uint].
  pose proof (DecimalPos.Unsigned.to_uint_nonnil p) as H.
  by destruct (Pos.to_uint p).
Qed.

Lemma set_egen_not_current (gen : N) (c : Code) :
  isCurrent (set_egen (Py.str gen) c) = false.
Proof.
  unfold isCurrent. destruct (set_egen_base (Py.str gen) c) as [-> _].
  apply String.eqb_neq, str_nonempty.
Qed.

Lemma mergeCode_unfold (gen : N) (content ssc content' : list Code) :
  _mergeCode gen content ssc = Some content' <->
  exists kept rem,
    merge_existing (merge_item gen) content ssc = Some (kept, rem) /\
    content' = kept ++ (set_sgen (Py.str gen) <$> rem).
Proof.
  unfold _mergeCode, append_new. split.
  - destruct (merge_existing _ _ _) as [[kept rem]|]; cbn; [|done].
    intros [= <-]. by exists kept, rem.
  - intros (kept & rem & -> & ->). done.
Qed.

(** Where an existing item ends up, and what the loop did to it. *)
Lemma mergeCode_item (gen : N) (pre post : list Code) (dsi : Code)
    (ssc content' : list Code) :
  _mergeCode gen (pre ++ dsi :: post) ssc = Some content' ->
  exists pre' rem dsi' rem',
    merge_existing (merge_item gen) pre ssc = Some (pre', rem) /\
    merge_case gen dsi rem dsi' rem' /\
    content' !! length pre = Some dsi' /\
    length (pre ++ dsi :: post) <= length content'.
Proof.
  intros H. apply mergeCode_unfold in H as (kept & left & Hloop & ->).
  pose proof (merge_existing_length _ _ _ _ _ Hloop) as Hlen.
  apply merge_existing_split in Hloop
    as (pre' & rem & dsi' & rem' & post' & Hpre & Hitem & _ & -> & Hlen').
  exists pre', rem, dsi', rem'. split; [done |].
  split; [by apply merge_item_case |]. split.
  - rewrite <- Hlen', <- app_assoc. cbn [app]. by apply list_lookup_middle.
  - rewrite <- Hlen, (length_app (pre' ++ dsi' :: post')). lia.
Qed.

Lemma merge_case_missing (gen : N) (dsi dsi' : Code) (rem rem' : list Code) :
  isCurrent dsi = true -> isManualCode dsi = false ->
  merge_case gen dsi rem dsi' rem' ->
  (forall ssi, ssi ∈ rem -> matches dsi ssi <> Some true) ->
  dsi' = set_egen (Py.str gen) dsi /\ rem' = rem.
Proof.
  intros Hc Hm [Hc'|Hc' Hm'|_ _ Hf|ssi rest d _ _ Hf Hd] Hno;
    [congruence | congruence | done |].
  apply find_match_found in Hf as (l1 & l2 & -> & _ & Hmatch & _).
  exfalso. apply (Hno ssi); [|done]. apply elem_of_app. right. left.
Qed.

Lemma merge_case_matched (gen : N) (dsi dsi' : Code) (rem rem' : list Code)
    (ssi : Code) :
  isCurrent dsi = true -> isManualCode dsi = false ->
  merge_case gen dsi rem dsi' rem' ->
  ssi ∈ rem -> matches dsi ssi = Some true ->
  base dsi' = base dsi /\ type_of dsi' = type_of dsi.
Proof.
  intros Hc Hm [Hc'|Hc' Hm'|_ _ Hf|x rest d _ _ Hf Hd] Hin Hmatch;
    [congruence | congruence | |].
  - apply find_match_none in Hf. eapply Forall_forall in Hf; [|exact Hin].
    congruence.
  - by apply merge_content_mergeCode in Hd as (? & ? & _).
Qed.

(** C1: an existing child that is current and is not manual code stays at
    its place in the child list; when no parsed item has its class and its
    signature, its end generation becomes the current generation and
    nothing else of it changes; when the scan finds such an item among the
    parsed items not yet consumed, its start and end generations are
    unchanged.  The merge returns whenever all signatures are defined. *)
Theorem mergeCode_retires_missing (gen : N) (pre post : list Code)
    (dsi : Code) (ssc : list Code) :
  isCurrent dsi = true -> isManualCode dsi = false ->
  (all_defined (pre ++ dsi :: post) -> all_defined ssc ->
   is_Some (_mergeCode gen (pre ++ dsi :: post) ssc)) /\
  forall content',
    _mergeCode gen (pre ++ dsi :: post) ssc = Some content' ->
    length (pre ++ dsi :: post) <= length content' /\
    exists pre' rem dsi',
      merge_existing (merge_item gen) pre ssc = Some (pre', rem) /\
      sublist rem ssc /\
      content' !! length pre = Some dsi' /\
      ((forall ssi, ssi ∈ ssc -> matches dsi ssi <> Some true) ->
       dsi' = set_egen (Py.str gen) dsi /\
       egen (base dsi') = Py.str gen /\ isCurrent dsi' = false) /\
      ((forall ssi, ssi ∈ rem -> matches dsi ssi <> Some true) ->
       dsi' = set_egen (Py.str gen) dsi) /\
      ((exists ssi, ssi ∈ rem /\ matches dsi ssi = Some true) ->
       sgen (base dsi') = sgen (base dsi) /\
       egen (base dsi') = egen (base dsi)).
Proof.
  intros Hc Hm. split; [apply mergeCode_total |].
  intros content' H.
  destruct (mergeCode_item _ _ _ _ _ _ H)
    as (pre' & rem & dsi' & rem' & Hpre & Hcase & Hlook & Hlen).
  split; [done |]. exists pre', rem, dsi'.
  pose proof (merge_existing_sublist _ _ _ _ _ Hpre) as Hsub.
  do 3 (split; [done |]). split; [|split].
  - intros Hno.
    destruct (merge_case_missing _ _ _ _ _ Hc Hm Hcase) as [-> _].
    { intros ssi Hin. apply Hno. by eapply elem_of_sublist. }
    split; [done |]. split; [apply set_egen_base |].
    apply set_egen_not_current.
  - intros Hno. by eapply merge_case_missing.
  - intros (ssi & Hin & Hmatch).
    by destruct (merge_case_matched _ _ _ _ _ _ Hc Hm Hcase Hin Hmatch)
      as [-> _].
Qed.

(** The missing method is retired with generation 2 and stays in the class;
    the class and the other method are as they were. *)
Example mergeCode_retirement :
  _mergeCode 2 example_existing example_parsed
  = Some [example_class (mkCodeBase "" "" "" "" "1" "")
            [example_method "keep" "1" "";
             set_egen "2" (example_method "gone" "1" "")]].
Proof. reflexivity. Qed.

Lemma mergeCode_retires_missing_witness :
  exists content' dsi',
    _mergeCode 2 [example_method "keep" "1" ""; example_method "gone" "1" ""]
               [example_method "keep" "" "unknown"] = Some content' /\
    content' !! 1 = Some dsi' /\
    dsi' = set_egen "2" (example_method "gone" "1" "").
Proof.
  destruct (mergeCode_retires_missing 2 [example_method "keep" "1" ""] []
              (example_method "gone" "1" "")
              [example_method "keep" "" "unknown"] eq_refl eq_refl)
    as [Htotal Hspec].
  destruct Htotal as [content' Hc]; [by repeat constructor.. |].
  destruct (Hspec content' Hc)
    as (_ & pre' & rem & dsi' & _ & _ & Hlook & Hno & _).
  exists content', dsi'. split; [exact Hc |]. split; [exact Hlook |].
  apply Hno. intros ssi Hin. apply list_elem_of_singleton in Hin as ->.
  discriminate.
Defined.

(** C3: an existing child that is not current is left as it is, at its
    place, and takes no parsed item; a parsed item that no current child
    other than manual code matches, whatever retired children it may match,
    is appended with the current generation as its start. *)
Theorem mergeCode_retired_frozen (gen : N) (content ssc content' : list Code) :
  _mergeCode gen content ssc = Some content' ->
  (forall i dsi,
      content !! i = Some dsi -> isCurrent dsi = false ->
      content' !! i = Some dsi /\
      forall l, merge_item gen dsi l = Some (dsi, l)) /\
  (forall ssi,
      ssi ∈ ssc ->
      (forall dsi, dsi ∈ content -> isCurrent dsi = true ->
                   isManualCode dsi = false -> matches dsi ssi <> Some true) ->
      exists j, length content <= j /\
                content' !! j = Some (set_sgen (Py.str gen) ssi)).
Proof.
  intros H. split.
  - intros i dsi Hi Hc.
    assert (forall l, merge_item gen dsi l = Some (dsi, l)) as Hfrozen
      by (intros l; apply merge_item_case; by constructor).
    split; [|done].
    apply list_elem_of_split_length in Hi as (pre & post & -> & ->).
    destruct (mergeCode_item _ _ _ _ _ _ H)
      as (pre' & rem & dsi' & rem' & _ & Hcase & Hlook & _).
    apply merge_item_case in Hcase. rewrite Hfrozen in Hcase.
    by injection Hcase as <- _.
  - intros ssi Hin Hno.
    apply mergeCode_unfold in H as (kept & rem & Hloop & ->).
    pose proof (merge_existing_length _ _ _ _ _ Hloop) as Hlen.
    destruct (merge_existing_consumed _ _ _ _ _ ssi Hloop Hin)
      as [Hrem|(dsi & Hdsi & Hc & Hm & Hmatch)];
      [|by destruct (Hno dsi Hdsi Hc Hm)].
    apply (list_elem_of_fmap_2 (set_sgen (Py.str gen))) in Hrem.
    apply list_elem_of_lookup_1 in Hrem as [k Hk].
    exists (length kept + k). split; [lia |].
    rewrite lookup_app_r by lia. by replace (_ + k - _) with k by lia.
Qed.

Lemma mergeCode_retired_frozen_witness :
  let retired := set_egen "2" (example_method "gone" "1" "") in
  let again := example_method "gone" "" "unknown" in
  exists content',
    _mergeCode 3 [retired] [again] = Some content' /\
    content' !! 0 = Some retired.
Proof.
  intros retired again.
  destruct (mergeCode_total 3 [retired] [again]) as [content' Hc];
    [by repeat constructor.. |].
  exists content'. split; [exact Hc |].
  by apply (mergeCode_retired_frozen 3 [retired] [again] content' Hc).
Defined.

(** A method that was retired and is parsed again is not revived: it is
    added as a new entry that starts with the current generation. *)
Example mergeCode_no_resurrection :
  _mergeCode 3 [set_egen "2" (example_method "gone" "1" "")]
             [example_method "gone" "" "unknown"]
  = Some [set_egen "2" (example_method "gone" "1" "");
          set_sgen "3" (example_method "gone" "" "unknown")].
Proof. reflexivity. Qed.

(** C4: once the existing children have been gone through, the parsed
    items that no match has consumed are appended after them, each with the
    current generation as its start, in the order they have in the parsed
    input; a parsed item is among them unless a current child that is not
    manual code matches it. *)
Theorem mergeCode_appends_new (gen : N) (content ssc content' : list Code) :
  _mergeCode gen content ssc = Some content' ->
  exists kept rem,
    merge_existing (merge_item gen) content ssc = Some (kept, rem) /\
    length kept = length content /\
    content' = kept ++ (set_sgen (Py.str gen) <$> rem) /\
    drop (length content) content' = set_sgen (Py.str gen) <$> rem /\
    sublist rem ssc /\
    (forall c, c ∈ drop (length content) content' ->
               sgen (base c) = Py.str gen) /\
    (forall ssi, ssi ∈ ssc ->
       ssi ∈ rem \/
       exists dsi, dsi ∈ content /\ isCurrent dsi = true /\
                   isManualCode dsi = false /\ matches dsi ssi = Some true).
Proof.
  intros H. apply mergeCode_unfold in H as (kept & rem & Hloop & ->).
  pose proof (merge_existing_length _ _ _ _ _ Hloop) as Hlen.
  assert (drop (length content) (kept ++ (set_sgen (Py.str gen) <$> rem))
          = set_sgen (Py.str gen) <$> rem) as Hdrop
    by (rewrite <- Hlen; apply drop_app_length).
  exists kept, rem. do 4 (split; [done |]).
  split; [by eapply merge_existing_sublist |]. split.
  - intros c. rewrite Hdrop. intros (x & -> & _)%list_elem_of_fmap_1.
    apply set_sgen_base.
  - intros ssi Hin. by eapply merge_existing_consumed.
Qed.

(** Two new functions around one that is known: they are appended in the
    order of the parsed input. *)
Lemma mergeCode_appends_new_witness :
  let known n := Leaf (mkCodeBase "" "" "" "" "1" "")
                      (Function (mkCallable n "int" "" "" [] "" "")) in
  let parsed n := Leaf (mkCodeBase "" "" "" "unknown" "" "")
                       (Function (mkCallable n "int" "" "" [] "" "")) in
  exists content',
    _mergeCode 2 [known "f"] [parsed "g"; parsed "f"; parsed "h"]
    = Some content' /\
    drop 1 content' = [set_sgen "2" (parsed "g"); set_sgen "2" (parsed "h")].
Proof.
  intros known parsed.
  destruct (mergeCode_total 2 [known "f"] [parsed "g"; parsed "f"; parsed "h"])
    as [content' Hc]; [by repeat constructor.. |].
  exists content'. split; [exact Hc |].
  destruct (mergeCode_appends_new 2 _ _ _ Hc)
    as (kept & rem & Hloop & _ & _ & Hdrop & _).
  etrans; [exact Hdrop |].
  vm_compute in Hloop. injection Hloop as <- <-. reflexivity.
Defined.

(** The merge keeps all signatures defined. *)
Lemma signatures_defined_set_egen (g : string) (c : Code) :
  signatures_defined (set_egen g c) = signatures_defined c.
Proof. by destruct c. Qed.

Lemma signatures_defined_set_sgen (g : string) (c : Code) :
  signatures_defined (set_sgen g c) = signatures_defined c.
Proof. by destruct c. Qed.

Lemma all_defined_nested (l : list Code) :
  all_defined l <-> forallb signatures_defined l = true.
Proof.
  unfold all_defined. rewrite forallb_forall, Forall_forall.
  split; intros H x Hx; by apply H, list_elem_of_In.
Qed.

Lemma all_defined_append_new (gen : N) (kept rem : list Code) :
  all_defined kept -> all_defined rem -> all_defined (append_new gen kept rem).
Proof.
  unfold all_defined, append_new. intros Hk Hr.
  apply Forall_app. split; [done |]. apply Forall_fmap.
  eapply Forall_impl; [exact Hr |]. intros c Hc. cbn.
  by rewrite signatures_defined_set_sgen.
Qed.

Lemma merge_existing_defined (gen : N) (ds ssc ds' rem : list Code) :
  Forall (fun d => forall ssc d' ssc',
            all_defined ssc -> merge_item gen d ssc = Some (d', ssc') ->
            signatures_defined d' = true) ds ->
  all_defined ssc ->
  merge_existing (merge_item gen) ds ssc = Some (ds', rem) ->
  all_defined ds' /\ all_defined rem.
Proof.
  revert ssc ds'. induction ds as [|d ds IH]; intros ssc ds' Hds Hs.
  - intros [= <- <-]. split; [by unfold all_defined | done].
  - apply Forall_cons in Hds as [Hd Hds]. rewrite merge_existing_cons.
    destruct (merge_item gen d ssc) as [[d' s1]|] eqn:Hitem; cbn; [|done].
    destruct (merge_existing _ ds s1) as [[ds1 r1]|] eqn:E; cbn; [|done].
    intros [= <- <-].
    assert (all_defined s1) as Hs1
      by (apply merge_item_case in Hitem; by eapply merge_case_defined).
    destruct (IH _ _ Hds Hs1 E) as [Hds1 Hr1].
    split; [|done]. constructor; [|done].
    eapply Hd; [exact Hs | exact Hitem].
Qed.

Lemma merge_nested_defined (gen : N) (l ssc kept rem : list Code) :
  Forall (fun dsi => signatures_defined dsi = true ->
            forall ssc dsi' ssc',
              all_defined ssc -> merge_item gen dsi ssc = Some (dsi', ssc') ->
              signatures_defined dsi' = true) l ->
  forallb signatures_defined l = true -> all_defined ssc ->
  merge_existing (merge_item gen) l ssc = Some (kept, rem) ->
  forallb signatures_defined (append_new gen kept rem) = true.
Proof.
  intros IH Hl Hs E. apply all_defined_nested in Hl.
  destruct (merge_existing_defined gen l ssc kept rem) as [Hk Hr];
    [|exact Hs | exact E |].
  - apply Forall_forall. intros x Hx.
    eapply Forall_forall in IH; [|exact Hx].
    eapply Forall_forall in Hl; [|exact Hx]. by apply IH.
  - by apply all_defined_nested, all_defined_append_new.
Qed.

Lemma merge_item_defined (gen : N) (dsi : Code) :
  signatures_defined dsi = true ->
  forall ssc dsi' ssc',
    all_defined ssc -> merge_item gen dsi ssc = Some (dsi', ssc') ->
    signatures_defined dsi' = true.
Proof.
  induction dsi as [b c l IH|b n t l IH|b d] using Code_nested_ind;
    intros Hd ssc dsi' ssc' Hs Hitem;
    apply merge_item_case in Hitem
      as [Hc|Hc Hm|Hc Hm Hf|ssi rest d' Hc Hm Hf Hcontent];
    try done; try (by rewrite signatures_defined_set_egen).
  - apply find_match_found in Hf as (pre & post & -> & _).
    cbn [merge_content] in Hcontent.
    destruct (merge_existing _ l (content_of ssi)) as [[kept rem]|] eqn:E;
      [|done].
    injection Hcontent as <-. cbn [signatures_defined].
    eapply merge_nested_defined; [exact IH | exact Hd | | exact E].
    apply signatures_defined_content.
    eapply Forall_forall in Hs; [exact Hs |]. apply elem_of_app. right. left.
  - apply find_match_found in Hf as (pre & post & -> & _).
    cbn [merge_content] in Hcontent.
    destruct (merge_existing _ l (content_of ssi)) as [[kept rem]|] eqn:E;
      [|done].
    injection Hcontent as <-. cbn [signatures_defined].
    eapply merge_nested_defined; [exact IH | exact Hd | | exact E].
    apply signatures_defined_content.
    eapply Forall_forall in Hs; [exact Hs |]. apply elem_of_app. right. left.
  - by injection Hcontent as <-.
Qed.

Lemma mergeCode_defined (gen : N) (content ssc content' : list Code) :
  all_defined content -> all_defined ssc ->
  _mergeCode gen content ssc = Some content' -> all_defined content'.
Proof.
  intros Hc Hs H. apply mergeCode_unfold in H as (kept & rem & Hloop & ->).
  destruct (merge_existing_defined gen content ssc kept rem) as [Hk Hr];
    [|exact Hs | exact Hloop | by apply all_defined_append_new].
  eapply Forall_impl; [exact Hc |]. intros d Hd. by apply merge_item_defined.
Qed.

(** The merge leaves manual code alone and takes no parsed item for it. *)
Lemma merge_item_manual (gen : N) (m : Code) (ssc : list Code) :
  isManualCode m = true -> merge_item gen m ssc = Some (m, ssc).
Proof.
  intros Hm. apply merge_item_case.
  destruct (isCurrent m) eqn:Hc; by constructor.
Qed.

Lemma mergeCode_keeps_manual (gen : N) (p : list nat) (m : Code) :
  isManualCode m = true ->
  forall content ssc content',
    _mergeCode gen content ssc = Some content' ->
    lookup_path p content = Some m -> lookup_path p content' = Some m.
Proof.
  intros Hm. induction p as [|i p IH]; intros content ssc content' H; [done |].
  cbn [lookup_path].
  destruct (content !! i) as [c|] eqn:Hi; cbn [mbind option_bind]; [|done].
  apply list_elem_of_split_length in Hi as (pre & post & -> & ->).
  destruct (mergeCode_item _ _ _ _ _ _ H)
    as (pre' & rem & c' & rem' & _ & Hcase & -> & _).
  cbn [mbind option_bind]. destruct p as [|j p].
  - intros [= ->]. apply merge_item_case in Hcase.
    rewrite merge_item_manual in Hcase by done. by injection Hcase as <- _.
  - destruct Hcase as [Hc|Hc Hm'|Hc Hm' Hf|ssi rest d Hc Hm' Hf Hd]; try done.
    + by destruct (set_egen_base (Py.str gen) c) as (_ & _ & _ & -> & _).
    + apply merge_content_mergeCode in Hd as (_ & Ht & Hnested & Hsame).
      destruct (decide (type_of c = KClass)) as [Hk|Hk];
        [eapply IH; apply Hnested; by left |].
      destruct (decide (type_of c = KNamespace)) as [Hn|Hn];
        [eapply IH; apply Hnested; by right |].
      by rewrite (Hsame Hk Hn).
Qed.

(** C2: manual code anywhere below a child list is left exactly as it is
    and where it is by every sequence of merges, whatever is parsed; the
    merge never takes a parsed item for it. *)
Theorem manual_code_is_sticky (passes : list (N * list Code))
    (content content' : list Code) (p : list nat) (m : Code) :
  isManualCode m = true ->
  lookup_path p content = Some m ->
  merge_passes passes content = Some content' ->
  lookup_path p content' = Some m /\
  forall gen ssc, merge_item gen m ssc = Some (m, ssc).
Proof.
  intros Hm Hp Hpasses. split; [|intros gen ssc; by apply merge_item_manual].
  revert content Hp Hpasses.
  induction passes as [|[gen ssc] passes IH]; intros content Hp.
  - by intros [= <-].
  - cbn [merge_passes fst snd].
    destruct (_mergeCode gen content ssc) as [c1|] eqn:H1; cbn; [|done].
    apply IH. by eapply mergeCode_keeps_manual.
Qed.

(** The merges of a sequence all return when the signatures of the
    existing tree and of every parsed tree are defined. *)
Lemma merge_passes_total (passes : list (N * list Code))
    (content : list Code) :
  all_defined content -> Forall (fun pass => all_defined pass.2) passes ->
  is_Some (merge_passes passes content).
Proof.
  revert content. induction passes as [|[gen ssc] passes IH];
    intros content Hc Hp; [by eexists |].
  apply Forall_cons in Hp as [Hs Hp]. cbn [merge_passes fst snd] in *.
  destruct (mergeCode_total gen content ssc Hc Hs) as [c1 H1]. rewrite H1.
  cbn. apply IH; [|done].
  eapply mergeCode_defined; [exact Hc | exact Hs | exact H1].
Qed.

(** Manual code in a class that is merged twice: once with the class
    parsed without its method, once with no class at all. *)
Lemma manual_code_is_sticky_witness :
  let manual := Leaf (mkCodeBase "" "" "" "" "" "")
                     (ManualCode "int size() const" "public" "" "" "") in
  let existing := [example_class (mkCodeBase "" "" "" "" "1" "")
                     [example_method "gone" "1" ""; manual]] in
  exists content',
    merge_passes [(2%N, [example_class (mkCodeBase "" "" "" "unknown" "" "") []]);
                  (3%N, [])] existing = Some content' /\
    lookup_path [0; 1] content' = Some manual.
Proof.
  intros manual existing.
  destruct (merge_passes_total
              [(2%N, [example_class (mkCodeBase "" "" "" "unknown" "" "") []]);
               (3%N, [])] existing) as [content' Hc];
    [by repeat constructor.. |].
  exists content'. split; [exact Hc |].
  by apply (manual_code_is_sticky _ existing content' [0; 1] manual
              eq_refl eq_refl Hc).
Defined.

(** The parsed tree lists the counterparts in the order of the children. *)
Lemma unchanged_in_order (d s : Code) (ds ss : list Code) :
  isCurrent d = true -> isManualCode d = false ->
  matches d s = Some true ->
  unchanged_tree (content_of d) (content_of s) ->
  unchanged_tree ds ss -> unchanged_tree (d :: ds) (s :: ss).
Proof.
  intros Hc Hm Hmatch Hnested Hrest.
  eapply matched_found; try done. by apply find_match_head.
Qed.

Lemma append_new_nil (gen : N) (l : list Code) : append_new gen l [] = l.
Proof. unfold append_new. cbn. apply app_nil_r. Qed.

Lemma merge_existing_matched (gen : N) (content ssc rem : list Code) :
  matched_leaving content ssc rem ->
  merge_existing (merge_item gen) content ssc = Some (content, rem).
Proof.
  induction 1 as [ss|d ds ss rem Hskip _ IH
                  |d s ds ss ss' rem Hc Hm Hf _ IHn _ IH].
  - done.
  - rewrite merge_existing_cons.
    assert (merge_item gen d ss = Some (d, ss)) as ->.
    { apply merge_item_case. destruct Hskip as [Hc|Hm]; [by constructor |].
      destruct (isCurrent d) eqn:Hc; by constructor. }
    cbn. by rewrite IH.
  - rewrite merge_existing_cons.
    assert (merge_item gen d ss = Some (d, ss')) as ->.
    { apply merge_item_case. econstructor; try done.
      destruct d as [b c l|b n t l|b d]; cbn [merge_content content_of] in *;
        [| |done]; rewrite IHn; cbn [mbind option_bind fst snd];
        by rewrite append_new_nil. }
    cbn. by rewrite IH.
Qed.

Lemma merge_existing_unchanged (gen : N) (content ssc : list Code) :
  unchanged_tree content ssc ->
  merge_existing (merge_item gen) content ssc = Some (content, []).
Proof. apply merge_existing_matched. Qed.

Lemma set_hf_content_same (hf : HeaderFile) :
  set_hf_content (hf_content hf) hf = hf.
Proof. by destruct hf. Qed.

Lemma example_unchanged :
  unchanged_tree (hf_content example_known_header) example_parsed.
Proof.
  apply unchanged_in_order; [reflexivity.. | | apply matched_nil].
  apply unchanged_in_order; [reflexivity.. | apply matched_nil | apply matched_nil].
Qed.

(** C5, as stated, fails: [addParsedHeaderFile] marks the project dirty
    after every merge, also when the parsed tree brings nothing new, so a
    clean project becomes dirty. *)
Lemma merge_unchanged_dirty_counterexample :
  ~ (forall prj hf phf prj' hf',
        unchanged_tree (hf_content hf) phf ->
        addParsedHeaderFile prj hf phf = Some (prj', hf') ->
        hf' = hf /\ dirty prj' = dirty prj).
Proof.
  intros H.
  destruct (H example_project example_known_header example_parsed
              (set_dirty true example_project) example_known_header
              example_unchanged eq_refl) as [_ Hdirty].
  discriminate Hdirty.
Qed.

(** C5 (amended): merging a parsed tree that brings nothing new leaves the
    whole header, and so the start and end generations of all its elements,
    as it was; the project is marked dirty all the same. *)
Theorem merge_unchanged_tree (prj : Project) (hf : HeaderFile)
    (phf : list Code) :
  unchanged_tree (hf_content hf) phf ->
  _mergeCode (generation prj) (hf_content hf) phf = Some (hf_content hf) /\
  addParsedHeaderFile prj hf phf = Some (set_dirty true prj, hf) /\
  dirty (set_dirty true prj) = true.
Proof.
  intros H.
  assert (_mergeCode (generation prj) (hf_content hf) phf
          = Some (hf_content hf)) as Hmerge.
  { unfold _mergeCode. rewrite (merge_existing_unchanged _ _ _ H).
    cbn [mbind option_bind fst snd]. by rewrite append_new_nil. }
  split; [done |]. split; [|done].
  unfold addParsedHeaderFile. rewrite Hmerge. cbn.
  by rewrite set_hf_content_same.
Qed.

Lemma merge_unchanged_tree_witness :
  addParsedHeaderFile example_project example_known_header example_parsed
  = Some (set_dirty true example_project, example_known_header).
Proof.
  apply (merge_unchanged_tree example_project example_known_header
           example_parsed example_unchanged).
Defined.

(** ** Generation numbers as strings *)

Lemma uint_value_acc (d : Decimal.uint) (acc : positive) :
  uint_value d (Z.pos acc) = Z.pos (Pos.of_uint_acc d acc).
Proof.
  revert acc. induction d; intros acc; cbn [uint_value Pos.of_uint_acc];
    [done | ..];
    match goal with
    | |- uint_value _ ?z = _ =>
        let p := fresh in
        evar (p : positive); replace z with (Z.pos p); subst p;
        [apply IHd | lia]
    end.
Qed.

Lemma uint_value_zero (d : Decimal.uint) :
  uint_value d 0 = Z.of_N (Pos.of_uint d).
Proof.
  induction d; cbn [uint_value Pos.of_uint Z.mul Z.add].
  all: first [done | exact IHd | exact (uint_value_acc d _)].
Qed.

Lemma int_digits_digit (c : ascii) (s : string) (acc v : Z)
    (after_digit : bool) :
  Py.digit c = Some v ->
  Py.int_digits (String c s) acc after_digit
  = Py.int_digits s (10 * acc + v) true.
Proof. intros H. cbn [Py.int_digits]. by rewrite H. Qed.

Lemma int_digits_uint (d : Decimal.uint) (acc : Z) (after_digit : bool) :
  (d = Decimal.Nil -> after_digit = true) ->
  Py.int_digits (NilEmpty.string_of_uint d) acc after_digit
  = Some (uint_value d acc).
Proof.
  revert acc after_digit.
  induction d; intros acc after_digit Hnil;
    cbn [NilEmpty.string_of_uint uint_value];
    [by rewrite Hnil | ..];
    erewrite int_digits_digit by reflexivity;
    rewrite IHd by done;
    first [reflexivity
          | change (Z.of_N (N_of_ascii "0") - 48)%Z with 0%Z;
            by rewrite Z.add_0_r].
Qed.

Lemma string_of_uint_chars (d : Decimal.uint) :
  Forall (fun c => Py.isspace c = false)
         (list_ascii_of_string (NilEmpty.string_of_uint d)).
Proof. induction d; cbn; by constructor. Qed.

Lemma lstrip_no_space (s : string) :
  Forall (fun c => Py.isspace c = false) (list_ascii_of_string s) ->
  Py.lstrip s = s.
Proof.
  destruct s as [|c s]; [done |]. cbn. intros H.
  apply Forall_cons in H as [-> _]. done.
Qed.

Lemma strip_no_space (s : string) :
  Forall (fun c => Py.isspace c = false) (list_ascii_of_string s) ->
  Py.strip s = s.
Proof.
  intros H. unfold Py.strip. rewrite (lstrip_no_space s H).
  rewrite lstrip_no_space.
  - unfold Py.rev_string.
    by rewrite list_ascii_of_string_of_list_ascii, rev_involutive,
               string_of_list_ascii_of_string.
  - unfold Py.rev_string. rewrite list_ascii_of_string_of_list_ascii.
    by apply Forall_rev.
Qed.

(** [int] reads back the number that [str] has written. *)
Lemma int_str (n : N) : Py.int (Py.str n) = Some (Z.of_N n).
Proof.
  unfold Py.int, Py.str.
  rewrite (strip_no_space _ (string_of_uint_chars _)).
  assert (Py.int_digits (NilEmpty.string_of_uint (N.to_uint n)) 0 false
          = Some (Z.of_N n)) as Hdigits.
  { rewrite int_digits_uint.
    - rewrite uint_value_zero. do 2 f_equal. apply DecimalN.Unsigned.of_to.
    - destruct n as [|p]; [done |]. cbn [N.to_uint].
      intros H. by destruct (DecimalPos.Unsigned.to_uint_nonnil p). }
  destruct (N.to_uint n); exact Hdigits.
Qed.

(** The endpoint written [n + 1] selects the label at position [n] of the
    list of generations. *)
Lemma version_label_str (p : Project) (n : nat) (label : string) :
  versions p !! n = Some label ->
  version_label p (Py.str (N.of_nat (S n))) = Some label.
Proof.
  intros H. unfold version_label. rewrite int_str. cbn [mbind option_bind].
  unfold Py.getitem.
  replace (Z.of_N (N.of_nat (S n)) - 1)%Z with (Z.of_nat n) by lia.
  rewrite (proj2 (Z.leb_le 0 (Z.of_nat n))) by lia.
  by rewrite Nat2Z.id.
Qed.

(** ** Merging the same parsed tree again *)

Lemma freshly_parsed_facts (c : Code) :
  freshly_parsed c = true ->
  isCurrent c = true /\ isManualCode c = false /\ is_Some (signature c) /\
  all_fresh (content_of c).
Proof.
  unfold all_fresh.
  destruct c as [b c l|b n t l|b d]; cbn [freshly_parsed];
    rewrite !andb_true_iff, negb_true_iff; intros [[Hc Hm] H];
    (split; [done |]); (split; [done |]); cbn [signature content_of].
  - split; [by eexists |]. rewrite forallb_forall in H.
    apply Forall_forall. intros x Hx. by apply H, list_elem_of_In.
  - split; [by eexists |]. rewrite forallb_forall in H.
    apply Forall_forall. intros x Hx. by apply H, list_elem_of_In.
  - split; [|constructor]. by destruct (decl_signature (annos b) d); [eexists |].
Qed.

Lemma matches_same_key (x y s : Code) :
  type_of x = type_of y -> signature x = signature y ->
  matches x s = matches y s.
Proof. unfold matches. by intros -> ->. Qed.

Lemma find_match_same_key (x y : Code) (l : list Code) :
  type_of x = type_of y -> signature x = signature y ->
  find_match x l = find_match y l.
Proof.
  intros Ht Hs. induction l as [|s l IH]; [done |]. cbn [find_match].
  by rewrite (matches_same_key x y s Ht Hs), IH.
Qed.

Lemma matched_leaving_app (ds1 ds2 ss mid rem : list Code) :
  matched_leaving ds1 ss mid -> matched_leaving ds2 mid rem ->
  matched_leaving (ds1 ++ ds2) ss rem.
Proof.
  induction 1 as [ss|d ds ss mid Hskip _ IH
                  |d s ds ss ss' mid Hc Hm Hf Hn _ _ IH]; intros H2.
  - done.
  - cbn. apply matched_skip; [done | by apply IH].
  - cbn. eapply matched_found; try done. by apply IH.
Qed.

(** A freshly parsed list brings nothing new to itself, also when its
    items have got a start generation. *)
Lemma fresh_list_matched (l : list Code) (upd : Code -> Code) :
  (forall c, upd c = c \/ exists g, upd c = set_sgen g c) ->
  Forall (fun c => freshly_parsed c = true ->
                   matched_leaving (content_of c) (content_of c) []) l ->
  all_fresh l -> matched_leaving (upd <$> l) l [].
Proof.
  intros Hupd. induction l as [|x l IH]; intros Hn Hl; [apply matched_nil |].
  apply Forall_cons in Hn as [Hx Hn]. apply Forall_cons in Hl as [Fx Hl].
  cbn [fmap list_fmap].
  destruct (freshly_parsed_facts x Fx) as (Hcur & Hman & Hsig & _).
  assert (isCurrent (upd x) = true /\ isManualCode (upd x) = false /\
          type_of (upd x) = type_of x /\ signature (upd x) = signature x /\
          content_of (upd x) = content_of x) as (Hc & Hm & Ht & Hs & Hcont).
  { destruct (Hupd x) as [->|[g ->]]; [done |].
    destruct (set_sgen_base g x) as (_ & He & Ht & Hcont & Hs).
    unfold isCurrent, isManualCode in *. by rewrite He, Ht. }
  eapply matched_found; [done | done | | | by apply IH].
  - apply find_match_head, matches_equal_signature; try done.
    by rewrite Hs.
  - rewrite Hcont. by apply Hx.
Qed.

Lemma fresh_content_matched (c : Code) :
  freshly_parsed c = true ->
  matched_leaving (content_of c) (content_of c) [].
Proof.
  induction c as [b c l IH|b n t l IH|b d] using Code_nested_ind;
    intros Hc; [| |apply matched_nil];
    apply freshly_parsed_facts in Hc as (_ & _ & _ & Hl);
    cbn [content_of] in *;
    rewrite <- (list_fmap_id l) at 1;
    (apply fresh_list_matched; [by left | done | done]).
Qed.

Lemma fresh_new_matched (g : string) (l : list Code) :
  all_fresh l -> matched_leaving (set_sgen g <$> l) l [].
Proof.
  intros Hl. apply fresh_list_matched; [right; by eexists | | done].
  apply Forall_forall. intros c _. apply fresh_content_matched.
Qed.

Lemma Forall_of_sublist {A} (P : A -> Prop) (l1 l2 : list A) :
  sublist l1 l2 -> Forall P l2 -> Forall P l1.
Proof.
  intros Hsub H. apply Forall_forall. intros x Hx.
  eapply Forall_forall in H; [exact H |]. by eapply elem_of_sublist.
Qed.

Lemma merge_case_sublist (gen : N) (dsi dsi' : Code) (ssc ssc' : list Code) :
  merge_case gen dsi ssc dsi' ssc' -> sublist ssc' ssc.
Proof.
  intros H. apply merge_case_consumes in H
    as [->|(pre & x & post & -> & -> & _)]; [done |].
  apply sublist_app; [done |]. by apply sublist_cons.
Qed.

Lemma matches_true_type (x y : Code) :
  matches x y = Some true -> type_of x = type_of y.
Proof. unfold matches. by case_bool_decide. Qed.

Lemma merge_content_signature (gen : N) (dsi ssi dsi' : Code) :
  merge_content gen dsi ssi = Some dsi' -> signature dsi' = signature dsi.
Proof.
  destruct dsi as [b c l|b n t l|b d]; cbn [merge_content];
    [destruct (merge_existing _ _ _); [|done].. |]; cbn; by intros [= <-].
Qed.

Lemma leaf_content (x y : Code) :
  type_of x = type_of y -> type_of x <> KClass -> type_of x <> KNamespace ->
  content_of y = [].
Proof. by destruct y. Qed.

(** Merged once more with the same parsed items, the items that the loop
    has gone through find the same counterparts. *)
Lemma remerge_existing (gen : N) (ds ssc ds' rem : list Code) :
  Forall (fun d => forall ssc d' ssc',
            all_fresh ssc -> merge_item gen d ssc = Some (d', ssc') ->
            matched_leaving [d'] ssc ssc') ds ->
  all_fresh ssc ->
  merge_existing (merge_item gen) ds ssc = Some (ds', rem) ->
  matched_leaving ds' ssc rem.
Proof.
  revert ssc ds'. induction ds as [|d ds IH]; intros ssc ds' Hds Hs.
  - intros [= <- <-]. apply matched_nil.
  - apply Forall_cons in Hds as [Hd Hds]. rewrite merge_existing_cons.
    destruct (merge_item gen d ssc) as [[d' s1]|] eqn:Hitem; cbn; [|done].
    destruct (merge_existing _ ds s1) as [[ds1 r1]|] eqn:E; cbn; [|done].
    intros [= <- <-].
    apply (matched_leaving_app [d'] ds1 ssc s1); [by apply Hd |].
    apply IH; [done | | done].
    eapply Forall_of_sublist; [|exact Hs].
    eapply merge_case_sublist. by apply merge_item_case.
Qed.

Lemma remerge_item (gen : N) (dsi : Code) :
  forall ssc dsi' ssc',
    all_fresh ssc -> merge_item gen dsi ssc = Some (dsi', ssc') ->
    matched_leaving [dsi'] ssc ssc'.
Proof.
  induction dsi as [b c l IH|b n t l IH|b d] using Code_nested_ind;
    intros ssc dsi' ssc' Hs Hitem;
    apply merge_item_case in Hitem
      as [Hc|Hc Hm|Hc Hm Hf|ssi rest d' Hc Hm Hf Hcontent];
    try (apply matched_skip; [by auto | apply matched_nil]);
    try (apply matched_skip; [left; apply set_egen_not_current
                             | apply matched_nil]);
    pose proof (merge_content_signature _ _ _ _ Hcontent) as Hsig;
    pose proof (find_match_found _ _ _ _ Hf)
      as (pre & post & Hssc & _ & Hmatch & _);
    assert (freshly_parsed ssi = true) as Hfresh
      by (eapply Forall_forall in Hs; [exact Hs |];
          rewrite Hssc; apply elem_of_app; right; left);
    destruct (freshly_parsed_facts _ Hfresh) as (_ & _ & _ & Hnested).
  - cbn [merge_content] in Hcontent.
    destruct (merge_existing _ l (content_of ssi)) as [[kept left]|] eqn:E;
      [|done].
    injection Hcontent as <-.
    eapply matched_found; [done | done | | | apply matched_nil].
    + erewrite find_match_same_key; [exact Hf | done | done].
    + cbn [content_of]. unfold append_new.
      eapply matched_leaving_app; [by eapply remerge_existing |].
      apply fresh_new_matched. eapply Forall_of_sublist; [|exact Hnested].
      by eapply merge_existing_sublist.
  - cbn [merge_content] in Hcontent.
    destruct (merge_existing _ l (content_of ssi)) as [[kept left]|] eqn:E;
      [|done].
    injection Hcontent as <-.
    eapply matched_found; [done | done | | | apply matched_nil].
    + erewrite find_match_same_key; [exact Hf | done | done].
    + cbn [content_of]. unfold append_new.
      eapply matched_leaving_app; [by eapply remerge_existing |].
      apply fresh_new_matched. eapply Forall_of_sublist; [|exact Hnested].
      by eapply merge_existing_sublist.
  - injection Hcontent as <-.
    eapply matched_found; [done | done | exact Hf | | apply matched_nil].
    cbn [content_of].
    rewrite (leaf_content (Leaf b d) ssi); [apply matched_nil | | |];
      [by apply matches_true_type | by destruct d..].
Qed.

(** After a merge, the same parsed tree brings nothing new: merging it a
    second time, under any generation, changes nothing. *)
Lemma merged_tree_unchanged (gen : N) (content ssc merged : list Code) :
  all_fresh ssc ->
  _mergeCode gen content ssc = Some merged ->
  unchanged_tree merged ssc /\
  forall gen', _mergeCode gen' merged ssc = Some merged.
Proof.
  intros Hs H. apply mergeCode_unfold in H as (kept & rem & Hloop & ->).
  assert (unchanged_tree (kept ++ (set_sgen (Py.str gen) <$> rem)) ssc) as Hu.
  { eapply matched_leaving_app.
    - eapply remerge_existing; [|exact Hs | exact Hloop].
      apply Forall_forall. intros d _. apply remerge_item.
    - apply fresh_new_matched. eapply Forall_of_sublist; [|exact Hs].
      by eapply merge_existing_sublist. }
  split; [done |]. intros gen'. unfold _mergeCode.
  rewrite (merge_existing_unchanged _ _ _ Hu). cbn [mbind option_bind fst snd].
  by rewrite append_new_nil.
Qed.

(** ** More on the indenting file writer *)

Lemma write_lines_suppressblank (lines : list string) (indent v : bool)
    (f : IndentFile) :
  write_lines lines indent (set_suppressblank v f)
  = set_suppressblank v (write_lines lines indent f).
Proof.
  revert f. induction lines as [|l lines IH]; intros f; [done |].
  destruct lines as [|x lines].
  - cbn. destruct (String.eqb l ""); [done |].
    unfold write_pad. cbn. by destruct (indent && indentnext f).
  - rewrite !write_lines_cons, <- IH. f_equal.
    unfold write_pad. cbn. by destruct (indent && indentnext f).
Qed.

Lemma write_lines_blank (lines : list string) (indent : bool)
    (f : IndentFile) :
  blank_pending (write_lines lines indent f) = blank_pending f.
Proof.
  revert f. induction lines as [|l lines IH]; intros f; [done |].
  destruct lines as [|x lines].
  - cbn. destruct (String.eqb l ""); [done |].
    unfold write_pad. by destruct (indent && indentnext f).
  - rewrite write_lines_cons, IH.
    unfold write_pad. by destruct (indent && indentnext f).
Qed.

(** A line that is continued: the text [l] written before the lines [x ::
    rest] is the text [l +:+ x] written as their first line. *)
Lemma write_lines_continue (l x : string) (rest : list string) (indent : bool)
    (f : IndentFile) :
  l <> "" -> (x <> "" \/ rest <> []) ->
  write_lines ((l +:+ x) :: rest) indent f
  = write_lines (x :: rest) indent
      (set_indentnext false (raw_write l (write_pad indent f))).
Proof.
  intros Hl Hx.
  assert (write_pad indent
            (set_indentnext false (raw_write l (write_pad indent f)))
          = set_indentnext false (raw_write l (write_pad indent f))) as Hpad.
  { unfold write_pad at 1. cbn. by rewrite andb_false_r. }
  destruct rest as [|y rest].
  - destruct Hx as [Hx|]; [|done]. cbn [write_lines].
    rewrite (eqb_empty_false x Hx).
    assert (l +:+ x <> "") as Hlx by (by destruct l).
    rewrite (eqb_empty_false _ Hlx), Hpad.
    unfold raw_write, set_indentnext. cbn. by rewrite append_assoc.
  - rewrite !write_lines_cons, Hpad. f_equal.
    unfold raw_write, set_indentnext. cbn. by rewrite !append_assoc.
Qed.

Lemma split_on_go_cur (sep : ascii) (s : string) (cur : list ascii) :
  exists x rest,
    Py.split_on_go sep s [] = x :: rest /\
    Py.split_on_go sep s cur = (string_of_list_ascii (rev cur) +:+ x) :: rest /\
    (s <> "" -> x <> "" \/ rest <> []).
Proof.
  revert cur. induction s as [|c s IH]; intros cur.
  - exists "", []. cbn. by rewrite append_empty_r.
  - cbn [Py.split_on_go]. destruct (Ascii.eqb c sep).
    + destruct (split_on_go_cons sep s []) as (y & l & Hy).
      eexists "", _. cbn. rewrite append_empty_r, Hy.
      split; [done |]. split; [done |]. intros _. by right.
    + destruct (IH [c]) as (x & rest & H0 & H1 & _).
      destruct (IH (c :: cur)) as (x' & rest' & H0' & H1' & _).
      rewrite H0 in H0'. injection H0' as <- <-.
      exists (String c x), rest. rewrite H1, H1'. cbn [rev].
      split; [done |]. split; [|by left].
      f_equal. change (String c x) with (String c "" +:+ x).
      cbn [app]. by rewrite string_of_list_ascii_snoc.
Qed.

Lemma string_of_list_ascii_nonempty (l : list ascii) :
  l <> [] -> string_of_list_ascii l <> "".
Proof. by destruct l. Qed.

Lemma rev_nonempty {A} (l : list A) : l <> [] -> rev l <> [].
Proof.
  destruct l as [|a l]; [done |]. cbn. intros _ H.
  by apply app_eq_nil in H as [_ ?].
Qed.

(** The lines of a text in two parts are written as the lines of the first
    part followed by the lines of the second. *)
Lemma write_lines_app (a b : string) (cur : list ascii) (indent : bool)
    (f : IndentFile) :
  b <> "" -> (cur <> [] \/ a <> "") ->
  write_lines (Py.split_on_go "010" (a +:+ b) cur) indent f
  = write_lines (Py.split_on_go "010" b []) indent
      (write_lines (Py.split_on_go "010" a cur) indent f).
Proof.
  intros Hb. revert cur f. induction a as [|c a IH]; intros cur f Hne.
  - destruct Hne as [Hcur|]; [|done]. rewrite append_nil_l.
    destruct (split_on_go_cur "010" b cur) as (x & rest & -> & -> & Hx).
    cbn [Py.split_on_go write_lines].
    assert (string_of_list_ascii (rev cur) <> "") as Hl
      by (by apply string_of_list_ascii_nonempty, rev_nonempty).
    rewrite (eqb_empty_false _ Hl).
    apply write_lines_continue; [done | by apply Hx].
  - rewrite append_cons. cbn [Py.split_on_go].
    destruct (Ascii.eqb c "010").
    + destruct (split_on_go_cons "010" (a +:+ b) []) as (y & l & Hy).
      destruct (split_on_go_cons "010" a []) as (z & m & Hz).
      rewrite Hy, write_lines_cons, <- Hy.
      rewrite Hz, write_lines_cons, <- Hz.
      destruct a as [|c' a].
      * rewrite append_nil_l. cbn [Py.split_on_go write_lines String.eqb].
        change (string_of_list_ascii (rev [])) with "".
        reflexivity.
      * apply IH. by right.
    + apply IH. by left.
Qed.

Lemma write_blank_first (data : string) (indent : bool) (f : IndentFile) :
  data <> "" ->
  write data indent f
  = set_suppressblank false
      (write_lines (Py.split_on "010" data) indent
         (if blank_pending f then set_blank false (raw_write nl f) else f)).
Proof. intros H. unfold write. by rewrite (eqb_empty_false _ H). Qed.

(** X1: writing a text in two parts gives the state, and so the output, of
    writing it at once. *)
Theorem write_app (a b : string) (indent : bool) (f : IndentFile) :
  write (a +:+ b) indent f = write b indent (write a indent f).
Proof.
  destruct (String.eqb_spec a "") as [->|Ha]; [done |].
  destruct (String.eqb_spec b "") as [->|Hb];
    [by rewrite append_empty_r |].
  assert (a +:+ b <> "") as Hab by (by destruct a).
  rewrite (write_blank_first (a +:+ b)), (write_blank_first a),
    (write_blank_first b) by done.
  cbn [blank_pending set_suppressblank].
  rewrite write_lines_blank.
  set (f0 := if blank_pending f then set_blank false (raw_write nl f) else f).
  assert (blank_pending f0 = false) as -> by (subst f0; by destruct (blank_pending f) eqn:E).
  unfold Py.split_on. rewrite write_lines_suppressblank.
  rewrite write_lines_app by (done || by right).
  by destruct (write_lines _ _ (write_lines _ _ _)).
Qed.

Lemma write_lines_level (lines : list string) (indent : bool)
    (f : IndentFile) :
  nrindents (write_lines lines indent f) = nrindents f /\
  f_indent (write_lines lines indent f) = f_indent f.
Proof.
  revert f. induction lines as [|l lines IH]; intros f; [done |].
  destruct lines as [|x lines].
  - cbn. destruct (String.eqb l ""); [done |].
    unfold write_pad. by destruct (indent && indentnext f).
  - rewrite write_lines_cons. destruct (IH (set_indentnext true
      (raw_write (l +:+ nl) (write_pad indent f)))) as [-> ->].
    unfold write_pad. by destruct (indent && indentnext f).
Qed.

Lemma write_level (data : string) (indent : bool) (f : IndentFile) :
  nrindents (write data indent f) = nrindents f /\
  f_indent (write data indent f) = f_indent f.
Proof.
  unfold write. destruct (String.eqb data ""); [done |].
  cbn [nrindents f_indent set_suppressblank].
  destruct (write_lines_level (Py.split_on "010" data) indent
              (if blank_pending f then set_blank false (raw_write nl f)
               else f)) as [-> ->].
  by destruct (blank_pending f).
Qed.

(** The lines of a text that ends every line with a newline. *)
Lemma split_on_go_line (l rest : string) (cur : list ascii) :
  Py.find "010" l = None ->
  Py.split_on_go "010" (l +:+ nl +:+ rest) cur
  = (string_of_list_ascii (rev cur) +:+ l) :: Py.split_on_go "010" rest [].
Proof.
  revert cur. induction l as [|c l IH]; intros cur Hl.
  - rewrite append_nil_l. cbn. by rewrite append_empty_r.
  - cbn [Py.find] in Hl. rewrite append_cons. cbn [Py.split_on_go].
    destruct (Ascii.eqb c "010"); [done |].
    rewrite IH by (by destruct (Py.find "010" l)).
    cbn [rev]. by rewrite string_of_list_ascii_snoc.
Qed.

Lemma split_on_lines_text (ls : list string) :
  Forall (fun l => Py.find "010" l = None) ls ->
  Py.split_on "010" (lines_text "" ls) = ls ++ [""].
Proof.
  unfold Py.split_on. induction 1 as [|l ls Hl _ IH]; [done |].
  cbn [lines_text foldr]. rewrite append_nil_l.
  rewrite split_on_go_line by done. cbn [app]. f_equal. exact IH.
Qed.

Lemma write_lines_block (ls : list string) (f : IndentFile) :
  indentnext f = true ->
  let f' := write_lines (ls ++ [""]) true f in
  out f' = out f +:+ lines_text (spaces (f_indent f * nrindents f)) ls /\
  indentnext f' = true.
Proof.
  revert f. induction ls as [|l ls IH]; intros f Hf.
  - cbn. by rewrite append_empty_r.
  - cbn [app].
    assert (exists x xs, ls ++ [""] = x :: xs) as (x & xs & E)
      by (destruct ls; by eexists _, _).
    rewrite E, write_lines_cons, <- E.
    set (f1 := set_indentnext true _).
    destruct (IH f1 eq_refl) as [Ho Hi]. cbn zeta. rewrite Ho, Hi.
    split; [|done]. subst f1. unfold write_pad. rewrite Hf.
    cbn. by rewrite !append_assoc.
Qed.

(** X2: a text made of whole lines, written with indentation at the start
    of a line, gets every line indented by the current level; this
    includes its empty lines, which end up holding spaces only. *)
Theorem write_indents_every_line (ls : list string) (f : IndentFile) :
  Forall (fun l => Py.find "010" l = None) ls ->
  indentnext f = true ->
  let f' := write (lines_text "" ls) true f in
  out f' = out f +:+ lead f (lines_text "" ls)
           +:+ lines_text (spaces (f_indent f * nrindents f)) ls /\
  indentnext f' = true /\ nrindents f' = nrindents f.
Proof.
  intros Hls Hf f'. split; [|split].
  - subst f'. unfold write, lead.
    destruct (String.eqb_spec (lines_text "" ls) "") as [E|E].
    + destruct ls as [|l ls]; [|by destruct l].
      cbn. rewrite andb_false_r. by rewrite !append_empty_r.
    + rewrite andb_true_r, split_on_lines_text by done.
      cbn [out set_suppressblank].
      destruct (blank_pending f) eqn:Hb.
      * destruct (write_lines_block ls (set_blank false (raw_write nl f)))
          as [-> _]; [done |]. cbn. by rewrite !append_assoc.
      * by destruct (write_lines_block ls f) as [-> _].
  - subst f'. unfold write.
    destruct (String.eqb_spec (lines_text "" ls) "") as [E|E]; [done |].
    rewrite split_on_lines_text by done. cbn [indentnext set_suppressblank].
    destruct (blank_pending f).
    + by destruct (write_lines_block ls (set_blank false (raw_write nl f)) Hf)
        as [_ ->].
    + by destruct (write_lines_block ls f Hf) as [_ ->].
  - apply write_level.
Qed.

Lemma write_indents_every_line_witness :
  out (write ("a" +:+ nl +:+ nl +:+ "b" +:+ nl) true
         (iadd 1 (new_file "x.sip" 4)))
  = "    a" +:+ nl +:+ "    " +:+ nl +:+ "    b" +:+ nl.
Proof.
  destruct (write_indents_every_line ["a"; ""; "b"]
              (iadd 1 (new_file "x.sip" 4))) as [H _];
    [by repeat constructor | reflexivity |].
  exact H.
Defined.

Lemma iter_blank (k : nat) (f : IndentFile) :
  out (Nat.iter k blank f) = out f /\
  blank_pending (Nat.iter k blank f)
  = blank_pending f || (negb (suppressblank f) && negb (Nat.eqb k 0)) /\
  suppressblank (Nat.iter k blank f) = suppressblank f.
Proof.
  induction k as [|k (Ho & Hb & Hs)].
  - cbn. by rewrite andb_false_r, orb_false_r.
  - cbn [Nat.iter Nat.eqb negb]. rewrite andb_true_r.
    change (Nat.iter (S k) blank f) with (blank (Nat.iter k blank f)).
    set (g := Nat.iter k blank f) in *. unfold blank. rewrite Hs.
    destruct (suppressblank f) eqn:E.
    + rewrite Ho, Hb. cbn. by rewrite !orb_false_r.
    + cbn. rewrite Ho. by rewrite orb_true_r.
Qed.

(** X3: however many times [blank()] is called, the next text is preceded by
    one empty line at most, and by none when the calls follow an increase
    of the indentation. *)
Theorem blank_lines_coalesce (k : nat) (data : string) (f : IndentFile) :
  data <> "" ->
  out (write data false (Nat.iter k blank f))
  = out f
    +:+ (if blank_pending f || (negb (suppressblank f) && negb (Nat.eqb k 0))
         then nl else "")
    +:+ data.
Proof.
  intros Hd. destruct (write_unindented data (Nat.iter k blank f)) as [-> _].
  destruct (iter_blank k f) as (-> & Hb & _). unfold lead. rewrite Hb.
  by rewrite (eqb_empty_false _ Hd), andb_true_r.
Qed.

Lemma blank_lines_coalesce_witness :
  out (write "x" false (Nat.iter 3 blank (write "a" false (new_file "f" 4))))
  = "a" +:+ nl +:+ "x" /\
  out (write "x" false (Nat.iter 3 blank (iadd 1 (new_file "f" 4)))) = "x".
Proof.
  split.
  - rewrite (blank_lines_coalesce 3 "x" (write "a" false (new_file "f" 4)));
      [reflexivity | discriminate].
  - rewrite (blank_lines_coalesce 3 "x" (iadd 1 (new_file "f" 4)));
      [reflexivity | discriminate].
Defined.

(** X4: [_writeCodeSIP] writes the directive, the code and [%End], each on
    lines of their own, after a pending blank line; it restores the level
    of indentation and asks for a blank line. *)
Theorem writeCodeSIP_block (directive code : string) (f : IndentFile) :
  let f' := _writeCodeSIP directive code false f in
  out f' = out f +:+ (if blank_pending f then nl else "")
           +:+ directive +:+ nl +:+ code +:+ nl +:+ "%End" +:+ nl /\
  nrindents f' = nrindents f /\ blank_pending f' = true.
Proof.
  unfold _writeCodeSIP.
  set (f1 := write (directive +:+ nl) false f).
  set (f2 := write (code +:+ nl) false (iadd 1 f1)).
  set (f3 := write ("%End" +:+ nl) false (isub 1 f2)).
  assert (forall s, s +:+ nl <> "") as Hnl by (by intros []).
  destruct (write_unindented (directive +:+ nl) f) as [Ho1 Hb1].
  destruct (write_unindented (code +:+ nl) (iadd 1 f1)) as [Ho2 Hb2].
  destruct (write_unindented ("%End" +:+ nl) (isub 1 f2)) as [Ho3 Hb3].
  fold f1 in Ho1, Hb1. fold f2 in Ho2, Hb2. fold f3 in Ho3, Hb3.
  unfold lead in Ho1, Ho2, Ho3.
  cbn [blank_pending out iadd isub] in *.
  rewrite Hb1 in Ho2.
  rewrite ?(eqb_empty_false _ (Hnl directive)), ?(eqb_empty_false _ (Hnl code)),
    ?andb_true_r, ?andb_false_r in Ho1, Ho2.
  cbn zeta. split; [|split].
  - unfold blank. destruct (suppressblank f3); cbn [out set_blank];
      rewrite Ho3, Ho2, Ho1; destruct (blank_pending f); cbn [andb negb];
      rewrite !append_assoc, ?append_nil_l; reflexivity.
  - unfold blank.
    assert (nrindents f3 = nrindents f) as H.
    { subst f3. rewrite (proj1 (write_level _ _ _)). cbn.
      subst f2. rewrite (proj1 (write_level _ _ _)). cbn.
      subst f1. rewrite (proj1 (write_level _ _ _)). lia. }
    by destruct (suppressblank f3).
  - unfold blank.
    assert (suppressblank f3 = false) as ->; [|done].
    subst f3. unfold write. by rewrite (eqb_empty_false _ (Hnl _)).
Qed.

(** Where the indentation is empty, a text is written as it is. *)
Lemma write_pad_flat (indent : bool) (f : IndentFile) :
  spaces (f_indent f * nrindents f) = "" -> write_pad indent f = f.
Proof.
  intros H. unfold write_pad. destruct (indent && indentnext f); [|done].
  unfold raw_write. rewrite H, append_empty_r. by destruct f.
Qed.

Lemma write_lines_flat (lines : list string) (indent : bool)
    (f : IndentFile) :
  spaces (f_indent f * nrindents f) = "" ->
  write_lines lines indent f = write_lines lines false f.
Proof.
  revert f. induction lines as [|l lines IH]; intros f Hf; [done |].
  destruct lines as [|x lines].
  - cbn [write_lines]. by rewrite !write_pad_flat.
  - rewrite !write_lines_cons, !write_pad_flat by done. by apply IH.
Qed.

Lemma write_flat (text : string) (indent : bool) (f : IndentFile) :
  spaces (f_indent f * nrindents f) = "" ->
  write text indent f = write text false f.
Proof.
  intros Hf. unfold write. destruct (String.eqb text ""); [done |].
  f_equal. apply write_lines_flat. by destruct (blank_pending f).
Qed.

Lemma write_flat_out (text : string) (indent : bool) (f : IndentFile) :
  nrindents f = 0%Z ->
  let f' := write text indent f in
  out f' = out f +:+ lead f text +:+ text /\
  blank_pending f' = blank_pending f && String.eqb text "" /\
  nrindents f' = 0%Z.
Proof.
  intros Hf. cbn zeta. rewrite (proj1 (write_level _ _ _)), Hf.
  rewrite write_flat by (by rewrite Hf, Z.mul_0_r).
  destruct (write_unindented text f) as [-> ->]. done.
Qed.

(** ** More on version ranges *)

Lemma append_nonempty_r (s t : string) : t <> "" -> s +:+ t <> "".
Proof. destruct s; [done |]. by rewrite append_cons. Qed.

(** X5: the range is the empty string only for an element that has neither
    a start nor an end generation. *)
Theorem versionRange_empty_iff (p : Project) (sgen egen : string) :
  versionRange p sgen egen = Some "" <-> sgen = "" /\ egen = "".
Proof.
  unfold versionRange. split.
  - destruct (String.eqb_spec sgen "") as [->|Hs];
      destruct (String.eqb_spec egen "") as [->|He]; [done | ..].
    + destruct (version_label p egen); [|done]. cbn. discriminate.
    + destruct (version_label p sgen) as [s|]; [|done]. cbn.
      intros [= H]. by apply append_nonempty_r in H.
    + destruct (version_label p sgen) as [s|]; [|done]. cbn.
      destruct (version_label p egen) as [e|]; [|done]. cbn.
      intros [= H]. by apply append_nonempty_r in H.
  - by intros [-> ->].
Qed.

Lemma version_label_index (p : Project) (g : nat) :
  version_label p (Py.str (N.of_nat g))
  = Py.getitem (versions p) (Z.of_nat g - 1).
Proof.
  unfold version_label. rewrite int_str. cbn [mbind option_bind].
  f_equal. lia.
Qed.

(** X6: a generation is read as a position that starts at one: generation
    [g] is labelled by the version at position [g - 1], and a generation
    beyond the number of versions makes [versionRange] raise. *)
Theorem versionRange_bounds (p : Project) (g : nat) :
  (1 <= g <= length (versions p) ->
   exists label,
     versions p !! (g - 1) = Some label /\
     versionRange p (Py.str (N.of_nat g)) "" = Some (label +:+ " -") /\
     versionRange p "" (Py.str (N.of_nat g)) = Some ("- " +:+ label)) /\
  (length (versions p) < g ->
   forall other,
     versionRange p (Py.str (N.of_nat g)) other = None /\
     versionRange p other (Py.str (N.of_nat g)) = None).
Proof.
  assert (String.eqb (Py.str (N.of_nat g)) "" = false) as Hne
    by apply eqb_empty_false, str_nonempty.
  split.
  - intros Hg. destruct (lookup_lt_is_Some_2 (versions p) (g - 1)) as [l Hl];
      [lia |].
    exists l. split; [done |]. unfold versionRange. rewrite Hne. cbn.
    replace g with (S (g - 1)) by lia.
    by rewrite (version_label_str p (g - 1) l Hl).
  - intros Hg other.
    assert (version_label p (Py.str (N.of_nat g)) = None) as Hnone.
    { rewrite version_label_index. unfold Py.getitem.
      rewrite (proj2 (Z.leb_le 0 (Z.of_nat g - 1))) by lia.
      apply lookup_ge_None_2. lia. }
    unfold versionRange. rewrite Hne, Hnone.
    destruct (String.eqb other ""); [done |].
    split; [done |]. by destruct (version_label p other).
Qed.

Lemma versionRange_bounds_witness :
  versionRange example_project "3" "" = Some "3.0 -" /\
  versionRange example_project "4" "" = None.
Proof.
  destruct (versionRange_bounds example_project 3) as [Hin _].
  destruct (versionRange_bounds example_project 4) as [_ Hout].
  split.
  - destruct Hin as (label & Hl & Hs & _); [cbn; lia |].
    cbn in Hl. injection Hl as <-. exact Hs.
  - destruct (Hout ltac:(cbn; lia) "") as [H _]. exact H.
Defined.

(** X7: the generation [0] does not raise: the position [-1] it is read as
    counts from the end, so that it is labelled by the last version. *)
Theorem versionRange_generation_zero (p : Project) (label : string) :
  last (versions p) = Some label ->
  versionRange p "0" "" = Some (label +:+ " -") /\
  versionRange p "" "0" = Some ("- " +:+ label).
Proof.
  intros Hl.
  assert (version_label p "0" = Some label) as H.
  { unfold version_label. cbn [Py.int Py.strip mbind option_bind].
    change (Py.int "0") with (Some 0%Z). cbn [mbind option_bind].
    unfold Py.getitem. change (0 - 1)%Z with (-1)%Z.
    change (0 <=? -1)%Z with false. cbn iota.
    rewrite last_lookup in Hl.
    assert (0 < length (versions p)) as Hlen.
    { destruct (versions p); [done | cbn; lia]. }
    rewrite (proj2 (Z.leb_le 0 (Z.of_nat (length (versions p)) + -1))) by lia.
    rewrite <- Hl. f_equal. lia. }
  unfold versionRange. cbn [String.eqb]. by rewrite H.
Qed.

Lemma versionRange_generation_zero_witness :
  versionRange example_project "0" "" = Some "3.0 -".
Proof.
  by destruct (versionRange_generation_zero example_project "3.0" eq_refl).
Defined.

(** X8: [addVersion] makes the new version the label of the new current
    generation, and leaves the labels of the generations before it. *)
Theorem addVersion_labels (vers : string) (p : Project) :
  let p' := addVersion vers p in
  generation p' = N.of_nat (S (length (versions p))) /\
  dirty p' = true /\
  versionRange p' (Py.str (generation p')) "" = Some (vers +:+ " -") /\
  forall g, 1 <= g <= length (versions p) ->
    version_label p' (Py.str (N.of_nat g))
    = version_label p (Py.str (N.of_nat g)).
Proof.
  cbn zeta. unfold addVersion. cbn [generation dirty].
  rewrite length_app. cbn [length].
  replace (length (versions p) + 1) with (S (length (versions p))) by lia.
  split; [done |]. split; [done |]. split.
  - unfold versionRange.
    rewrite (eqb_empty_false _ (str_nonempty _)). cbn [String.eqb].
    erewrite version_label_str; [done |]. cbn [versions].
    by apply list_lookup_middle.
  - intros g Hg. rewrite !version_label_index. cbn [versions].
    unfold Py.getitem.
    rewrite (proj2 (Z.leb_le 0 (Z.of_nat g - 1))) by lia.
    apply lookup_app_l. lia.
Qed.

(** ** Types and signatures *)

Lemma startswith_nil (s : string) : Py.startswith "" s = true.
Proof. by destruct s. Qed.

Lemma startswith_cons (c x : ascii) (p s : string) :
  Py.startswith (String c p) (String x s)
  = Ascii.eqb c x && Py.startswith p s.
Proof.
  unfold Py.startswith. cbn.
  destruct (Ascii.eqb_spec c x) as [->|H].
  - by destruct (ascii_dec x x).
  - by destruct (ascii_dec c x).
Qed.

Lemma startswith_char (c x : ascii) (s : string) :
  Py.startswith (String c "") (String x s) = Ascii.eqb c x.
Proof. by rewrite startswith_cons, startswith_nil, andb_true_r. Qed.

Lemma contains_char_cons (c x : ascii) (s : string) :
  Py.contains (String c "") (String x s)
  = Ascii.eqb c x || Py.contains (String c "") s.
Proof. cbn [Py.contains]. by rewrite startswith_char. Qed.













(** ** A name inside a type *)

Lemma replace_go_absent (old new s : string) :
  Py.contains old s = false -> Py.replace_go old new 0 s = s.
Proof.
  induction s as [|x s IH]; [done |]. cbn [Py.contains Py.replace_go].
  intros [-> Hs]%orb_false_elim. by rewrite IH.
Qed.

Lemma percent_go_plain (s arg : string) (used : bool) :
  Py.contains "%" s = false ->
  Py.percent_go s arg used false = if used then Some s else None.
Proof.
  induction s as [|x s IH]; [done |].
  rewrite contains_char_cons. intros [Hx Hs]%orb_false_elim.
  cbn [Py.percent_go]. rewrite Ascii.eqb_sym, Hx, (IH Hs).
  by destruct used.
Qed.

Lemma percent_go_embedded (a b arg : string) :
  Py.contains "%" a = false -> Py.contains "%" b = false ->
  Py.percent_go (a +:+ "%s" +:+ b) arg false false = Some (a +:+ arg +:+ b).
Proof.
  intros Ha Hb. induction a as [|x a IH].
  - rewrite !append_nil_l.
    change (Py.percent_go ("%s" +:+ b) arg false false)
      with (r ← Py.percent_go b arg true false; Some (arg +:+ r)).
    by rewrite (percent_go_plain b arg true Hb).
  - rewrite contains_char_cons in Ha. apply orb_false_elim in Ha as [Hx Ha].
    rewrite (append_cons x a ("%s" +:+ b)), (append_cons x a (arg +:+ b)).
    cbn [Py.percent_go]. by rewrite Ascii.eqb_sym, Hx, (IH Ha).
Qed.

Lemma contains_embedded (a b : string) :
  Py.contains "%s" (a +:+ "%s" +:+ b) = true.
Proof.
  induction a as [|x a IH].
  - change ("" +:+ "%s" +:+ b) with (String "%" (String "s" b)).
    cbn [Py.contains]. by rewrite !startswith_cons, startswith_nil.
  - rewrite append_cons. cbn [Py.contains]. rewrite IH. apply orb_true_r.
Qed.

(** X10: in a type that holds one [%s], as the type of an array or of a
    pointer to a function does, the name takes the place of the [%s]
    instead of being added after the type. *)
Theorem expandType_embedded_name (a b name : string) :
  Py.contains "%" a = false -> Py.contains "%" b = false ->
  Py.contains "long int" (a +:+ "%s" +:+ b) = false ->
  _expandType (a +:+ "%s" +:+ b) name None = Some (a +:+ name +:+ b).
Proof.
  intros Ha Hb Hlong. unfold _expandType.
  assert (a +:+ "%s" +:+ b <> "") as Hne by (by destruct a).
  rewrite (eqb_empty_false _ Hne). unfold Py.replace.
  rewrite (replace_go_absent _ _ _ Hlong), contains_embedded.
  by apply percent_go_embedded.
Qed.

Lemma expandType_embedded_name_witness :
  _expandType "int %s[4]" "table" None = Some "int table[4]".
Proof.
  apply (expandType_embedded_name "int " "[4]" "table");
    reflexivity.
Defined.

(** ** More on the merge *)

Lemma string_length_app (s t : string) :
  String.length (s +:+ t) = String.length s + String.length t.
Proof.
  induction s as [|c s IH]; [done |]. rewrite append_cons. cbn. by rewrite IH.
Qed.

Lemma append_eq_r (a s : string) : a +:+ s = s -> a = "".
Proof.
  intros H. apply (f_equal String.length) in H.
  rewrite string_length_app in H. destruct a; [done |]. cbn in H. lia.
Qed.

Lemma sipAnnos_nonempty (a : string) : a <> "" -> sipAnnos a <> "".
Proof. intros H. unfold sipAnnos. by rewrite (eqb_empty_false _ H). Qed.

(** The signature of a variable, a typedef or an opaque class holds its
    annotations. *)
Lemma decl_signature_annos (a : string) (d : Decl) (s0 : string) :
  decl_kind d = KVariable \/ decl_kind d = KTypedef
  \/ decl_kind d = KOpaqueClass ->
  a <> "" -> decl_signature "" d = Some s0 ->
  exists s, decl_signature a d = Some s /\ s <> s0.
Proof.
  intros Hk Ha. pose proof (sipAnnos_nonempty a Ha) as Hne.
  destruct d; cbn in Hk; try (by destruct Hk as [?|[?|?]]);
    cbn [decl_signature].
  - destruct (_expandType vtype vname None) as [e|]; [|done].
    cbn. intros [= <-]. eexists. split; [done |].
    change (sipAnnos "") with "".
    destruct static; rewrite !append_assoc; intros H;
      repeat apply append_inj_l in H; by apply append_eq_r in H.
  - destruct (_expandType ttype tname None) as [e|]; [|done].
    cbn. intros [= <-]. eexists. split; [done |].
    change (sipAnnos "") with "".
    intros H. by do 2 apply append_inj_l in H.
  - intros [= <-]. eexists. split; [done |].
    change (sipAnnos "") with "".
    rewrite !append_assoc. intros H. do 2 apply append_inj_l in H.
    by apply append_eq_r in H.
Qed.

(** X11: annotations are part of the signature of a variable, a typedef
    and an opaque class.  Once such a declaration has been annotated, the
    declaration that the parser makes from the same header, which has no
    annotations, does not match it: the merge retires the annotated
    declaration and adds the parsed one as new. *)
Theorem annotated_declaration_is_replaced (gen : N) (b b0 : CodeBase)
    (d : Decl) :
  decl_kind d = KVariable \/ decl_kind d = KTypedef
  \/ decl_kind d = KOpaqueClass ->
  egen b = "" -> annos b <> "" -> annos b0 = "" ->
  is_Some (decl_signature "" d) ->
  _mergeCode gen [Leaf b d] [Leaf b0 d]
  = Some [set_egen (Py.str gen) (Leaf b d);
          set_sgen (Py.str gen) (Leaf b0 d)].
Proof.
  intros Hk He Ha Ha0 [s0 Hs0].
  destruct (decl_signature_annos (annos b) d s0 Hk Ha Hs0) as (s & Hs & Hne).
  assert (merge_item gen (Leaf b d) [Leaf b0 d]
          = Some (set_egen (Py.str gen) (Leaf b d), [Leaf b0 d])) as Hitem.
  { rewrite merge_item_unfold. unfold isCurrent. cbn [base]. rewrite He.
    cbn [String.eqb negb].
    assert (isManualCode (Leaf b d) = false) as ->.
    { unfold isManualCode. apply bool_decide_eq_false. cbn.
      by destruct Hk as [Hk|[Hk|Hk]]; rewrite Hk. }
    cbn [find_match]. unfold matches. cbn [type_of signature].
    rewrite bool_decide_eq_true_2 by done. rewrite Ha0, Hs, Hs0.
    cbn [mbind option_bind].
    by rewrite (proj2 (String.eqb_neq s s0) Hne). }
  unfold _mergeCode. rewrite merge_existing_cons, Hitem. done.
Qed.

Lemma annotated_declaration_is_replaced_witness :
  let d := Typedef "Size" "unsigned int" in
  _mergeCode 2 [Leaf (mkCodeBase "" "" "PyInt" "" "1" "") d]
               [Leaf (mkCodeBase "" "" "" "unknown" "" "") d]
  = Some [Leaf (mkCodeBase "" "" "PyInt" "" "1" "2") d;
          Leaf (mkCodeBase "" "" "" "unknown" "2" "") d].
Proof.
  intros d.
  apply (annotated_declaration_is_replaced 2
           (mkCodeBase "" "" "PyInt" "" "1" "")
           (mkCodeBase "" "" "" "unknown" "" "") d);
    [by right; left | reflexivity | discriminate | reflexivity | by eexists].
Defined.

(** X12: what the merge keeps of an existing child: its place, its class,
    its signature and all attributes but the end generation, which either
    stays or becomes the current generation. *)
Theorem mergeCode_keeps_attributes (gen : N) (content ssc content' : list Code)
    (i : nat) (dsi : Code) :
  _mergeCode gen content ssc = Some content' ->
  content !! i = Some dsi ->
  exists dsi',
    content' !! i = Some dsi' /\
    type_of dsi' = type_of dsi /\ signature dsi' = signature dsi /\
    platforms (base dsi') = platforms (base dsi) /\
    features (base dsi') = features (base dsi) /\
    annos (base dsi') = annos (base dsi) /\
    status (base dsi') = status (base dsi) /\
    sgen (base dsi') = sgen (base dsi) /\
    (egen (base dsi') = egen (base dsi) \/
     egen (base dsi) = "" /\ egen (base dsi') = Py.str gen).
Proof.
  intros H Hi.
  apply list_elem_of_split_length in Hi as (pre & post & -> & ->).
  destruct (mergeCode_item _ _ _ _ _ _ H)
    as (pre' & rem & dsi' & rem' & _ & Hcase & Hlook & _).
  exists dsi'. split; [done |].
  destruct Hcase as [Hc|Hc Hm|Hc Hm Hf|ssi rest d Hc Hm Hf Hd].
  - repeat split; auto.
  - repeat split; auto.
  - destruct (set_egen_base (Py.str gen) dsi) as (He & Hs & Ht & _ & Hsig).
    unfold isCurrent in Hc. apply String.eqb_eq in Hc.
    do 2 (split; [done |]).
    do 4 (split; [by destruct dsi |]). split; [done |]. by right.
  - destruct dsi as [b c l|b n t l|b d0]; cbn [merge_content] in Hd.
    + destruct (merge_existing _ l _) as [q|]; [|done].
      cbn in Hd. injection Hd as <-. by repeat split; auto.
    + destruct (merge_existing _ l _) as [q|]; [|done].
      cbn in Hd. injection Hd as <-. by repeat split; auto.
    + injection Hd as <-. by repeat split; auto.
Qed.

Lemma mergeCode_keeps_attributes_witness :
  exists dsi',
    [example_method "keep" "1" ""; set_egen "2" (example_method "gone" "1" "")]
      !! 1 = Some dsi' /\
    annos (base dsi') = "" /\ sgen (base dsi') = "1".
Proof.
  destruct (mergeCode_keeps_attributes 2
              [example_method "keep" "1" ""; example_method "gone" "1" ""]
              [example_method "keep" "" "unknown"]
              [example_method "keep" "1" "";
               set_egen "2" (example_method "gone" "1" "")]
              1 (example_method "gone" "1" "") eq_refl eq_refl)
    as (dsi' & Hl & _ & _ & _ & _ & Ha & _ & Hs & _).
  exists dsi'. split; [exact Hl |]. split; [exact Ha | exact Hs].
Defined.


(** ** What the signature of a callable reads *)

Lemma args_signature_fields (l l' : list Argument) :
  arg_type <$> l = arg_type <$> l' ->
  arg_default <$> l = arg_default <$> l' ->
  args_signature l = args_signature l'.
Proof.
  unfold args_signature. intros Ht Hd. f_equal.
  revert l' Ht Hd. induction l as [|a l IH]; intros [|a' l'] Ht Hd;
    try done.
  injection Ht as Ht0 Ht. injection Hd as Hd0 Hd.
  cbn [mapM]. by rewrite (arg_signature_fields a a' Ht0 Hd0), (IH l' Ht Hd).
Qed.

(** X14: the signature of a function, a constructor, a method or an
    operator reads its name, its return type, the types and the default
    values of its arguments, its qualifiers and its access.  It reads
    neither the names, the Python types and the annotations of the
    arguments, nor the Python signature, the annotations, the docstring
    and the code of the callable: changing these leaves the signature, and
    so what the merge matches, as it is. *)
Theorem callable_signature_fields (c c' : Callable) (annos annos' : string) :
  name c = name c' -> rtype c = rtype c' ->
  arg_type <$> args c = arg_type <$> args c' ->
  arg_default <$> args c = arg_default <$> args c' ->
  decl_signature annos (Function c) = decl_signature annos' (Function c') /\
  decl_signature annos (OperatorFunction c)
  = decl_signature annos' (OperatorFunction c') /\
  (forall access explicit,
     decl_signature annos (Constructor c access explicit)
     = decl_signature annos' (Constructor c' access explicit)) /\
  (forall access const,
     decl_signature annos (OperatorCast c access const)
     = decl_signature annos' (OperatorCast c' access const)) /\
  (forall access virtual const static abstract virtcode virtcode',
     decl_signature annos
       (Method c access virtual const static abstract virtcode)
     = decl_signature annos'
         (Method c' access virtual const static abstract virtcode')) /\
  (forall access virtual const abstract virtcode virtcode',
     decl_signature annos
       (OperatorMethod c access virtual const abstract virtcode)
     = decl_signature annos'
         (OperatorMethod c' access virtual const abstract virtcode')).
Proof.
  intros Hn Hr Ht Hd. pose proof (args_signature_fields _ _ Ht Hd) as Ha.
  cbn [decl_signature].
  unfold classcallable_signature, callable_signature.
  rewrite Hn, Hr, Ha. by repeat split.
Qed.

Lemma callable_signature_fields_witness :
  let arg n := mkArgument "int" n false "" "" "" in
  decl_signature "" (Function (mkCallable "f" "void" "" "" [arg "x"] "" ""))
  = decl_signature "Factory"
      (Function (mkCallable "f" "void" "SIP_PYOBJECT" "(count)" [arg "count"]
                            "doc" "code")).
Proof.
  intros arg.
  by destruct (callable_signature_fields
                 (mkCallable "f" "void" "" "" [arg "x"] "" "")
                 (mkCallable "f" "void" "SIP_PYOBJECT" "(count)"
                             [arg "count"] "doc" "code")
                 "" "Factory" eq_refl eq_refl eq_refl eq_refl) as [H _].
Defined.

(** ** Lists kept as strings *)

Lemma flush_app (cur : list ascii) (acc : list string) :
  Py.flush cur acc = Py.flush cur [] ++ acc.
Proof. by destruct cur. Qed.

Lemma split_go_space (s t : string) (cur : list ascii) :
  Py.split_go (s +:+ " " +:+ t) cur = Py.split_go s cur ++ Py.split_go t [].
Proof.
  revert cur. induction s as [|c s IH]; intros cur.
  - rewrite append_nil_l. cbn [Py.split_go]. cbn. apply flush_app.
  - rewrite append_cons. cbn [Py.split_go]. destruct (Py.isspace c).
    + rewrite IH, (flush_app cur (_ ++ _)), (flush_app cur (Py.split_go s [])).
      by rewrite app_assoc.
    + apply IH.
Qed.

Lemma split_add_word (s word : string) :
  Py.split (add_word s word) = Py.split s ++ Py.split word.
Proof.
  unfold add_word, Py.split. destruct (String.eqb_spec s "") as [->|Hs].
  - done.
  - rewrite append_assoc. apply split_go_space.
Qed.

(** X15: the words of the platforms, features and external modules of a
    project are those it had, followed by the words that are added; each
    addition marks the project as changed. *)
Theorem add_tag_appends (word : string) (p : Project) :
  (Py.split (prj_platforms (addPlatform word p))
   = Py.split (prj_platforms p) ++ Py.split word
   /\ dirty (addPlatform word p) = true) /\
  (Py.split (prj_features (addFeature word p))
   = Py.split (prj_features p) ++ Py.split word
   /\ dirty (addFeature word p) = true) /\
  (Py.split (externalmodules (addExternalModule word p))
   = Py.split (externalmodules p) ++ Py.split word
   /\ dirty (addExternalModule word p) = true).
Proof. repeat split; apply split_add_word. Qed.

(** ** Ignored namespaces *)

Lemma startswith_app (p t : string) : Py.startswith p (p +:+ t) = true.
Proof.
  induction p as [|c p IH]; [apply startswith_nil |].
  rewrite append_cons, startswith_cons, IH. by rewrite Ascii.eqb_refl.
Qed.

Lemma substring_0_all (s : string) : substring 0 (String.length s) s = s.
Proof. induction s as [|c s IH]; [done |]. cbn. by rewrite IH. Qed.

Lemma slice_suffix (p t : string) :
  Py.slice (String.length p) (String.length (p +:+ t)) (p +:+ t) = t.
Proof.
  unfold Py.slice. rewrite string_length_app.
  replace (String.length p + String.length t - String.length p)
    with (String.length t) by lia.
  induction p as [|c p IH]; [apply substring_0_all |].
  by rewrite append_cons.
Qed.

Lemma strip_namespace_first (pre post : list string) (n t : string) :
  Forall (fun m => Py.startswith (m +:+ "::") (n +:+ "::" +:+ t) = false) pre ->
  strip_namespace (pre ++ n :: post) (n +:+ "::" +:+ t) = t.
Proof.
  induction 1 as [|m pre Hm _ IH].
  - cbn [app strip_namespace]. rewrite <- append_assoc, startswith_app.
    apply slice_suffix.
  - cbn [app strip_namespace]. by rewrite Hm.
Qed.

Lemma strip_namespace_none (ins : list string) (typ : string) :
  Forall (fun m => Py.startswith (m +:+ "::") typ = false) ins ->
  strip_namespace ins typ = typ.
Proof.
  induction 1 as [|m ins Hm _ IH]; [done |].
  cbn [strip_namespace]. by rewrite Hm.
Qed.

Lemma ignoreNamespaces_plain (ins : list string) (typ : string) :
  Py.find "<" (strip_namespace ins typ) = None ->
  _ignoreNamespaces ins typ = strip_namespace ins typ.
Proof.
  intros H. unfold _ignoreNamespaces.
  destruct (String.length typ); cbn [ignoreNamespaces_go]; by rewrite ?H.
Qed.

(** X16: of a type without template arguments,
    [_ignoreNamespaces] removes the first of the ignored namespaces that
    starts the type, and removes it once: what follows it is returned as it
    is, even where it starts with an ignored namespace again.  A type that
    no ignored namespace starts is returned as it is. *)
Theorem ignoreNamespaces_first_once (pre post : list string) (n t : string) :
  Forall (fun m => Py.startswith (m +:+ "::") (n +:+ "::" +:+ t) = false) pre ->
  Py.find "<" t = None ->
  _ignoreNamespaces (pre ++ n :: post) (n +:+ "::" +:+ t) = t /\
  (Forall (fun m => Py.startswith (m +:+ "::") t = false)
          (pre ++ n :: post) ->
   _ignoreNamespaces (pre ++ n :: post) t = t).
Proof.
  intros Hpre Ht. split.
  - rewrite ignoreNamespaces_plain; rewrite strip_namespace_first; done.
  - intros Hnone.
    rewrite ignoreNamespaces_plain; rewrite strip_namespace_none; done.
Qed.

Lemma ignoreNamespaces_first_once_witness :
  _ignoreNamespaces ["Qt"; "Core"] "Core::Core::Size" = "Core::Size" /\
  _ignoreNamespaces ["Qt"; "Core"] "Size" = "Size".
Proof.
  destruct (ignoreNamespaces_first_once ["Qt"] [] "Core" "Core::Size")
    as [H _]; [by repeat constructor | reflexivity |].
  destruct (ignoreNamespaces_first_once ["Qt"] [] "Core" "Size")
    as [_ H']; [by repeat constructor | reflexivity |].
  split; [exact H | apply H'; by repeat constructor].
Defined.

(** ** The files of a module *)

Section GenerateFiles.

Context (sip_child :
           bool -> HeaderFile -> Code -> IndentFile -> option IndentFile)
        (abspath : string -> string)
        (path_join : string -> string -> string)
        (basename splitext_root : string -> string)
        (asctime : nat -> string)
        (open_error : gmap string string -> string -> option string).

#[local] Abbreviation pname := (sip_pname path_join basename splitext_root).
#[local] Abbreviation headers :=
  (generate_headers sip_child path_join basename splitext_root asctime
                    open_error).
#[local] Abbreviation generate :=
  (generateModule sip_child abspath path_join basename splitext_root asctime
                  open_error).
#[local] Abbreviation boilerplate :=
  (sip_boilerplate basename splitext_root).
#[local] Abbreviation text_of_header :=
  (header_text sip_child path_join basename splitext_root asctime).
#[local] Abbreviation text_of_module :=
  (module_text path_join basename splitext_root asctime).

(** The standard header of a new file. *)
Lemma boilerplate_out (p : Project) (m : Module_) (hf : option HeaderFile)
    (now path : string) :
  let f := boilerplate p m hf now (new_file path 4) in
  out f = boilerplate_text basename splitext_root p m hf now /\
  blank_pending f = true /\ nrindents f = 0%Z /\ f_name f = path.
Proof.
  unfold sip_boilerplate, boilerplate_text.
  set (t1 := "// " +:+ _ +:+ " generated by MetaSIP on " +:+ _).
  assert (t1 <> "") as Ht1 by done.
  destruct (write_flat_out t1 true (new_file path 4) eq_refl)
    as (Ho1 & Hb1 & Hn1).
  set (f1 := write t1 true (new_file path 4)) in *.
  rewrite (eqb_empty_false _ Ht1) in Hb1. unfold lead in Ho1.
  cbn [new_file out blank_pending andb] in Ho1, Hb1.
  set (f2 := if String.eqb (sipcomments p) "" then f1 else _).
  assert (out f2 = t1 +:+ (if String.eqb (sipcomments p) "" then ""
                           else "//" +:+ nl +:+ sipcomments p +:+ nl)
          /\ blank_pending f2 = false /\ nrindents f2 = 0%Z) as (Ho2 & Hb2 & Hn2).
  { subst f2. destruct (String.eqb (sipcomments p) "").
    - by rewrite append_empty_r.
    - destruct (write_flat_out ("//" +:+ nl +:+ sipcomments p +:+ nl) true f1
                  Hn1) as (-> & -> & ->).
      unfold lead. rewrite Hb1, Ho1. done. }
  destruct (write_flat_out nl true f2 Hn2) as (Ho3 & Hb3 & Hn3).
  set (f3 := write nl true f2) in *.
  unfold lead in Ho3. rewrite Hb2, Ho2 in Ho3. cbn [andb] in Ho3.
  assert (suppressblank f3 = false) as Hs3 by done.
  cbn zeta. unfold blank. rewrite Hs3. cbn [out blank_pending nrindents set_blank f_name].
  split; [|split; [done | split; [done |]]].
  - rewrite Ho3. subst t1. by rewrite !append_assoc.
  - subst f3. rewrite write_name. subst f2.
    destruct (String.eqb (sipcomments p) ""); subst f1; by rewrite !write_name.
Qed.


Lemma boilerplate_name (p : Project) (m : Module_) (hf : option HeaderFile)
    (now path : string) :
  f_name (boilerplate p m hf now (new_file path 4)) = path.
Proof. apply boilerplate_out. Qed.

(** When every file can be created and every header is written, the loop
    over the headers completes; the file of a header holds the text written
    for it unless a later header has the same file, and the other files are
    as before. *)
Lemma headers_written (od : string) (m : Module_) (latest_sip : bool)
    (hfs : list HeaderFile) (st : GenState) :
  (forall files hf, hf ∈ hfs ->
     open_error files (pname od m (Some hf)) = None) ->
  renders sip_child latest_sip (gs_prj st) hfs ->
  exists st',
    headers od m latest_sip hfs st
    = Some (st', Some ((fun hf => basename (pname od m (Some hf))) <$> hfs)) /\
    gs_prj st' = gs_prj st /\
    gs_clock st' = gs_clock st + length hfs /\
    (forall i hf, hfs !! i = Some hf ->
       (forall j hf', i < j -> hfs !! j = Some hf' ->
                      pname od m (Some hf') <> pname od m (Some hf)) ->
       gs_files st' !! pname od m (Some hf)
       = text_of_header (gs_prj st) od m latest_sip (gs_clock st + i) hf) /\
    (forall path, path ∉ (fun hf => pname od m (Some hf)) <$> hfs ->
       gs_files st' !! path = gs_files st !! path).
Proof.
  revert st. induction hfs as [|hf rest IH]; intros st Hopen Hrender.
  - exists st. split; [done |]. split; [done |]. split; [cbn; lia |].
    split; [by intros i hf Hi | done].
  - rewrite headers_cons.
    rewrite createSIPFile_created_eq by (apply Hopen; left).
    cbn [fst snd gs_prj].
    destruct (Hrender hf (boilerplate (gs_prj st) m (Some hf)
                            (asctime (gs_clock st))
                            (new_file (pname od m (Some hf)) 4)))
      as [g Hg]; [left |].
    rewrite Hg. cbn [mbind option_bind]. rewrite boilerplate_name.
    set (st2 := close_file _ g _).
    destruct (IH st2) as (st' & Hrest & Hprj & Hclock & Htexts & Hother);
      [by intros files h Hin; apply Hopen; right
      | by intros h f' Hin; apply Hrender; right |].
    exists st'. rewrite Hrest. cbn [mbind option_bind fst snd fmap list_fmap].
    split; [done |]. split; [done |].
    split; [rewrite Hclock; cbn; lia |]. split.
    + intros [|i] h Hi Hlast.
      * injection Hi as <-. rewrite Hother.
        -- unfold header_text. rewrite Nat.add_0_r, Hg. subst st2.
           cbn [close_file gs_files fmap option_fmap option_map].
           by rewrite lookup_insert_eq.
        -- intros (h' & Heq & [j Hj]%list_elem_of_lookup_1)%list_elem_of_fmap_1.
           by apply (Hlast (S j) h'); [lia | |].
      * rewrite (Htexts i h Hi).
        -- subst st2. cbn [close_file gs_prj gs_clock].
           by replace (S (gs_clock st) + i) with (gs_clock st + S i) by lia.
        -- intros j h' Hj Hh'. apply (Hlast (S j) h'); [lia | done].
    + intros path Hpath. apply not_elem_of_cons in Hpath as [Hne Hpath].
      rewrite (Hother _ Hpath). subst st2. cbn [close_file gs_files].
      by rewrite !lookup_insert_ne.
Qed.

Lemma generate_written (st : GenState) (m : Module_) (od : string)
    (saveod latest_sip : bool) :
  let p := gs_prj (start_state abspath st od saveod) in
  (forall files hf,
     is_output m hf -> open_error files (pname (abspath od) m hf) = None) ->
  renders sip_child latest_sip p (mod_content m) ->
  exists st',
    generate st m od saveod latest_sip = Some (true, st') /\
    gs_files st' !! pname (abspath od) m None
    = Some (text_of_module p (abspath od) m latest_sip
              (gs_clock st + length (mod_content m))) /\
    forall i hf, mod_content m !! i = Some hf ->
      pname (abspath od) m (Some hf) <> pname (abspath od) m None ->
      (forall j hf', i < j -> mod_content m !! j = Some hf' ->
         pname (abspath od) m (Some hf') <> pname (abspath od) m (Some hf)) ->
      gs_files st' !! pname (abspath od) m (Some hf)
      = text_of_header p (abspath od) m latest_sip (gs_clock st + i) hf.
Proof.
  intros p Hopen Hrender. rewrite generate_unfold.
  destruct (headers_written (abspath od) m latest_sip (mod_content m)
              (start_state abspath st od saveod))
    as (st1 & -> & Hprj & Hclock & Htexts & Hother);
    [by intros files hf Hin; apply (Hopen files (Some hf)) | done |].
  cbn [mbind option_bind fst snd].
  rewrite createSIPFile_created_eq by apply (Hopen _ None I).
  cbn [fst snd gs_prj gs_files gs_clock].
  assert (gs_clock (start_state abspath st od saveod) = gs_clock st) as Hc0
    by (unfold start_state; by destruct (_ && _)).
  eexists. split; [done |]. cbn [close_file gs_files].
  rewrite boilerplate_name. split.
  - rewrite lookup_insert_eq. unfold module_text.
    by rewrite Hprj, Hclock, Hc0.
  - intros i hf Hi Hroot Hlast.
    rewrite !lookup_insert_ne by done.
    rewrite (Htexts i hf Hi Hlast). by rewrite Hc0.
Qed.


(** X17: when every file can be created and every header is written,
    [generateModule] returns [True]; the file of the module holds the text
    written for it, and the file of a header holds the text written for
    the header unless a later header, or the module, has the same file,
    which then holds the text that was written last. *)
Theorem generateModule_files (st : GenState) (m : Module_) (od : string)
    (saveod latest_sip : bool) :
  let p := gs_prj (start_state abspath st od saveod) in
  (forall files hf,
     is_output m hf -> open_error files (pname (abspath od) m hf) = None) ->
  renders sip_child latest_sip p (mod_content m) ->
  exists st',
    generate st m od saveod latest_sip = Some (true, st') /\
    gs_files st' !! pname (abspath od) m None
    = Some (text_of_module p (abspath od) m latest_sip
              (gs_clock st + length (mod_content m))) /\
    forall i hf, mod_content m !! i = Some hf ->
      pname (abspath od) m (Some hf) <> pname (abspath od) m None ->
      (forall j hf', i < j -> mod_content m !! j = Some hf' ->
         pname (abspath od) m (Some hf') <> pname (abspath od) m (Some hf)) ->
      gs_files st' !! pname (abspath od) m (Some hf)
      = text_of_header p (abspath od) m latest_sip (gs_clock st + i) hf.
Proof. apply generate_written. Qed.

(** X18: a header whose status is not empty is not left out of the
    module: its file is created, and holds the standard header only. *)
Theorem generateModule_ignored_header (st : GenState) (m : Module_)
    (od : string) (saveod latest_sip : bool) (i : nat) (hf : HeaderFile) :
  let p := gs_prj (start_state abspath st od saveod) in
  (forall files hf,
     is_output m hf -> open_error files (pname (abspath od) m hf) = None) ->
  renders sip_child latest_sip p (mod_content m) ->
  mod_content m !! i = Some hf -> hf_status hf <> "" ->
  pname (abspath od) m (Some hf) <> pname (abspath od) m None ->
  (forall j hf', i < j -> mod_content m !! j = Some hf' ->
     pname (abspath od) m (Some hf') <> pname (abspath od) m (Some hf)) ->
  exists st',
    generate st m od saveod latest_sip = Some (true, st') /\
    gs_files st' !! pname (abspath od) m (Some hf)
    = Some (boilerplate_text basename splitext_root p m (Some hf)
              (asctime (gs_clock st + i))).
Proof.
  intros p Hopen Hrender Hi Hstatus Hroot Hlast.
  destruct (generate_written st m od saveod latest_sip Hopen Hrender)
    as (st' & Hgen & _ & Hfiles).
  exists st'. split; [done |]. rewrite (Hfiles i hf Hi Hroot Hlast).
  unfold header_text, HeaderFile_sip.
  rewrite (eqb_empty_false _ Hstatus).
  cbn [fmap option_fmap option_map]. f_equal. apply boilerplate_out.
Qed.

End GenerateFiles.

Lemma generateModule_files_witness :
  exists st',
    example_generate false = Some (true, st') /\
    gs_files st' !! "/out/a.sip"
    = header_text example_sip_child example_join example_basename
        example_splitext_root example_asctime example_project "/out"
        example_module true 0 (example_plain_header "a.h").
Proof.
  destruct (generateModule_files example_sip_child example_abspath
              example_join example_basename example_splitext_root
              example_asctime (example_open_error false) example_state
              example_module "/out" true true)
    as (st' & Hgen & _ & Hfiles); [done | apply example_renders |].
  exists st'. split; [exact Hgen |].
  apply (Hfiles 0 (example_plain_header "a.h") eq_refl); [discriminate |].
  intros [|[|j]] hf' Hj Hhf'; [lia | | done].
  injection Hhf' as <-. discriminate.
Defined.

(** Two headers of the same base name share a file: it holds what was
    written for the second, and is included twice. *)
Example generateModule_collision :
  let m := mkModule "core" "" "" "" ""
             [example_plain_header "a/x.h"; example_plain_header "b/x.h"] in
  exists st',
    generateModule example_sip_child example_abspath example_join
      example_basename example_splitext_root (fun k => Py.str (N.of_nat k))
      (example_open_error false) example_state m "/out" true true
    = Some (true, st') /\
    gs_files st' !! "/out/x.sip"
    = header_text example_sip_child example_join example_basename
        example_splitext_root (fun k => Py.str (N.of_nat k)) example_project
        "/out" m true 1 (example_plain_header "b/x.h") /\
    gs_files st' !! "/out/coremod.sip"
    = Some (module_text example_join example_basename example_splitext_root
              (fun k => Py.str (N.of_nat k)) example_project "/out" m true 2).
Proof.
  eexists. split; [vm_compute; reflexivity |].
  split; vm_compute; reflexivity.
Qed.

Lemma generateModule_ignored_header_witness :
  exists st',
    generateModule example_sip_child example_abspath example_join
      example_basename example_splitext_root example_asctime
      (example_open_error false) example_state example_ignored_module "/out"
      true true
    = Some (true, st') /\
    gs_files st' !! "/out/a.sip"
    = Some ("// a.sip generated by MetaSIP on Thu Jan  1 00:00:00 1970" +:+ nl
            +:+ "//" +:+ nl
            +:+ "// This file is part of the core Python extension module."
            +:+ nl +:+ nl).
Proof.
  destruct (generateModule_ignored_header example_sip_child example_abspath
              example_join example_basename example_splitext_root
              example_asctime (example_open_error false) example_state
              example_ignored_module "/out" true true 0
              (mkHeaderFile None "a.h" "" "" "" "" "" "" "" "" "ignored" "" ""
                 [example_child]))
    as (st' & Hgen & Hfile);
    [done
    | by intros hf f Hin; apply list_elem_of_singleton in Hin as ->; eexists
    | reflexivity | discriminate
    | discriminate | intros [|j] hf' Hj Hhf'; [lia | done] |].
  exists st'. split; [exact Hgen | exact Hfile].
Defined.

(** ** The file of a module *)

Lemma write_imports_top (external ms : list string) (top : bool)
    (f : IndentFile) :
  (write_imports external ms top f).2
  = top && forallb (fun m => bool_decide (m ∈ external)) ms.
Proof.
  revert top f. induction ms as [|m ms IH]; intros top f.
  - cbn. by rewrite andb_true_r.
  - cbn [write_imports forallb]. rewrite IH.
    destruct (bool_decide (m ∈ external)); [done |].
    by rewrite andb_false_r.
Qed.

Lemma write_imports_file (external external' ms : list string)
    (top top' : bool) (f : IndentFile) :
  (write_imports external ms top f).1 = (write_imports external' ms top' f).1.
Proof.
  revert top top' f. induction ms as [|m ms IH]; intros top top' f; [done |].
  cbn [write_imports]. apply IH.
Qed.

Lemma split_nil : Py.split "" = [].
Proof. reflexivity. Qed.

(** X19: a module that imports a module that is not an external one
    is not a top level module: what is written to its file does not depend
    on the versions, the platforms and the features of the project. *)
Theorem write_module_not_top_level (p p' : Project) (m : Module_)
    (latest_sip : bool) (hfnames : list string) (f : IndentFile)
    (imported : string) :
  imported ∈ Py.split (imports m) ->
  imported ∉ Py.split (externalmodules p) ->
  rootmodule p' = rootmodule p -> externalmodules p' = externalmodules p ->
  write_module p' m latest_sip hfnames f
  = write_module p m latest_sip hfnames f.
Proof.
  intros Hin Hext Hroot Hxm. unfold write_module. rewrite Hroot, Hxm.
  destruct (String.eqb_spec (imports m) "") as [E|E].
  { rewrite E, split_nil in Hin. by apply elem_of_nil in Hin. }
  cbn [fst snd]. rewrite !write_imports_top. cbn [andb].
  assert (forallb (fun x => bool_decide (x ∈ Py.split (externalmodules p)))
                  (Py.split (imports m)) = false) as ->.
  { apply not_true_iff_false. intros H.
    rewrite forallb_forall in H. apply list_elem_of_In, H in Hin.
    by apply bool_decide_eq_true in Hin. }
  done.
Qed.

Lemma write_module_not_top_level_witness :
  let m := mkModule "gui" "" "" "core" "" [] in
  write_module (addVersion "2.0" (addFeature "ssl" example_project)) m true []
    (new_file "guimod.sip" 4)
  = write_module example_project m true [] (new_file "guimod.sip" 4).
Proof.
  intros m.
  apply (write_module_not_top_level example_project
           (addVersion "2.0" (addFeature "ssl" example_project)) m true []
           (new_file "guimod.sip" 4) "core");
    [by left | by intros H%elem_of_nil | reflexivity | reflexivity].
Defined.

(** ** What the [sip] methods keep of a file *)

Lemma wa_refl (n : Z) (f : IndentFile) : n = 0%Z -> written_after n f f.
Proof.
  intros ->. split; [exists ""; by rewrite append_empty_r |].
  split; [lia | done].
Qed.

Lemma wa_step (n m : Z) (f g h : IndentFile) :
  written_after m g h -> written_after (n - m) f g -> written_after n f h.
Proof.
  intros ([t2 Ho2] & Hn2 & Hi2 & Hf2) ([t1 Ho1] & Hn1 & Hi1 & Hf1).
  split; [exists (t1 +:+ t2); by rewrite Ho2, Ho1, append_assoc |].
  split; [lia | split; congruence].
Qed.

Lemma write_lines_appends (lines : list string) (indent : bool)
    (f : IndentFile) :
  exists text, out (write_lines lines indent f) = out f +:+ text.
Proof.
  revert f. induction lines as [|l lines IH]; intros f.
  - exists "". by rewrite append_empty_r.
  - assert (exists t, out (write_pad indent f) = out f +:+ t) as [t0 H0].
    { unfold write_pad. destruct (indent && indentnext f).
      - by eexists.
      - exists "". by rewrite append_empty_r. }
    destruct lines as [|x lines].
    + cbn. destruct (String.eqb l "").
      * exists "". by rewrite append_empty_r.
      * exists (t0 +:+ l). cbn. by rewrite H0, append_assoc.
    + rewrite write_lines_cons.
      destruct (IH (set_indentnext true
                      (raw_write (l +:+ nl) (write_pad indent f)))) as [t ->].
      cbn. rewrite H0. eexists. by rewrite !append_assoc.
Qed.

Lemma wa_write (data : string) (indent : bool) (f : IndentFile) :
  written_after 0 f (write data indent f).
Proof.
  split; [|split; [|split]].
  - unfold write. destruct (String.eqb data "").
    + exists "". by rewrite append_empty_r.
    + cbn [out set_suppressblank].
      destruct (write_lines_appends (Py.split_on "010" data) indent
                  (if blank_pending f then set_blank false (raw_write nl f)
                   else f)) as [t ->].
      destruct (blank_pending f); cbn; eexists; [by rewrite append_assoc | done].
  - rewrite (proj1 (write_level _ _ _)). lia.
  - apply write_level.
  - apply write_name.
Qed.

Lemma wa_blank (f : IndentFile) : written_after 0 f (blank f).
Proof.
  unfold blank. destruct (suppressblank f); [by apply wa_refl |].
  split; [exists ""; cbn; by rewrite append_empty_r |].
  split; [cbn; lia | done].
Qed.

Lemma wa_iadd (k : Z) (f : IndentFile) : written_after k f (iadd k f).
Proof.
  split; [exists ""; cbn; by rewrite append_empty_r | done].
Qed.

Lemma wa_isub (k : Z) (f : IndentFile) : written_after (- k) f (isub k f).
Proof.
  split; [exists ""; cbn; by rewrite append_empty_r |].
  split; [cbn; lia | done].
Qed.

Lemma wa_writeCodeSIP (directive code : string) (indent : bool)
    (f : IndentFile) :
  written_after 0 f (_writeCodeSIP directive code indent f).
Proof.
  unfold _writeCodeSIP.
  repeat first [ eapply wa_step; [apply wa_write |]
               | eapply wa_step; [apply wa_blank |]
               | eapply wa_step; [apply wa_iadd |]
               | eapply wa_step; [apply wa_isub |] ].
  apply wa_refl. lia.
Qed.

Ltac wa_basic :=
  repeat first [ eapply wa_step; [apply wa_write |]
               | eapply wa_step; [apply wa_blank |]
               | eapply wa_step; [apply wa_iadd |]
               | eapply wa_step; [apply wa_isub |]
               | eapply wa_step; [apply wa_writeCodeSIP |] ];
  try (apply wa_refl; lia).

Lemma wa_write_code (directive code : string) (indent : bool)
    (f : IndentFile) :
  written_after 0 f (write_code directive code indent f).
Proof. unfold write_code. destruct (String.eqb code ""); wa_basic. Qed.

Lemma wa_write_code_if (directive code : string) (f : IndentFile) :
  written_after 0 f (write_code_if directive code f).
Proof. unfold write_code_if. destruct (String.eqb code ""); wa_basic. Qed.

Lemma wa_writeDocstringSIP (docstring : string) (f : IndentFile) :
  written_after 0 f (_writeDocstringSIP docstring f).
Proof.
  unfold _writeDocstringSIP. destruct (String.eqb docstring ""); wa_basic.
Qed.

Lemma wa_writeMethCodeSIP (code : string) (f : IndentFile) :
  written_after 0 f (_writeMethCodeSIP code f).
Proof. unfold _writeMethCodeSIP. destruct (String.eqb code ""); wa_basic. Qed.

Lemma wa_writeVirtCodeSIP (code : string) (f : IndentFile) :
  written_after 0 f (_writeVirtCodeSIP code f).
Proof. unfold _writeVirtCodeSIP. destruct (String.eqb code ""); wa_basic. Qed.

Lemma wa_type_header (typeheadercode : string) (hf : HeaderFile)
    (f : IndentFile) :
  written_after 0 f (type_header typeheadercode hf f).
Proof. unfold type_header. destruct (negb _); wa_basic. Qed.

Lemma wa_open_if (cond : string) (f : IndentFile) :
  written_after 0 f (open_if cond f).
Proof. unfold open_if. wa_basic. Qed.

Lemma wa_close_if (f : IndentFile) : written_after 0 f (close_if f).
Proof. unfold close_if. wa_basic. Qed.

(** The steps by which a goal about a file is reduced to one about the
    file it was made from. *)
Ltac wa_one :=
  lazymatch goal with
  | |- written_after _ ?f ?f => apply wa_refl; lia
  | |- written_after _ _ (write _ _ _) => eapply wa_step; [apply wa_write |]
  | |- written_after _ _ (blank _) => eapply wa_step; [apply wa_blank |]
  | |- written_after _ _ (iadd _ _) => eapply wa_step; [apply wa_iadd |]
  | |- written_after _ _ (isub _ _) => eapply wa_step; [apply wa_isub |]
  | |- written_after _ _ (_writeCodeSIP _ _ _ _) =>
      eapply wa_step; [apply wa_writeCodeSIP |]
  | |- written_after _ _ (open_if _ _) => eapply wa_step; [apply wa_open_if |]
  | |- written_after _ _ (close_if _) => eapply wa_step; [apply wa_close_if |]
  | |- written_after _ _ (_writeDocstringSIP _ _) =>
      eapply wa_step; [apply wa_writeDocstringSIP |]
  | |- written_after _ _ (_writeMethCodeSIP _ _) =>
      eapply wa_step; [apply wa_writeMethCodeSIP |]
  | |- written_after _ _ (_writeVirtCodeSIP _ _) =>
      eapply wa_step; [apply wa_writeVirtCodeSIP |]
  | |- written_after _ _ (write_code _ _ _ _) =>
      eapply wa_step; [apply wa_write_code |]
  | |- written_after _ _ (write_code_if _ _ _) =>
      eapply wa_step; [apply wa_write_code_if |]
  | |- written_after _ _ (type_header _ _ _) =>
      eapply wa_step; [apply wa_type_header |]
  | |- written_after _ _ (if ?b then ?x else ?g) =>
      first [ eapply (wa_step _ 0%Z _ g);
              [solve [destruct b; wa_basic] |]
            | eapply (wa_step _ 0%Z _ x);
              [solve [destruct b; wa_basic] |]
            | destruct b ]
  | H : written_after 0 ?g ?h |- written_after _ _ ?h =>
      eapply wa_step; [exact H |]
  end.

Ltac wa := repeat wa_one.

Section SipAppends.

Context (prj : Project) (ignorednamespaces : string).

Lemma wa_Callable_sip (annos callname : string) (c : Callable)
    (f g : IndentFile) :
  Callable_sip ignorednamespaces annos callname c f = Some g ->
  written_after 0 f g.
Proof.
  unfold Callable_sip.
  destruct (returnType _ _ _) as [r|]; [|done]. cbn [mbind option_bind].
  destruct (sip_args _ _) as [a|]; [|done]. cbn [mbind option_bind].
  intros [= <-]. wa.
Qed.

Lemma wa_Enum_values (values : list EnumValue) (f g : IndentFile) :
  Enum_values prj values f = Some g -> written_after 0 f g.
Proof.
  revert f. induction values as [|e rest IH]; intros f.
  - intros [= <-]. wa.
  - cbn [Enum_values]. destruct (negb _); [apply IH |].
    destruct (versionRange _ _ _) as [v|]; [|done]. cbn [mbind option_bind].
    intros H%IH. wa.
Qed.

Lemma wa_variable_code (directive code : string) (n : Z) (f : IndentFile)
    (r : bool * IndentFile) :
  written_after n f r.2 ->
  written_after n f (variable_code directive code r).2.
Proof.
  intros H. unfold variable_code. destruct (String.eqb code ""); [done |].
  cbn [snd]. wa; (eapply wa_step; [exact H |]); wa.
Qed.

Lemma wa_Decl_sip (latest_sip : bool) (hf : HeaderFile) (b : CodeBase)
    (d : Decl) (f g : IndentFile) :
  Decl_sip prj ignorednamespaces latest_sip hf b d f = Some g ->
  written_after 0 f g.
Proof.
  destruct d; cbn [Decl_sip].
  - destruct (Callable_sip _ _ _ _ _) as [f1|] eqn:E; [|done].
    apply wa_Callable_sip in E. cbn [mbind option_bind]. intros [= <-]. wa.
  - destruct (Callable_sip _ _ _ _ _) as [f1|] eqn:E; [|done].
    apply wa_Callable_sip in E. cbn [mbind option_bind]. intros [= <-]. wa.
  - destruct (Callable_sip _ _ _ _ _) as [f1|] eqn:E; [|done].
    apply wa_Callable_sip in E. cbn [mbind option_bind].
    destruct (negb _ || _).
    + destruct (user_args c) as [a|]; [|done]. cbn [mbind option_bind].
      intros [= <-]. wa.
    + cbn [mbind option_bind]. intros [= <-]. wa.
  - intros [= <-]. wa.
  - destruct (Callable_sip _ _ _ _ _) as [f1|] eqn:E; [|done].
    apply wa_Callable_sip in E. cbn [mbind option_bind]. intros [= <-]. wa.
  - destruct (method_text _ _ _ _ _ _ _ _ _) as [s|]; [|done]. cbn [mbind option_bind].
    intros [= <-]. wa.
  - destruct (method_text _ _ _ _ _ _ _ _ _) as [s|]; [|done]. cbn [mbind option_bind].
    intros [= <-]. wa.
  - destruct (Enum_values _ _ _) as [f1|] eqn:E; [|done].
    apply wa_Enum_values in E. cbn [mbind option_bind]. intros [= <-]. wa.
  - destruct (_expandType _ _ _) as [s|]; [|done]. cbn [mbind option_bind].
    intros [= <-].
    assert (forall f0, written_after 0 f f0 ->
              written_after 0 f
                (variable_code "%SetCode" setcode
                   (variable_code "%GetCode" getcode
                      (variable_code "%AccessCode" accesscode
                         (latest_sip, f0)))).2) as Hcodes
      by (intros f0 H0; by do 3 apply wa_variable_code).
    destruct latest_sip.
    + eapply wa_step; [apply wa_write |].
      destruct (fst _); [|eapply wa_step; [apply wa_write |]];
        replace (0 - 0 - 0)%Z with 0%Z by lia;
        replace (0 - 0)%Z with 0%Z by lia; apply Hcodes; wa.
    + apply Hcodes. wa.
  - destruct (_expandType _ _ _) as [s|]; [|done]. cbn [mbind option_bind].
    intros [= <-]. wa.
  - intros [= <-]. wa.
  - intros [= <-]. wa.
Qed.

Lemma wa_Class_head (hf : HeaderFile) (b : CodeBase) (c : ClassData)
    (f g : IndentFile) :
  Class_head ignorednamespaces hf b c f = Some g -> written_after 1 f g.
Proof.
  unfold Class_head. destruct (bases_text _ _) as [bstr|]; [|done]. cbn [mbind option_bind].
  intros [= <-]. wa.
Qed.

Section Children.

Context (sip_child :
           bool -> HeaderFile -> Code -> IndentFile -> option IndentFile)
        (latest_sip : bool) (hf : HeaderFile).

(** The [sip] method of every element of a list appends to a file and
    keeps the level of indentation. *)
#[local] Abbreviation appending content :=
  (Forall (fun c => forall f g, sip_child latest_sip hf c f = Some g ->
                                written_after 0 f g) content).

Lemma wa_sip_wrapped (c : Code) (f g : IndentFile) :
  (forall f g, sip_child latest_sip hf c f = Some g -> written_after 0 f g) ->
  sip_wrapped prj sip_child latest_sip hf c f = Some g ->
  written_after 0 f g.
Proof.
  intros Hc. unfold sip_wrapped.
  destruct (versionRange _ _ _) as [v|]; [|done]. cbn [mbind option_bind].
  destruct (sip_child _ _ _ _) as [f1|] eqn:E; [|done].
  apply Hc in E. cbn [mbind option_bind]. intros [= <-]. wa.
Qed.

Lemma wa_Code_sip (content : list Code) (f g : IndentFile) :
  appending content ->
  Code_sip prj sip_child latest_sip hf content f = Some g ->
  written_after 0 f g.
Proof.
  intros H. revert f. induction H as [|c rest Hc _ IH]; intros f.
  - intros [= <-]. wa.
  - cbn [Code_sip]. destruct (String.eqb _ ""); [|apply IH].
    destruct (sip_wrapped _ _ _ _ _ _) as [f1|] eqn:E; [|done].
    apply wa_sip_wrapped in E; [|done]. cbn [mbind option_bind]. intros H%IH. wa.
Qed.

Lemma wa_access_label (c : Code) (access : string) (f : IndentFile) :
  written_after 0 f (access_label c access f).2.
Proof.
  unfold access_label.
  destruct (access_of c) as [a|]; [destruct (String.eqb access a) |];
    cbn [snd]; wa.
Qed.

Lemma wa_Class_sip_content (content : list Code) (access : string)
    (f : IndentFile) (r : string * IndentFile) :
  appending content ->
  Class_sip_content prj sip_child latest_sip hf content access f = Some r ->
  written_after 0 f r.2.
Proof.
  intros H. revert access f. induction H as [|c rest Hc _ IH]; intros access f.
  - intros [= <-]. cbn [snd]. wa.
  - cbn [Class_sip_content]. destruct (String.eqb _ ""); [|apply IH].
    destruct (sip_wrapped _ _ _ _ _ _) as [f1|] eqn:E; [|done].
    apply wa_sip_wrapped in E; [|done]. cbn [mbind option_bind]. intros H%IH.
    pose proof (wa_access_label c access f) as Hl. wa.
Qed.

End Children.

Lemma wa_sip (latest_sip : bool) (hf : HeaderFile) (c : Code) :
  forall f g, sip prj ignorednamespaces latest_sip hf c f = Some g ->
              written_after 0 f g.
Proof.
  induction c as [b c l IH|b n t l IH|b d] using Code_nested_ind;
    intros f g; cbn [sip].
  - destruct (negb _); [intros [= <-]; wa |].
    destruct (Class_head _ _ _ _ _) as [f1|] eqn:E; [|done].
    apply wa_Class_head in E. cbn [mbind option_bind].
    destruct (Class_sip_content _ _ _ _ _ _ _) as [r|] eqn:Hc; [|done].
    apply wa_Class_sip_content in Hc; [|done]. cbn [mbind option_bind]. intros [= <-].
    wa. eapply wa_step; [exact E |]. wa.
  - destruct (negb _); [intros [= <-]; wa |].
    destruct (bool_decide _).
    + by apply wa_Code_sip.
    + destruct (Code_sip _ _ _ _ _ _) as [f1|] eqn:Hc; [|done].
      apply wa_Code_sip in Hc; [|done]. cbn [mbind option_bind]. intros [= <-]. wa.
  - apply wa_Decl_sip.
Qed.

Lemma wa_module_code (hf : HeaderFile) (content : list Code)
    (f g : IndentFile) :
  module_code prj hf content f = Some g -> written_after 0 f g.
Proof.
  revert f. induction content as [|c rest IH]; intros f.
  - intros [= <-]. wa.
  - cbn [module_code]. destruct (_ && _); [|apply IH].
    destruct (versionRange _ _ _) as [v|]; [|done].
    cbn [mbind option_bind]. intros [= <-]. wa.
Qed.

(** X20: [HeaderFile.sip], and the [sip] method of every code
    element, only add text to what the file holds, and return the file at
    the level of indentation at which they found it. *)
Theorem sip_appends (latest_sip : bool) (hf : HeaderFile) :
  (forall c f g,
     sip prj ignorednamespaces latest_sip hf c f = Some g ->
     written_after 0 f g) /\
  (forall f g,
     HeaderFile_sip prj (sip prj ignorednamespaces) latest_sip hf f = Some g ->
     written_after 0 f g).
Proof.
  split; [apply wa_sip |]. intros f g. unfold HeaderFile_sip.
  destruct (String.eqb (hf_status hf) ""); [|intros [= <-]; wa].
  destruct (module_code _ _ _ _) as [f1|] eqn:Hm; [|done].
  apply wa_module_code in Hm. cbn [mbind option_bind].
  destruct (Code_sip _ _ _ _ _ _) as [f2|] eqn:Hc; [|done].
  apply wa_Code_sip in Hc;
    [|apply Forall_forall; intros c _; apply wa_sip].
  cbn [mbind option_bind]. intros [= <-]. wa.
Qed.

End SipAppends.

Lemma sip_appends_witness :
  exists g,
    HeaderFile_sip example_project (sip example_project "") true
      example_header (new_file "f.sip" 4) = Some g /\
    written_after 0 (new_file "f.sip" 4) g.
Proof.
  destruct (sip_appends example_project "" true example_header) as [_ H].
  eexists. split; [vm_compute; reflexivity |].
  apply H. vm_compute. reflexivity.
Defined.

(** ** Elements that are not generated *)

Lemma filter_status_cons (c : Code) (l : list Code) :
  filter (fun c => status (base c) = "") (c :: l)
  = if String.eqb (status (base c)) ""
    then c :: filter (fun c => status (base c) = "") l
    else filter (fun c => status (base c) = "") l.
Proof.
  rewrite filter_cons. destruct (String.eqb_spec (status (base c)) "").
  - by rewrite decide_True.
  - by rewrite decide_False.
Qed.

(** X21: a child whose status is not empty is passed over: the loops
    of [Code.sip] and of [Class.sip] do what they do once these children
    are removed from the content, and so does the loop of [Enum.sip] with
    the values whose status is not empty. *)
Theorem sip_skips_status (prj : Project)
    (sip_child : bool -> HeaderFile -> Code -> IndentFile -> option IndentFile)
    (latest_sip : bool) (hf : HeaderFile) (content : list Code)
    (values : list EnumValue) (access : string) (f : IndentFile) :
  Code_sip prj sip_child latest_sip hf content f
  = Code_sip prj sip_child latest_sip hf
      (filter (fun c => status (base c) = "") content) f /\
  Class_sip_content prj sip_child latest_sip hf content access f
  = Class_sip_content prj sip_child latest_sip hf
      (filter (fun c => status (base c) = "") content) access f /\
  Enum_values prj values f
  = Enum_values prj (filter (fun e => ev_status e = "") values) f.
Proof.
  split; [|split].
  - revert f. induction content as [|c rest IH]; intros f; [done |].
    rewrite filter_status_cons. cbn [Code_sip].
    destruct (String.eqb (status (base c)) "") eqn:E; [|apply IH].
    cbn [Code_sip]. rewrite E.
    destruct (sip_wrapped _ _ _ _ _ _); [apply IH | done].
  - revert access f. induction content as [|c rest IH]; intros access f;
      [done |].
    rewrite filter_status_cons. cbn [Class_sip_content].
    destruct (String.eqb (status (base c)) "") eqn:E; [|apply IH].
    cbn [Class_sip_content]. rewrite E.
    destruct (sip_wrapped _ _ _ _ _ _); [apply IH | done].
  - revert f. induction values as [|e rest IH]; intros f; [done |].
    rewrite filter_cons. cbn [Enum_values].
    destruct (String.eqb_spec (ev_status e) "") as [E|E].
    + rewrite decide_True by done. cbn [Enum_values negb].
      rewrite E. cbn [String.eqb negb].
      destruct (versionRange _ _ _); [apply IH | done].
    + rewrite decide_False by done. cbn [negb]. apply IH.
Qed.

(** ** The text that is hashed *)

Lemma contains_char_cons' (c x : ascii) (s : string) :
  Py.contains (String c "") (String x s) = false ->
  Ascii.eqb x c = false /\ Py.contains (String c "") s = false.
Proof.
  rewrite contains_char_cons, Ascii.eqb_sym. apply orb_false_elim.
Qed.

Lemma hashed_copy_cons (prev : option ascii) (ch : ascii) (rest : string) :
  prev <> Some "/"%char ->
  hashed Copy prev (String ch rest)
  = match prev with Some x => String x "" | None => "" end
    +:+ hashed Copy (Some ch) rest.
Proof.
  intros Hp. cbn [hashed].
  rewrite !bool_decide_eq_false_2, !andb_false_r by done.
  by destruct prev.
Qed.

Lemma hashed_prefix (prev : option ascii) (s : string) :
  prev <> Some "/"%char -> Py.contains "/" s = false ->
  exists h last,
    last <> Some "/"%char /\
    forall t, hashed Copy prev (s +:+ t) = h +:+ hashed Copy last t.
Proof.
  intros Hp. revert prev Hp. induction s as [|ch s IH]; intros prev Hp Hs.
  - by exists "", prev.
  - apply contains_char_cons' in Hs as [Hch Hs].
    destruct (IH (Some ch)) as (h & last & Hlast & Hh); [|done |].
    { intros [= ->]. done. }
    exists (match prev with Some x => String x "" | None => "" end +:+ h), last.
    split; [done |]. intros t'. rewrite append_cons, hashed_copy_cons by done.
    by rewrite Hh, append_assoc.
Qed.

Lemma hashed_cpp_comment (prev : option ascii) (c b : string) :
  Py.contains nl c = false ->
  hashed CppComment prev (c +:+ nl +:+ b) = hashed Copy (Some "010"%char) b.
Proof.
  revert prev. induction c as [|ch c IH]; intros prev Hc; [done |].
  apply contains_char_cons' in Hc as [Hch Hc].
  rewrite append_cons. cbn [hashed]. rewrite Hch. by apply IH.
Qed.

Lemma hashed_c_comment (p : ascii) (c b : string) :
  Py.contains "*/" (String p c) = false ->
  hashed CComment (Some p) (c +:+ "*/" +:+ b) = hashed Copy (Some "/"%char) b.
Proof.
  revert p. induction c as [|ch c IH]; intros p Hc.
  - rewrite append_nil_l. change ("*/" +:+ b) with (String "*" (String "/" b)).
    cbn [hashed]. cbn. done.
  - cbn [Py.contains] in Hc. apply orb_false_elim in Hc as [Hstart Hc].
    rewrite append_cons. cbn [hashed].
    assert (Ascii.eqb ch "/" && bool_decide (Some p = Some "*"%char) = false)
      as ->.
    { rewrite !startswith_cons, startswith_nil, andb_true_r in Hstart.
      destruct (Ascii.eqb_spec ch "/") as [->|]; [|done].
      destruct (Ascii.eqb_spec "*" p) as [<-|Hne]; [done |].
      rewrite bool_decide_eq_false_2; [done |]. by intros [= ->]. }
    by apply IH.
Qed.

(** X22: the text of a comment does not count in the signature of
    a header file: a C++ comment is hashed as the end of its line, and a C
    comment as an empty one. *)
Theorem hashed_text_ignores_comments (a c b : string) :
  Py.contains "/" a = false ->
  (Py.contains nl c = false ->
   hashed_text (a +:+ "//" +:+ c +:+ nl +:+ b) = hashed_text (a +:+ nl +:+ b)) /\
  (Py.contains "*/" ("*" +:+ c) = false ->
   hashed_text (a +:+ "/*" +:+ c +:+ "*/" +:+ b)
   = hashed_text (a +:+ "/**/" +:+ b)).
Proof.
  intros Ha. unfold hashed_text.
  destruct (hashed_prefix None a ltac:(done) Ha) as (h & last & Hlast & Hh).
  rewrite !Hh. split; intros Hc; f_equal.
  - change ("//" +:+ c +:+ nl +:+ b)
      with (String "/" (String "/" (c +:+ nl +:+ b))).
    change (nl +:+ b) with (String "010" b).
    rewrite (hashed_copy_cons last "/"), (hashed_copy_cons last "010")
      by done.
    f_equal. cbn [hashed]. cbn [Ascii.eqb Bool.eqb andb].
    rewrite bool_decide_eq_true_2 by done. by apply hashed_cpp_comment.
  - change ("/*" +:+ c +:+ "*/" +:+ b)
      with (String "/" (String "*" (c +:+ "*/" +:+ b))).
    change ("/**/" +:+ b) with (String "/" (String "*" ("" +:+ "*/" +:+ b))).
    rewrite !(hashed_copy_cons last "/") by done.
    f_equal. cbn [hashed]. cbn [Ascii.eqb Bool.eqb andb].
    rewrite bool_decide_eq_true_2 by done.
    by rewrite !hashed_c_comment.
Qed.

Lemma hashed_text_ignores_comments_witness :
  hashed_text ("int a; // one" +:+ nl +:+ "int b;")
  = hashed_text ("int a; " +:+ nl +:+ "int b;") /\
  hashed_text "int a; /* one */ int b;" = hashed_text "int a; /**/ int b;".
Proof.
  destruct (hashed_text_ignores_comments "int a; " " one" "int b;" eq_refl)
    as [Hcpp _].
  destruct (hashed_text_ignores_comments "int a; " " one " " int b;" eq_refl)
    as [_ Hc].
  split; [exact (Hcpp eq_refl) | exact (Hc eq_refl)].
Defined.

(** X23: the last character of the source is never hashed: of a source
    without [/], all the characters but the last are. *)
Theorem hashed_text_drops_last (s : string) (c : ascii) :
  Py.contains "/" s = false ->
  hashed_text (s +:+ String c "") = s.
Proof.
  unfold hashed_text.
  assert (forall prev, prev <> Some "/"%char -> Py.contains "/" s = false ->
            hashed Copy prev (s +:+ String c "")
            = match prev with Some x => String x "" | None => "" end +:+ s)
    as H; [|by apply (H None)].
  induction s as [|ch s IH]; intros prev Hp Hs.
  - rewrite append_nil_l, hashed_copy_cons by done. cbn [hashed].
    by rewrite append_empty_r.
  - apply contains_char_cons' in Hs as [Hch Hs].
    rewrite append_cons, hashed_copy_cons by done.
    rewrite IH; [done | | done]. intros [= ->]. done.
Qed.

Lemma hashed_text_drops_last_witness :
  hashed_text ("int a;" +:+ nl) = "int a;".
Proof. apply (hashed_text_drops_last "int a;" "010"). reflexivity. Defined.
